(** * Review moderation pipeline: preprocess, profanity and sentiment lambdas

    A shallow embedding of the three AWS Lambda handlers of the repository
    (code/lambdas/preprocess/preprocess.py, lambda/profanity/profanity.py and
    lambda/sentiment/sentiment.py) together with the properties of the
    moderation pipeline that the specification states about them.

    Python dictionaries are finite maps. The AWS services (Parameter Store,
    S3, DynamoDB) are explicit stores threaded through a state-and-exception
    monad, together with the lines the handlers print, the readings of the
    wall clock and a schedule of the service calls that fail. The
    third-party libraries (NLTK, VADER, profanityfilter) and the number and
    date conversions of the Python runtime are parameters of the handlers
    that use them; [hashlib.md5] is embedded.

    Limits of the model: a text is the sequence of its bytes in UTF-8; a
    finite float is the rational number it denotes, and so is a [Decimal],
    whose arithmetic rounds to 28 significant digits; [int] reads the
    digits 0 to 9; every S3 object body is a JSON object; table keys are
    string attributes. *)

From Stdlib Require Import ZArith QArith Lqa String Ascii List Lia Bool.
From stdpp Require Import base option gmap strings list fin_maps.

Local Close Scope Q_scope.
Local Open Scope string_scope.
Local Open Scope list_scope.
Local Open Scope Z_scope.

(** ** MD5 (RFC 1321), the digest behind [hashlib.md5] *)

Module MD5.

Definition two32 : Z := 4294967296.

Definition add32 (a b : Z) : Z := (a + b) mod two32.
Definition not32 (a : Z) : Z := Z.lxor a 4294967295.
Definition rotl32 (x c : Z) : Z :=
  Z.lor (Z.shiftl x c mod two32) (Z.shiftr x (32 - c)).

Definition K : list Z :=
  [ 0xd76aa478; 0xe8c7b756; 0x242070db; 0xc1bdceee;
    0xf57c0faf; 0x4787c62a; 0xa8304613; 0xfd469501;
    0x698098d8; 0x8b44f7af; 0xffff5bb1; 0x895cd7be;
    0x6b901122; 0xfd987193; 0xa679438e; 0x49b40821;
    0xf61e2562; 0xc040b340; 0x265e5a51; 0xe9b6c7aa;
    0xd62f105d; 0x02441453; 0xd8a1e681; 0xe7d3fbc8;
    0x21e1cde6; 0xc33707d6; 0xf4d50d87; 0x455a14ed;
    0xa9e3e905; 0xfcefa3f8; 0x676f02d9; 0x8d2a4c8a;
    0xfffa3942; 0x8771f681; 0x6d9d6122; 0xfde5380c;
    0xa4beea44; 0x4bdecfa9; 0xf6bb4b60; 0xbebfbc70;
    0x289b7ec6; 0xeaa127fa; 0xd4ef3085; 0x04881d05;
    0xd9d4d039; 0xe6db99e5; 0x1fa27cf8; 0xc4ac5665;
    0xf4292244; 0x432aff97; 0xab9423a7; 0xfc93a039;
    0x655b59c3; 0x8f0ccc92; 0xffeff47d; 0x85845dd1;
    0x6fa87e4f; 0xfe2ce6e0; 0xa3014314; 0x4e0811a1;
    0xf7537e82; 0xbd3af235; 0x2ad7d2bb; 0xeb86d391 ].

Definition shifts : list Z :=
  [ 7; 12; 17; 22; 7; 12; 17; 22; 7; 12; 17; 22; 7; 12; 17; 22;
    5;  9; 14; 20; 5;  9; 14; 20; 5;  9; 14; 20; 5;  9; 14; 20;
    4; 11; 16; 23; 4; 11; 16; 23; 4; 11; 16; 23; 4; 11; 16; 23;
    6; 10; 15; 21; 6; 10; 15; 21; 6; 10; 15; 21; 6; 10; 15; 21 ].

Definition bytes_of_string (s : string) : list Z :=
  map (fun c => Z.of_nat (nat_of_ascii c)) (list_ascii_of_string s).

(** [n] as [k] little-endian bytes. *)
Fixpoint le_bytes (k : nat) (n : Z) : list Z :=
  match k with
  | O => []
  | S k' => (n mod 256) :: le_bytes k' (n / 256)
  end.

Definition pad (msg : list Z) : list Z :=
  let len := Z.of_nat (length msg) in
  let zeros := Z.to_nat ((55 - len) mod 64) in
  msg ++ [128] ++ repeat 0 zeros ++ le_bytes 8 ((8 * len) mod 2 ^ 64).

Fixpoint words (fuel : nat) (bs : list Z) : list Z :=
  match fuel, bs with
  | S f, b0 :: b1 :: b2 :: b3 :: rest =>
      (b0 + 256 * b1 + 65536 * b2 + 16777216 * b3) :: words f rest
  | _, _ => []
  end.

Fixpoint blocks (fuel : nat) (ws : list Z) : list (list Z) :=
  match fuel, ws with
  | S f, _ :: _ => firstn 16 ws :: blocks f (skipn 16 ws)
  | _, _ => []
  end.

Record regs := Regs { rA : Z; rB : Z; rC : Z; rD : Z }.

Definition round (m : list Z) (r : regs) (i : nat) : regs :=
  let '(Regs a b c d) := r in
  let zi := Z.of_nat i in
  let '(f, g) :=
    if zi <? 16 then (Z.lor (Z.land b c) (Z.land (not32 b) d), zi)
    else if zi <? 32 then
      (Z.lor (Z.land d b) (Z.land (not32 d) c), (5 * zi + 1) mod 16)
    else if zi <? 48 then (Z.lxor b (Z.lxor c d), (3 * zi + 5) mod 16)
    else (Z.lxor c (Z.lor b (not32 d)), (7 * zi) mod 16) in
  let f' := add32 (add32 (add32 f a) (nth i K 0)) (nth (Z.to_nat g) m 0) in
  Regs d (add32 b (rotl32 f' (nth i shifts 0))) b c.

Definition process_block (r : regs) (m : list Z) : regs :=
  let r' := fold_left (round m) (seq 0 64) r in
  Regs (add32 (rA r) (rA r')) (add32 (rB r) (rB r'))
       (add32 (rC r) (rC r')) (add32 (rD r) (rD r')).

Definition init : regs := Regs 0x67452301 0xefcdab89 0x98badcfe 0x10325476.

Definition digest (s : string) : list Z :=
  let bs := pad (bytes_of_string s) in
  let ws := words (length bs) bs in
  let r := fold_left process_block (blocks (length ws) ws) init in
  le_bytes 4 (rA r) ++ le_bytes 4 (rB r) ++ le_bytes 4 (rC r) ++ le_bytes 4 (rD r).

Definition hex_digit (n : Z) : ascii :=
  ascii_of_nat (Z.to_nat (if n <? 10 then 48 + n else 87 + n)).

Fixpoint hex_of_bytes (bs : list Z) : string :=
  match bs with
  | [] => EmptyString
  | b :: rest => String (hex_digit (b / 16)) (String (hex_digit (b mod 16)) (hex_of_bytes rest))
  end.

(** [hashlib.md5(s).hexdigest()] for the bytes [s] *)
Definition hexdigest (s : string) : string := hex_of_bytes (digest s).

End MD5.

(** ** Python values, strings and exceptions *)

Module Py.

(** JSON documents, DynamoDB attribute values (as the boto3 resource layer
    returns them) and the Python objects the handlers compute with.
    [VInt] stands for an integral number (an [int] or an integral
    [Decimal]), [VReal] for any other number. *)
Inductive value :=
| VNone
| VBool (b : bool)
| VInt (z : Z)
| VReal (q : Q)
| VStr (s : string)
| VList (l : list value).

Abbreviation dict := (gmap string value).

Inductive exn :=
| KeyError (k : string)
| IndexError
| TypeError
| AttributeError
| ValueError (msg : string)
| ClientError (code : string)
| UnicodeEncodeError.

(** [str(e)] *)
Definition exn_str (e : exn) : string :=
  match e with
  | KeyError k => "'" +:+ k +:+ "'"
  | IndexError => "list index out of range"
  | TypeError => "TypeError"
  | AttributeError => "AttributeError"
  | ValueError msg => msg
  | ClientError code => code
  | UnicodeEncodeError => "UnicodeEncodeError"
  end.

(** [bool(v)] *)
Definition truthy (v : value) : bool :=
  match v with
  | VNone => false
  | VBool b => b
  | VInt z => negb (z =? 0)
  | VReal q => negb (Qeq_bool q 0)
  | VStr s => negb (String.eqb s "")
  | VList l => match l with [] => false | _ => true end
  end.

(** [d.get(k, default)] *)
Definition get (d : dict) (k : string) (default : value) : value :=
  match d !! k with
  | Some v => v
  | None => default
  end.

(** [k in d] *)
Definition contains (d : dict) (k : string) : bool :=
  match d !! k with
  | Some _ => true
  | None => false
  end.

(** [d[k]] *)
Definition item (d : dict) (k : string) : exn + value :=
  match d !! k with
  | Some v => inr v
  | None => inl (KeyError k)
  end.

(** A number as a rational; [bool] is a subclass of [int]. *)
Definition number (v : value) : option Q :=
  match v with
  | VBool b => Some (inject_Z (if b then 1 else 0))
  | VInt z => Some (inject_Z z)
  | VReal q => Some q
  | _ => None
  end.

(** *** Arithmetic on the numbers of DynamoDB

    The number of an item reaches the handlers as a [Decimal], and what
    is computed from a [Decimal] is rounded to the precision of the
    context: 28 significant digits, ties to the even neighbour (the
    context [decimal] starts with, which nothing in the handlers changes). *)

Definition precision : Z := 28.

(** Below this bound an integer has at most 28 digits. *)
Definition coefficient_limit : Z := 10 ^ precision.

(** [n / d] as the nearest integer, a tie going to the even one
    ([ROUND_HALF_EVEN]), for [0 <= n] and [0 < d]. *)
Definition round_half_even (n d : Z) : Z :=
  let c := n / d in
  let r := n mod d in
  if 2 * r <? d then c
  else if d <? 2 * r then c + 1
  else if Z.even c then c else c + 1.

(** The least [k] with [a < b * 10 ^ k], for [0 < b]. *)
Fixpoint scale_down (fuel : nat) (a b : Z) : Z :=
  match fuel with
  | O => 0
  | S f => if a <? b then 0 else 1 + scale_down f a (10 * b)
  end.

(** The least [k] with [b <= a * 10 ^ k], for [0 < a]. *)
Fixpoint scale_up (fuel : nat) (a b : Z) : Z :=
  match fuel with
  | O => 0
  | S f => if b <=? a then 0 else 1 + scale_up f (10 * a) b
  end.

(** [a / d], which is [10 ^ 28] at least, at 28 significant digits: the
    digits beyond them are rounded away. *)
Definition round_large (a d : Z) : Z :=
  let k := scale_down (Z.to_nat (Z.log2 a)) a (d * coefficient_limit) in
  round_half_even a (d * 10 ^ k) * 10 ^ k.

(** An integer as the context keeps it. *)
Definition fix_int (z : Z) : Z :=
  if Z.abs z <? coefficient_limit then z
  else Z.sgn z * round_large (Z.abs z) 1.

(** A rational as the context keeps it. *)
Definition fix_Q (q : Q) : Q :=
  let a := Z.abs (Qnum q) in
  let d := Z.pos (Qden q) in
  let s := Z.sgn (Qnum q) in
  if a =? 0 then 0%Q
  else if d * coefficient_limit <=? a then inject_Z (s * round_large a d)
  else
    let k := scale_up (Z.to_nat (Z.log2 d) + 100) a (d * 10 ^ (precision - 1)) in
    Qmake (s * round_half_even (a * 10 ^ k) d) (Z.to_pos (10 ^ k)).

(** A rational as a value: an integral one is a [VInt]. *)
Definition of_Q (q : Q) : value :=
  let r := Qred q in
  if Z.pos (Qden r) =? 1 then VInt (Qnum r) else VReal r.

(** [v + 1] for an attribute of an item, or the [int] that stands in for a
    missing one. *)
Definition add1 (v : value) : exn + value :=
  match v with
  | VBool b => inr (VInt ((if b then 1 else 0) + 1))
  | VInt z => inr (VInt (fix_int (z + 1)))
  | VReal q => inr (of_Q (fix_Q (q + 1)))
  | _ => inl TypeError
  end.

(** [v > n] and [v >= n] against an [int]; other operands raise. *)
Definition gt_int (v : value) (n : Z) : exn + bool :=
  match number v with
  | Some q => inr (negb (Qle_bool q (inject_Z n)))
  | None => inl TypeError
  end.

Definition ge_int (v : value) (n : Z) : exn + bool :=
  match number v with
  | Some q => inr (Qle_bool (inject_Z n) q)
  | None => inl TypeError
  end.

(** *** Strings

    A [str] is modelled by its bytes in UTF-8; a surrogate, which UTF-8
    leaves out, by the three bytes its scheme gives that code point ([ED A0
    80] to [ED BF BF]). *)

(** [s] without the prefix [p], when it starts with it. *)
Fixpoint drop_prefix (p s : string) : option string :=
  match p, s with
  | EmptyString, _ => Some s
  | String a p', String b s' => if Ascii.eqb a b then drop_prefix p' s' else None
  | String _ _, EmptyString => None
  end.

Definition of_bytes (bs : list Z) : string :=
  string_of_list_ascii (map (fun b => ascii_of_nat (Z.to_nat b)) bs).

(** The characters [str.isspace] holds of, which [strip] and [split] take
    for white space: U+0009 to U+000D, U+001C to U+0020, U+0085, U+00A0,
    U+1680, U+2000 to U+200A, U+2028, U+2029, U+202F, U+205F and U+3000. *)
Definition whitespace : list string :=
  map of_bytes
    [ [0x09]; [0x0a]; [0x0b]; [0x0c]; [0x0d];
      [0x1c]; [0x1d]; [0x1e]; [0x1f]; [0x20];
      [0xc2; 0x85]; [0xc2; 0xa0]; [0xe1; 0x9a; 0x80];
      [0xe2; 0x80; 0x80]; [0xe2; 0x80; 0x81]; [0xe2; 0x80; 0x82]; [0xe2; 0x80; 0x83];
      [0xe2; 0x80; 0x84]; [0xe2; 0x80; 0x85]; [0xe2; 0x80; 0x86]; [0xe2; 0x80; 0x87];
      [0xe2; 0x80; 0x88]; [0xe2; 0x80; 0x89]; [0xe2; 0x80; 0x8a];
      [0xe2; 0x80; 0xa8]; [0xe2; 0x80; 0xa9]; [0xe2; 0x80; 0xaf];
      [0xe2; 0x81; 0x9f]; [0xe3; 0x80; 0x80] ].

(** The white space [int] allows around a number: that of [str.isspace]
    but for the separators U+001C to U+001F. *)
Definition int_whitespace : list string :=
  map of_bytes
    [ [0x09]; [0x0a]; [0x0b]; [0x0c]; [0x0d]; [0x20];
      [0xc2; 0x85]; [0xc2; 0xa0]; [0xe1; 0x9a; 0x80];
      [0xe2; 0x80; 0x80]; [0xe2; 0x80; 0x81]; [0xe2; 0x80; 0x82]; [0xe2; 0x80; 0x83];
      [0xe2; 0x80; 0x84]; [0xe2; 0x80; 0x85]; [0xe2; 0x80; 0x86]; [0xe2; 0x80; 0x87];
      [0xe2; 0x80; 0x88]; [0xe2; 0x80; 0x89]; [0xe2; 0x80; 0x8a];
      [0xe2; 0x80; 0xa8]; [0xe2; 0x80; 0xa9]; [0xe2; 0x80; 0xaf];
      [0xe2; 0x81; 0x9f]; [0xe3; 0x80; 0x80] ].

(** [s] after the character of [table] it starts with, when it starts
    with one. *)
Definition skip_any (table : list string) (s : string) : option string :=
  fold_right
    (fun w other => match drop_prefix w s with Some r => Some r | None => other end)
    None table.

Fixpoint lstrip_from (table : list string) (fuel : nat) (s : string) : string :=
  match fuel with
  | O => s
  | S f =>
      match skip_any table s with
      | Some r => lstrip_from table f r
      | None => s
      end
  end.

(** [s] without the characters of [table] it starts with. *)
Definition lstrip_of (table : list string) (s : string) : string :=
  lstrip_from table (String.length s) s.

(** [s] without the characters of [table] it ends with. *)
Fixpoint rstrip_of (table : list string) (s : string) : string :=
  match s with
  | EmptyString => EmptyString
  | String c s' =>
      if String.eqb (lstrip_of table s) "" then EmptyString
      else String c (rstrip_of table s')
  end.

Definition skip_space : string -> option string := skip_any whitespace.

(** [s.lstrip()], [s.rstrip()] and [s.strip()] *)
Definition lstrip : string -> string := lstrip_of whitespace.
Definition rstrip : string -> string := rstrip_of whitespace.
Definition strip (s : string) : string := rstrip (lstrip s).

(** A byte that continues a character. *)
Definition is_continuation (c : ascii) : bool :=
  (Nat.leb 128 (nat_of_ascii c) && Nat.leb (nat_of_ascii c) 191)%bool.

(** The characters of [s], each a string of its own. *)
Fixpoint chars (s : string) : list string :=
  match s with
  | EmptyString => []
  | String c s' =>
      let continued :=
        match s' with
        | String c' _ => is_continuation c'
        | EmptyString => false
        end in
      match chars s' with
      | ch :: rest =>
          if continued then String c ch :: rest
          else String c EmptyString :: ch :: rest
      | [] => [String c EmptyString]
      end
  end.

(** [s] holds a surrogate: the bytes [ED A0] to [ED BF] start one. *)
Fixpoint has_surrogate (s : string) : bool :=
  match s with
  | EmptyString => false
  | String c s' =>
      match s' with
      | String c' _ =>
          (Nat.eqb (nat_of_ascii c) 237 && Nat.leb 160 (nat_of_ascii c')
           && Nat.leb (nat_of_ascii c') 191)%bool
          || has_surrogate s'
      | EmptyString => false
      end
  end.

(** [s.encode()]: the bytes of [s]; a surrogate cannot be encoded. *)
Definition encode (s : string) : exn + string :=
  if has_surrogate s then inl UnicodeEncodeError else inr s.

(** [s.replace(old, "")] for a non-empty [old]: every occurrence, scanning
    left to right. *)
Fixpoint remove_all (fuel : nat) (old s : string) : string :=
  match fuel with
  | O => s
  | S f =>
      match drop_prefix old s with
      | Some rest => remove_all f old rest
      | None =>
          match s with
          | EmptyString => EmptyString
          | String c s' => String c (remove_all f old s')
          end
      end
  end.

(** The text before the first [sep] and the text after it. *)
Fixpoint split_once (sep : ascii) (s : string) : option (string * string) :=
  match s with
  | EmptyString => None
  | String c s' =>
      if Ascii.eqb c sep then Some (EmptyString, s')
      else match split_once sep s' with
           | Some (a, b) => Some (String c a, b)
           | None => None
           end
  end.

(** The longest prefix of characters other than [stop]. *)
Fixpoint take_until (stop : ascii) (s : string) : string :=
  match s with
  | EmptyString => EmptyString
  | String c s' => if Ascii.eqb c stop then EmptyString else String c (take_until stop s')
  end.

Definition digit_of (c : ascii) : option Z :=
  let n := nat_of_ascii c in
  if ((48 <=? n) && (n <=? 57))%nat then Some (Z.of_nat n - 48) else None.

(** Decimal digits, single underscores allowed between digits. *)
Fixpoint digits (acc : Z) (after_digit : bool) (s : string) : option Z :=
  match s with
  | EmptyString => if after_digit then Some acc else None
  | String c s' =>
      match digit_of c with
      | Some d => digits (10 * acc + d) true s'
      | None =>
          if Ascii.eqb c "_" && after_digit then
            match s' with
            | String c' _ => match digit_of c' with
                             | Some _ => digits acc false s'
                             | None => None
                             end
            | EmptyString => None
            end
          else None
      end
  end.

Fixpoint pos_digits (fuel : nat) (n : Z) (acc : string) : string :=
  match fuel with
  | O => acc
  | S f =>
      let acc' := String (ascii_of_nat (Z.to_nat (48 + n mod 10))) acc in
      if n / 10 =? 0 then acc' else pos_digits f (n / 10) acc'
  end.

(** [str(n)] for an [int]. *)
Definition string_of_int (n : Z) : string :=
  if n <? 0 then "-" +:+ pos_digits (Z.to_nat (Z.log2 (- n)) + 1) (- n) ""
  else pos_digits (Z.to_nat (Z.log2 n) + 1) n "".

(** The number of digits in [s]. *)
Fixpoint count_digits (s : string) : Z :=
  match s with
  | EmptyString => 0
  | String c s' =>
      match digit_of c with
      | Some _ => 1 + count_digits s'
      | None => count_digits s'
      end
  end.

(** The longest number [int] converts ([sys.get_int_max_str_digits()]). *)
Definition max_str_digits : Z := 4300.

(** [int(s)] for a [str] in base ten. *)
Definition int_of_string (s : string) : exn + Z :=
  let body := rstrip_of int_whitespace (lstrip_of int_whitespace s) in
  let parsed :=
    match body with
    | String "-" r => option_map Z.opp (digits 0 false r)
    | String "+" r => digits 0 false r
    | _ => digits 0 false body
    end in
  match parsed with
  | Some z =>
      if max_str_digits <? count_digits body
      then inl (ValueError ("Exceeds the limit (4300 digits) for integer string conversion: "
                            +:+ "value has " +:+ string_of_int (count_digits body)
                            +:+ " digits; use sys.set_int_max_str_digits() "
                            +:+ "to increase the limit"))
      else inr z
  | None => inl (ValueError ("invalid literal for int() with base 10: '" +:+ s +:+ "'"))
  end.

End Py.

Import Py.

(** ** The AWS services the handlers talk to *)

Module Aws.

(** A DynamoDB table: the name of its partition key (a string attribute)
    and its items, indexed by the value of that key. *)
Record table := Table { key_name : string; items : gmap string dict }.

(** Parameter Store, the S3 buckets (every object body is a JSON object,
    the only kind of body the handlers read or write) and the DynamoDB
    tables. *)
Record world := World {
  parameters : gmap string string;
  buckets : gmap string (gmap string dict);
  tables : gmap string table
}.

(** One reading of the wall clock, in the three renderings the handlers
    use: [datetime.now().isoformat()], [datetime.utcnow().isoformat()] and
    the text of [datetime.utcnow().timestamp()]. *)
Record instant := Instant {
  now_iso : string;
  utcnow_iso : string;
  utcnow_timestamp : string
}.

(** The lines the handlers [print]. *)
Inductive line :=
| ProfanityChecked (review_id : string) (has_profanity : bool)
| CustomerUpdated (user_id : string) (total violations : value)
| CustomerCreated (user_id : string) (violations : value)
| CustomerError (user_id : string) (e : exn)
| CustomerBanned (user_id : string) (violations : value)
| RecordError (review_id : string) (e : exn)
| SentimentUpdated (review_id : string) (sentiment : string)
| SentimentFailed (review_id : string) (e : exn)
| Processing (bucket key : string)
| Preprocessed (review_id : value)
| HandlerError (e : exn).

(** What a run depends on besides the stores: which of the coming service
    calls fail (an exhausted list means no further failure), the readings
    the wall clock will give, and the lines printed so far. *)
Record state := State {
  faults : list bool;
  clock : nat -> instant;
  reads : nat;
  output : list line;
  stores : world
}.

Definition M (A : Type) : Type := state -> (exn + A) * state.

Definition ret {A} (a : A) : M A := fun st => (inr a, st).
Definition raise {A} (e : exn) : M A := fun st => (inl e, st).
Definition bind {A B} (m : M A) (k : A -> M B) : M B :=
  fun st =>
    match m st with
    | (inr a, st') => k a st'
    | (inl e, st') => (inl e, st')
    end.
Definition lift {A} (r : exn + A) : M A :=
  match r with
  | inr a => ret a
  | inl e => raise e
  end.
(** [try: m except Exception as e: h e] *)
Definition try_except {A} (m : M A) (h : exn -> M A) : M A :=
  fun st =>
    match m st with
    | (inl e, st') => h e st'
    | r => r
    end.

Declare Scope py_scope.
Delimit Scope py_scope with py.
Notation "x <- m ;; k" := (bind m (fun x => k))
  (at level 100, m at next level, right associativity) : py_scope.
Notation "m ;;; k" := (bind m (fun _ => k))
  (at level 100, right associativity) : py_scope.
Local Open Scope py_scope.

(** [for x in l: body x] *)
Fixpoint for_each {A} (l : list A) (body : A -> M unit) : M unit :=
  match l with
  | [] => ret tt
  | x :: rest => body x ;;; for_each rest body
  end.

Definition print (l : line) : M unit :=
  fun st => (inr tt, State (faults st) (clock st) (reads st) (output st ++ [l]) (stores st)).

Definition read_clock : M instant :=
  fun st => (inr (clock st (reads st)),
             State (faults st) (clock st) (S (reads st)) (output st) (stores st)).

Definition get_world : M world := fun st => (inr (stores st), st).
Definition put_world (w : world) : M unit :=
  fun st => (inr tt, State (faults st) (clock st) (reads st) (output st) w).

(** A round trip to a service: it fails when the next fault says so. *)
Definition call : M unit :=
  fun st =>
    match faults st with
    | true :: rest =>
        (inl (ClientError "ServiceUnavailable"),
         State rest (clock st) (reads st) (output st) (stores st))
    | false :: rest =>
        (inr tt, State rest (clock st) (reads st) (output st) (stores st))
    | [] => (inr tt, st)
    end.

(** [ssm.get_parameter(Name=name)["Parameter"]["Value"]] *)
Definition ssm_get_parameter (name : string) : M string :=
  call ;;;
  w <- get_world ;;
  match parameters w !! name with
  | Some v => ret v
  | None => raise (ClientError "ParameterNotFound")
  end.

(** [json.loads(s3.get_object(Bucket=bucket, Key=key)["Body"].read())] *)
Definition s3_get_object (bucket key : string) : M dict :=
  call ;;;
  w <- get_world ;;
  match buckets w !! bucket with
  | None => raise (ClientError "NoSuchBucket")
  | Some objects =>
      match objects !! key with
      | None => raise (ClientError "NoSuchKey")
      | Some body => ret body
      end
  end.

(** [s3.put_object(Bucket=bucket, Key=key, Body=json.dumps(body))] *)
Definition s3_put_object (bucket key : string) (body : dict) : M unit :=
  call ;;;
  w <- get_world ;;
  match buckets w !! bucket with
  | None => raise (ClientError "NoSuchBucket")
  | Some objects =>
      put_world (World (parameters w) (<[bucket := <[key := body]> objects]> (buckets w)) (tables w))
  end.

(** The table [name], provided its partition key is called [key]. *)
Definition table_keyed (name key : string) : M table :=
  w <- get_world ;;
  match tables w !! name with
  | None => raise (ClientError "ResourceNotFoundException")
  | Some t =>
      if String.eqb (key_name t) key then ret t
      else raise (ClientError "ValidationException")
  end.

Definition store_item (name : string) (t : table) (k : string) (it : dict) : M unit :=
  w <- get_world ;;
  put_world (World (parameters w) (buckets w)
                   (<[name := Table (key_name t) (<[k := it]> (items t))]> (tables w))).

(** [dynamodb.Table(name).get_item(Key={key: k})]: the item under
    ["Item"], if the response has one. *)
Definition get_item (name key k : string) : M (option dict) :=
  call ;;;
  t <- table_keyed name key ;;
  ret (items t !! k).

(** [dynamodb.Table(name).put_item(Item=it)] *)
Definition put_item (name : string) (it : dict) : M unit :=
  call ;;;
  w <- get_world ;;
  match tables w !! name with
  | None => raise (ClientError "ResourceNotFoundException")
  | Some t =>
      match it !! key_name t with
      | Some (VStr k) => store_item name t k it
      | _ => raise (ClientError "ValidationException")
      end
  end.

(** The effect of [SET a1 = v1, a2 = v2, ...] on an item. *)
Definition assign (sets : list (string * value)) (it : dict) : dict :=
  fold_left (fun d '(a, v) => <[a := v]> d) sets it.

(** [dynamodb.Table(name).update_item(Key={key: k}, UpdateExpression=
    "SET ...", ReturnValues="ALL_NEW")["Attributes"]]; an item that does
    not exist yet is created with its key. *)
Definition update_item (name key k : string) (sets : list (string * value)) : M dict :=
  call ;;;
  t <- table_keyed name key ;;
  let old := default {[ key := VStr k ]} (items t !! k) in
  let new := assign sets old in
  store_item name t k new ;;;
  ret new.

(** *** DynamoDB stream events *)

(** An attribute value in the wire format of stream records. *)
Inductive attr :=
| AttrS (s : string)
| AttrN (n : string)
| AttrBOOL (b : bool)
| AttrNULL.

Abbreviation image := (gmap string attr).

Record stream_record := StreamRecord {
  eventName : string;
  NewImage : option image
}.

(** [image[k]["S"]] *)
Definition image_S (img : image) (k : string) : exn + string :=
  match img !! k with
  | Some (AttrS s) => inr s
  | Some _ => inl (KeyError "S")
  | None => inl (KeyError k)
  end.

End Aws.

Import Aws.
Local Open Scope py_scope.

(** ** lambda/profanity/profanity.py *)

Module Profanity.
Section Handler.

(** [ProfanityFilter().is_profane], the external word-list classifier. *)
Variable is_profane : value -> exn + bool.

(** Lines 62-74: the review text and its summary, from the raw review in
    S3 or inline in the stream image. *)
Definition review_texts (new_image : image) : M (value * value) :=
  match new_image !! "originalReviewText" with
  | None =>
      location <- lift (image_S new_image "originalTextLocation") ;;
      let path := remove_all (S (String.length location)) "s3://" location in
      match split_once "/" path with
      | None => raise (ValueError "not enough values to unpack (expected 2, got 1)")
      | Some (bucket, key) =>
          review_data <- s3_get_object bucket key ;;
          ret (get review_data "reviewText" (VStr ""), get review_data "summary" (VStr ""))
      end
  | Some _ =>
      review_text <- lift (image_S new_image "originalReviewText") ;;
      summary_text <- lift (image_S new_image "originalSummary") ;;
      ret (VStr review_text, VStr summary_text)
  end.

(** Line 78: [pf.is_profane(review_text) or pf.is_profane(summary_text)] *)
Definition has_profanity_of (review_text summary_text : value) : exn + bool :=
  match is_profane review_text with
  | inl e => inl e
  | inr true => inr true
  | inr false => is_profane summary_text
  end.

Definition when_missing (it : dict) (a : string) (sets : list (string * value))
  : list (string * value) :=
  if contains it a then [] else sets.

(** Lines 108-147: the assignments of the [SET] expression for a customer
    that already has a record. *)
Definition update_expression (it : dict) (has_profanity : bool) (current_time : string)
  : exn + list (string * value) :=
  let current_total := get it "totalReviews" (VInt 0) in
  let current_violations := get it "violationCount" (VInt 0) in
  match add1 current_total with
  | inl e => inl e
  | inr total =>
      let base :=
        [ ("lastUpdated", VStr current_time);
          ("lastReviewDate", VStr current_time);
          ("totalReviews", total) ]
        ++ when_missing it "isBanned" [ ("isBanned", VBool false) ]
        ++ when_missing it "createdDate" [ ("createdDate", VStr current_time) ]
        ++ when_missing it "firstReviewDate" [ ("firstReviewDate", VStr current_time) ] in
      if has_profanity then
        match add1 current_violations with
        | inl e => inl e
        | inr violations =>
            inr (base
                 ++ [ ("violationCount", violations);
                      ("lastViolationDate", VStr current_time) ]
                 ++ when_missing it "firstViolationDate"
                      [ ("firstViolationDate", VStr current_time) ])
        end
      else
        inr (base ++ when_missing it "violationCount" [ ("violationCount", VInt 0) ])
  end.

(** Lines 165-179: the record of a customer seen for the first time. *)
Definition new_customer_item (user_id : string) (has_profanity : bool)
    (current_time : string) : dict :=
  let base : dict :=
    list_to_map
      [ ("userId", VStr user_id);
        ("totalReviews", VInt 1);
        ("violationCount", VInt (if has_profanity then 1 else 0));
        ("isBanned", VBool false);
        ("createdDate", VStr current_time);
        ("lastUpdated", VStr current_time);
        ("lastReviewDate", VStr current_time);
        ("firstReviewDate", VStr current_time) ] in
  if has_profanity then
    <["lastViolationDate" := VStr current_time]>
      (<["firstViolationDate" := VStr current_time]> base)
  else base.

(** Lines 102-188: the customer record is updated or created; an
    exception is printed and the rest of the record is skipped. *)
Definition track_customer (customers_table user_id : string) (has_profanity : bool)
    (current_time : string) : M (option dict) :=
  try_except
    (existing_customer <- get_item customers_table "userId" user_id ;;
     match existing_customer with
     | Some it =>
         sets <- lift (update_expression it has_profanity current_time) ;;
         updated_customer <- update_item customers_table "userId" user_id sets ;;
         print (CustomerUpdated user_id (get updated_customer "totalReviews" VNone)
                                (get updated_customer "violationCount" VNone)) ;;;
         ret (Some updated_customer)
     | None =>
         let it := new_customer_item user_id has_profanity current_time in
         put_item customers_table it ;;;
         print (CustomerCreated user_id (get it "violationCount" VNone)) ;;;
         ret (Some it)
     end)
    (fun e => print (CustomerError user_id e) ;;; ret None).

(** Lines 190-207: the automated ban. *)
Definition apply_ban (customers_table user_id : string) (updated_customer : dict)
    (current_time : string) : M unit :=
  let violation_count := get updated_customer "violationCount" (VInt 0) in
  positive <- lift (gt_int violation_count 0) ;;
  if positive && negb (truthy (get updated_customer "isBanned" (VBool false))) then
    text <- ssm_get_parameter "/app/config/profanity_threshold" ;;
    threshold <- lift (int_of_string text) ;;
    reached <- lift (ge_int violation_count threshold) ;;
    if reached then
      update_item customers_table "userId" user_id
        [ ("isBanned", VBool true); ("banDate", VStr current_time) ] ;;;
      print (CustomerBanned user_id violation_count)
    else ret tt
  else ret tt.

(** Lines 61-207: the body of the [try] of one record. *)
Definition check_review (new_image : image) (review_id user_id : string) : M unit :=
  texts <- review_texts new_image ;;
  has_profanity <- lift (has_profanity_of (fst texts) (snd texts)) ;;
  print (ProfanityChecked review_id has_profanity) ;;;
  t <- read_clock ;;
  update_item "reviews" "reviewId" review_id
    [ ("profanityCheckStatus", VStr "completed");
      ("hasProfanity", VBool has_profanity);
      ("lastUpdated", VStr (now_iso t)) ] ;;;
  customers_table <- ssm_get_parameter "/app/config/customers_table" ;;
  t' <- read_clock ;;
  let current_time := now_iso t' in
  tracked <- track_customer customers_table user_id has_profanity current_time ;;
  match tracked with
  | None => ret tt
  | Some updated_customer => apply_ban customers_table user_id updated_customer current_time
  end.

(** Lines 51-211: one iteration of the loop over the stream records. *)
Definition process_record (record : stream_record) : M unit :=
  if negb (String.eqb (eventName record) "INSERT") then ret tt
  else
    match NewImage record with
    | None => raise (KeyError "NewImage")
    | Some new_image =>
        review_id <- lift (image_S new_image "reviewId") ;;
        user_id <- lift (image_S new_image "userId") ;;
        try_except (check_review new_image review_id user_id)
                   (fun e => print (RecordError review_id e))
    end.

(** [lambda_handler(event, context)], returning the status code. *)
Definition lambda_handler (Records : list stream_record) : M Z :=
  for_each Records process_record ;;;
  ret 200.

End Handler.
End Profanity.

(** ** lambda/sentiment/sentiment.py *)

Module Sentiment.
Section Handler.

(** [SentimentIntensityAnalyzer().polarity_scores(text)["compound"]], the
    external lexicon scorer; a finite float is the rational it denotes. *)
Variable polarity_compound : string -> exn + Q.

(** [float(s)] for a string, [None] when it raises [ValueError]. *)
Variable float_of_string : string -> option Q.

(** [re.match(r"s3://([^/]+)/(.+)", uri)]: the bucket is the run of
    characters up to the first slash, the key the rest of that line. *)
Definition parse_s3_uri (uri : string) : exn + (string * string) :=
  let invalid := inl (ValueError ("Invalid S3 URI: " +:+ uri)) in
  match drop_prefix "s3://" uri with
  | None => invalid
  | Some rest =>
      match split_once "/" rest with
      | None => invalid
      | Some (bucket, tail) =>
          let key := take_until "010"%char tail in
          if String.eqb bucket "" || String.eqb key "" then invalid
          else inr (bucket, key)
      end
  end.

Definition analyze_sentiment (summary review_text : string) (overall : Q)
  : exn + string :=
  let combined_text := strip summary +:+ " " +:+ strip review_text in
  match polarity_compound combined_text with
  | inl e => inl e
  | inr compound =>
      let rating_sentiment :=
        if Qle_bool 4 overall then Some "positive"
        else if Qle_bool overall 2 then Some "negative"
        else None in
      if Qle_bool (1 # 2) compound
         || (negb (Qle_bool compound 0)
             && bool_decide (rating_sentiment = Some "positive"))
      then inr "positive"
      else if Qle_bool compound (- (1 # 2))
              || (negb (Qle_bool 0 compound)
                  && bool_decide (rating_sentiment = Some "negative"))
      then inr "negative"
      else inr "neutral"
  end.

(** [text.strip()] needs a [str]. *)
Definition as_str (v : value) : exn + string :=
  match v with
  | VStr s => inr s
  | _ => inl AttributeError
  end.

(** Lines 146-190: one iteration of the loop over the stream records. *)
Definition process_record (REVIEWS_TABLE_NAME : string) (record : stream_record) : M unit :=
  if negb (String.eqb (eventName record) "INSERT") then ret tt
  else
    let new_image : image := default ∅ (NewImage record) in
    review_id <- lift (image_S new_image "reviewId") ;;
    let preprocessed_uri :=
      match new_image !! "preprocessedLocation" with
      | Some (AttrS s) => s
      | _ => ""
      end in
    location <- lift (parse_s3_uri preprocessed_uri) ;;
    data <- s3_get_object (fst location) (snd location) ;;
    let summary := get data "preprocessedSummary" (VStr "") in
    let review_text := get data "preprocessedReviewText" (VStr "") in
    let overall_str :=
      match new_image !! "overallRating" with
      | Some (AttrN n) => n
      | _ => "3"
      end in
    let overall := default 3%Q (float_of_string overall_str) in
    summary' <- lift (as_str summary) ;;
    review_text' <- lift (as_str review_text) ;;
    sentiment <- lift (analyze_sentiment summary' review_text' overall) ;;
    try_except
      (update_item REVIEWS_TABLE_NAME "reviewId" review_id
         [ ("sentiment", VStr sentiment);
           ("sentimentAnalysisStatus", VStr "processed") ] ;;;
       print (SentimentUpdated review_id sentiment))
      (fun e => print (SentimentFailed review_id e)).

(** [lambda_handler(event, context)], returning the status code; an event
    without ["Records"] is an empty batch. *)
Definition lambda_handler (Records : list stream_record) : M Z :=
  REVIEWS_TABLE_NAME <- ssm_get_parameter "/app/config/reviews_table" ;;
  for_each Records (process_record REVIEWS_TABLE_NAME) ;;;
  ret 200.

End Handler.
End Sentiment.

(** ** code/lambdas/preprocess/preprocess.py *)

Module Preprocess.

(** [str(v)] inside an f-string; numbers that are not integral and lists
    are rendered by [repr_other]. *)
Definition format (repr_other : value -> string) (v : value) : string :=
  match v with
  | VNone => "None"
  | VBool true => "True"
  | VBool false => "False"
  | VInt z => string_of_int z
  | VStr s => s
  | _ => repr_other v
  end.

Fixpoint word_count_from (fuel : nat) (in_word : bool) (s : string) : Z :=
  match fuel, s with
  | S f, String c s' =>
      match skip_space s with
      | Some r => word_count_from f false r
      | None => (if in_word then 0 else 1) + word_count_from f true s'
      end
  | _, _ => 0
  end.

(** [len(s.split())], the number of runs of characters that are not white
    space; [in_word] tells whether [s] starts inside such a run. *)
Definition word_count (in_word : bool) (s : string) : Z :=
  word_count_from (String.length s) in_word s.

(** The body of the success response and the error of the failure one. *)
Inductive response :=
| Response200 (reviewId : value) (preprocessedLocation : string)
| Response500 (error : string).

Section Handler.

(** The NLTK pipeline of [preprocess_text]: tokenise, drop stop words and
    tokens that are not alphabetic, lemmatise, join with spaces. *)
Variable canonicalize : string -> exn + string.
(** [float(v)] *)
Variable to_float : value -> exn + Q.
(** [Decimal(str(v))] *)
Variable to_decimal : value -> exn + value.
(** [datetime.utcfromtimestamp(v).isoformat()] *)
Variable utcfromtimestamp_iso : value -> exn + string.
(** [datetime.strptime(v, "%m %d, %Y").isoformat()], [None] when it raises. *)
Variable strptime_iso : value -> option string.
Variable repr_other : value -> string.

Definition preprocess_text (text : value) : exn + string :=
  match text with
  | VStr s =>
      if String.eqb s "" || String.eqb (strip s) "" then inr ""
      else canonicalize s
  | _ => if truthy text then inl AttributeError else inr ""
  end.

Definition get_ssm_param (name : string) : M string :=
  try_except (ssm_get_parameter name)
    (fun e => raise (ValueError ("SSM Error (" +:+ name +:+ "): " +:+ exn_str e))).

Definition parse_review_time (review : dict) : M string :=
  let utcnow := (t <- read_clock ;; ret (utcnow_iso t)) in
  match review !! "unixReviewTime" with
  | Some v => lift (utcfromtimestamp_iso v)
  | None =>
      match review !! "reviewTime" with
      | Some v =>
          match strptime_iso v with
          | Some iso => ret iso
          | None => utcnow
          end
      | None => utcnow
      end
  end.

Definition generate_review_id (review : dict) : M value :=
  match review !! "reviewId" with
  | Some id => ret id
  | None =>
      asin <- lift (item review "asin") ;;
      reviewerID <- lift (item review "reviewerID") ;;
      t <- read_clock ;;
      let time :=
        match review !! "unixReviewTime" with
        | Some v => format repr_other v
        | None => utcnow_timestamp t
        end in
      let hash_input :=
        format repr_other asin +:+ "_" +:+ format repr_other reviewerID +:+ "_" +:+ time in
      encoded <- lift (encode hash_input) ;;
      let hash_suffix := String.substring 0 8 (MD5.hexdigest encoded) in
      ret (VStr (format repr_other asin +:+ "_" +:+ format repr_other reviewerID
                 +:+ "_" +:+ hash_suffix))
  end.

Definition required_fields : list string :=
  [ "reviewerID"; "asin"; "reviewText"; "overall" ].

(** Lines 234-236 *)
Fixpoint validate (fields : list string) (review : dict) : exn + unit :=
  match fields with
  | [] => inr tt
  | field :: rest =>
      if negb (contains review field)
      then inl (ValueError ("Missing required field: " +:+ field))
      else validate rest review
  end.

(** [Decimal(str(len(text.split()))) if text else Decimal('0')] *)
Definition count_words (text : string) : value :=
  if String.eqb text "" then VInt 0 else VInt (word_count false text).

(** The elements of a list or the characters of a string, for [len] and
    indexing. *)
Definition elements (v : value) : exn + list value :=
  match v with
  | VList l => inr l
  | VStr s => inr (map VStr (chars s))
  | _ => inl TypeError
  end.

(** [Decimal(str(helpful[i])) if len(helpful) > i else Decimal('0')] *)
Definition votes (helpful : value) (i : nat) : exn + value :=
  match elements helpful with
  | inl e => inl e
  | inr l =>
      match nth_error l i with
      | Some v => to_decimal v
      | None => inr (VInt 0)
      end
  end.

(** Lines 211-316: the body of the [try]. *)
Definition ingest (event : list (string * string)) : M response :=
  raw_bucket <- get_ssm_param "/app/config/raw_bucket" ;;
  processed_bucket <- get_ssm_param "/app/config/processed_bucket" ;;
  reviews_table <- get_ssm_param "/app/config/reviews_table" ;;
  match event with
  | [] => raise IndexError
  | (source_bucket, key) :: _ =>
      print (Processing source_bucket key) ;;;
      review <- s3_get_object source_bucket key ;;
      lift (validate required_fields review) ;;;
      review_id <- generate_review_id review ;;
      let review_text := get review "reviewText" (VStr "") in
      let summary_text := get review "summary" (VStr "") in
      reviewerID <- lift (item review "reviewerID") ;;
      asin <- lift (item review "asin") ;;
      raw_overall <- lift (item review "overall") ;;
      overall <- lift (to_float raw_overall) ;;
      preprocessedReviewText <- lift (preprocess_text review_text) ;;
      preprocessedSummary <- lift (preprocess_text summary_text) ;;
      timestamp <- parse_review_time review ;;
      let processed_data : dict :=
        list_to_map
          [ ("reviewId", review_id);
            ("reviewerID", reviewerID);
            ("asin", asin);
            ("overall", VReal overall);
            ("preprocessedReviewText", VStr preprocessedReviewText);
            ("preprocessedSummary", VStr preprocessedSummary);
            ("originalReviewText", review_text);
            ("originalSummary", summary_text);
            ("category", get review "category" (VStr "uncategorized"));
            ("reviewerName", get review "reviewerName" (VStr ""));
            ("timestamp", VStr timestamp);
            ("helpful", get review "helpful" (VList [VInt 0; VInt 0])) ] in
      let processed_key :=
        "preprocessed/" +:+ format repr_other reviewerID +:+ "/"
        +:+ format repr_other review_id +:+ ".json" in
      s3_put_object processed_bucket processed_key processed_data ;;;
      let helpful := get review "helpful" (VList [VInt 0; VInt 0]) in
      overallRating <- lift (to_decimal raw_overall) ;;
      timestamp' <- parse_review_time review ;;
      helpfulVotes <- lift (votes helpful 0) ;;
      totalVotes <- lift (votes helpful 1) ;;
      t <- read_clock ;;
      let dynamo_item : dict :=
        list_to_map
          [ ("reviewId", review_id);
            ("userId", reviewerID);
            ("productId", asin);
            ("originalTextLocation", VStr ("s3://" +:+ source_bucket +:+ "/" +:+ key));
            ("preprocessedLocation",
             VStr ("s3://" +:+ processed_bucket +:+ "/" +:+ processed_key));
            ("overallRating", overallRating);
            ("timestamp", VStr timestamp');
            ("wordCount", count_words preprocessedReviewText);
            ("summaryWordCount", count_words preprocessedSummary);
            ("helpfulVotes", helpfulVotes);
            ("totalVotes", totalVotes);
            ("reviewerName", get review "reviewerName" (VStr ""));
            ("productCategory", get review "category" (VStr "uncategorized"));
            ("processingStatus", VStr "preprocessed");
            ("createdAt", VStr (utcnow_iso t));
            ("hasProfanity", VNone);
            ("sentiment", VNone);
            ("profanityCheckStatus", VStr "pending");
            ("sentimentAnalysisStatus", VStr "pending") ] in
      put_item reviews_table dynamo_item ;;;
      print (Preprocessed review_id) ;;;
      ret (Response200 review_id processed_key)
  end.

(** [lambda_handler(event, context)]: the notification carries the bucket
    and key of each uploaded object. *)
Definition lambda_handler (event : list (string * string)) : M response :=
  try_except (ingest event)
    (fun e => print (HandlerError e) ;;; ret (Response500 (exn_str e))).

End Handler.
End Preprocess.

(** ** code/tests/integration_tests.py *)

Module IntegrationTests.

(** [v == s] for a [str] [s]. *)
Definition equals_str (v : value) (s : string) : bool :=
  match v with
  | VStr s' => String.eqb s' s
  | _ => false
  end.

(** Lines 171-176 of [wait_for_processing]: the three stages are done with
    the item. *)
Definition processing_complete (item : dict) : bool :=
  let preprocessing_done := equals_str (get item "processingStatus" VNone) "preprocessed" in
  let profanity_done := equals_str (get item "profanityCheckStatus" VNone) "completed" in
  let sentiment_done := equals_str (get item "sentimentAnalysisStatus" VNone) "processed" in
  preprocessing_done && profanity_done && sentiment_done.

(** Lines 240-242 (and 286-288, 309-311, 339-341, 374-376, 414-416): the
    identifier a test waits for, computed from the payload it uploaded. *)
Definition expected_review_id (repr_other : value -> string) (review : dict) : exn + string :=
  match item review "asin" with
  | inl e => inl e
  | inr asin =>
      match item review "reviewerID" with
      | inl e => inl e
      | inr reviewerID =>
          match item review "unixReviewTime" with
          | inl e => inl e
          | inr unixReviewTime =>
              let hash_input :=
                Preprocess.format repr_other asin +:+ "_"
                +:+ Preprocess.format repr_other reviewerID +:+ "_"
                +:+ Preprocess.format repr_other unixReviewTime in
              match encode hash_input with
              | inl e => inl e
              | inr encoded =>
                  let hash_suffix := String.substring 0 8 (MD5.hexdigest encoded) in
                  inr (Preprocess.format repr_other asin +:+ "_"
                       +:+ Preprocess.format repr_other reviewerID +:+ "_" +:+ hash_suffix)
              end
          end
      end
  end.

End IntegrationTests.

(** ** The classification policy of the sentiment stage, as specified *)

Module SentimentPolicy.

(** The sentiment a rating implies: positive from 4 up, negative up to 2,
    none in between. *)
Inductive implied (rating : Q) : option string -> Prop :=
| implied_positive : (4 <= rating)%Q -> implied rating (Some "positive")
| implied_negative : (rating <= 2)%Q -> implied rating (Some "negative")
| implied_none : (2 < rating)%Q -> (rating < 4)%Q -> implied rating None.

Definition rule_positive (compound rating : Q) : Prop :=
  (1 # 2 <= compound)%Q \/ ((0 < compound)%Q /\ implied rating (Some "positive")).

Definition rule_negative (compound rating : Q) : Prop :=
  (compound <= - (1 # 2))%Q \/ ((compound < 0)%Q /\ implied rating (Some "negative")).

(** The three rules, tried in this order. *)
Inductive classifies (compound rating : Q) : string -> Prop :=
| first_positive :
    rule_positive compound rating -> classifies compound rating "positive"
| then_negative :
    ~ rule_positive compound rating -> rule_negative compound rating ->
    classifies compound rating "negative"
| otherwise_neutral :
    ~ rule_positive compound rating -> ~ rule_negative compound rating ->
    classifies compound rating "neutral".

End SentimentPolicy.

(** ** Sample data for the examples *)

Module Samples.

(** [p] occurs in [s]. *)
Fixpoint occurs (p s : string) : bool :=
  match drop_prefix p s with
  | Some _ => true
  | None =>
    match s with
    | EmptyString => false
    | String _ s' => occurs p s'
    end
  end.

(** A word-list classifier with one word on its list. *)
Definition is_profane (text : value) : exn + bool :=
  match text with
  | VStr s => inr (occurs "damn" s)
  | _ => inl TypeError
  end.

(** A scorer that knows two words. *)
Definition polarity_compound (text : string) : exn + Q :=
  inr (if occurs "great" text then 8 # 10
     else if occurs "awful" text then - (8 # 10)
     else 0)%Q.

(** Ratings written as whole numbers. *)
Definition float_of_string (s : string) : option Q :=
  match int_of_string s with
  | inr z => Some (inject_Z z)
  | inl _ => None
  end.

(** A clock that advances by one second at every reading. *)
Definition clock (n : nat) : instant :=
  let seconds := string_of_int (10 + Z.of_nat n) in
  Instant ("2025-06-01T12:00:" +:+ seconds) ("2025-06-01T10:00:" +:+ seconds)
        (string_of_int (1748772010 + Z.of_nat n) +:+ ".5").

Definition configuration : gmap string string :=
  list_to_map
  [ ("/app/config/raw_bucket", "raw");
    ("/app/config/processed_bucket", "processed");
    ("/app/config/reviews_table", "reviews");
    ("/app/config/customers_table", "customers");
    ("/app/config/profanity_threshold", "4") ].

(** A raw review that the classifier flags, as uploaded. *)
Definition profane_review : dict :=
  list_to_map
  [ ("reviewerID", VStr "u1"); ("asin", VStr "B001");
    ("reviewText", VStr "damn bad product"); ("summary", VStr "awful");
    ("overall", VInt 1) ].

(** Its canonical text, as the preprocess stage stores it. *)
Definition profane_processed : dict :=
  list_to_map
  [ ("preprocessedReviewText", VStr "damn bad product");
    ("preprocessedSummary", VStr "awful") ].

Definition uploads : gmap string (gmap string dict) :=
  list_to_map
  [ ("raw", list_to_map [ ("u1/r1.json", profane_review) ]);
    ("processed", list_to_map [ ("preprocessed/u1/r1.json", profane_processed) ]) ].

(** The record of review [r1] as the preprocess stage inserts it (the
    attributes the later stages do not touch are left out). *)
Definition pending_review : dict :=
  list_to_map
  [ ("reviewId", VStr "r1"); ("userId", VStr "u1");
    ("profanityCheckStatus", VStr "pending");
    ("sentimentAnalysisStatus", VStr "pending") ].

Definition world_with (customers : gmap string dict) : world :=
  World configuration uploads
      (list_to_map
         [ ("reviews", Table "reviewId" (list_to_map [ ("r1", pending_review) ]));
           ("customers", Table "userId" customers) ]).

(** The stream image of review [r1] and its insert notification. *)
Definition r1_image : image :=
  list_to_map
  [ ("reviewId", AttrS "r1"); ("userId", AttrS "u1");
    ("originalTextLocation", AttrS "s3://raw/u1/r1.json");
    ("preprocessedLocation", AttrS "s3://processed/preprocessed/u1/r1.json");
    ("overallRating", AttrN "1") ].

Definition r1_inserted : stream_record := StreamRecord "INSERT" (Some r1_image).

(** A run without faults that starts with nothing printed. *)
Definition start (w : world) : state := State [] clock 0 [] w.

(** Customer [u1] after [n] flagged reviews. *)
Definition flagged_customer (n : Z) (banDate : option string) : dict :=
  let base : dict :=
  list_to_map
    [ ("userId", VStr "u1"); ("totalReviews", VInt n); ("violationCount", VInt n);
      ("isBanned", VBool (bool_decide (is_Some banDate)));
      ("createdDate", VStr "2025-05-01T09:00:00");
      ("firstReviewDate", VStr "2025-05-01T09:00:00");
      ("firstViolationDate", VStr "2025-05-01T09:00:00") ] in
  match banDate with
  | Some d => <["banDate" := VStr d]> base
  | None => base
  end.

(** Stand-ins for the library calls of the preprocess stage: text that is
    already canonical, numbers written as whole numbers, no dates. *)
Definition canonicalize (text : string) : exn + string := inr text.

Definition to_float (v : value) : exn + Q :=
  match v with
  | VInt z => inr (inject_Z z)
  | VReal q => inr q
  | _ => inl TypeError
  end.

Definition to_decimal (v : value) : exn + value :=
  match v with
  | VInt z => inr (VInt z)
  | VReal q => inr (VReal q)
  | _ => inl (ValueError "InvalidOperation")
  end.

Definition utcfromtimestamp_iso (v : value) : exn + string :=
  match v with
  | VInt z => inr ("epoch+" +:+ string_of_int z)
  | _ => inl TypeError
  end.

Definition strptime_iso (v : value) : option string := None.

Definition repr_other (v : value) : string := "".

(** The upload notification of the raw review. *)
Definition r1_uploaded : list (string * string) := [ ("raw", "u1/r1.json") ].

(** A notification for a review whose objects are not in the buckets. *)
Definition r0_image : image :=
  list_to_map
  [ ("reviewId", AttrS "r0"); ("userId", AttrS "u1");
    ("originalTextLocation", AttrS "s3://raw/u1/r0.json");
    ("preprocessedLocation", AttrS "s3://processed/preprocessed/u1/r0.json");
    ("overallRating", AttrN "5") ].

Definition r0_inserted : stream_record := StreamRecord "INSERT" (Some r0_image).

End Samples.

(** ** Notions used to state the properties *)

(** A computation that leaves the stores as they are. *)
Definition read_only {A} (m : M A) : Prop :=
  forall st, stores (snd (m st)) = stores st.

(** The first required field a review lacks. *)
Definition first_missing (review : dict) : option string :=
  List.find (fun field => negb (contains review field)) Preprocess.required_fields.

(** The stores after item [it] is written under key [k] of table [name]. *)
Definition write_item (name k : string) (it : dict) (w : world) : world :=
  match tables w !! name with
  | Some t =>
    World (parameters w) (buckets w)
          (<[name := Table (key_name t) (<[k := it]> (items t))]> (tables w))
  | None => w
  end.

(** The customer record the profanity stage writes for a review, from the
    record it found (lines 106-182). *)
Definition fresh_customer (found : option dict) (user_id : string) (has_profanity : bool)
    (current_time : string) : exn + dict :=
  match found with
  | Some it =>
    match Profanity.update_expression it has_profanity current_time with
    | inl e => inl e
    | inr sets => inr (assign sets it)
    end
  | None => inr (Profanity.new_customer_item user_id has_profanity current_time)
  end.

(** The line printed for that record. *)
Definition customer_line (found : option dict) (user_id : string) (customer : dict) : line :=
  match found with
  | Some _ =>
    CustomerUpdated user_id (get customer "totalReviews" VNone)
                    (get customer "violationCount" VNone)
  | None => CustomerCreated user_id (get customer "violationCount" VNone)
  end.

(** The record of a customer once the ban is applied (lines 199-206). *)
Definition banned_customer (customer : dict) (current_time : string) : dict :=
  assign [ ("isBanned", VBool true); ("banDate", VStr current_time) ] customer.

(** The lines printed between two states of a run. *)
Definition printed (st st' : state) : list line :=
  drop (length (output st)) (output st').

(** The lines that report a failure. *)
Definition is_error (l : line) : bool :=
  match l with
  | CustomerError _ _ | RecordError _ _ | SentimentFailed _ _ | HandlerError _ => true
  | _ => false
  end.

(** A run that printed no error line. *)
Definition succeeded (st st' : state) : Prop :=
  forallb (fun l => negb (is_error l)) (printed st st') = true.

(** A run in which the classifier flagged review [review_id]. *)
Definition flagged (review_id : string) (st st' : state) : Prop :=
  In (ProfanityChecked review_id true) (printed st st').

(** A step that neither writes nor prints. *)
Definition silent (st st' : state) : Prop :=
  stores st' = stores st /\ output st' = output st.

(** A step that does not read the clock. *)
Definition timeless (st st' : state) : Prop :=
  clock st' = clock st /\ reads st' = reads st.

(** [datetime.now().isoformat()] at the [n]-th reading of the clock from
    state [st] on (the first one is reading 0). *)
Definition now_at (st : state) (n : nat) : string :=
  now_iso (clock st (n + reads st)).

(** The names of the two parameters the profanity stage reads. *)
Definition threshold_parameter : string := "/app/config/profanity_threshold".
Definition customers_parameter : string := "/app/config/customers_table".

(** The assignments of the update of the review record (lines 82-94). *)
Definition review_update (has_profanity : bool) (lastUpdated : string) : list (string * value) :=
  [ ("profanityCheckStatus", VStr "completed");
  ("hasProfanity", VBool has_profanity);
  ("lastUpdated", VStr lastUpdated) ].

(** The stores after [update_item]: the item under [k] of table [name], or
    a new item holding the key, with [sets] applied. *)
Definition upsert (name key k : string) (sets : list (string * value)) (w : world) : world :=
  match tables w !! name with
  | Some t =>
    if String.eqb (key_name t) key
    then write_item name k (assign sets (default {[ key := VStr k ]} (items t !! k))) w
    else w
  | None => w
  end.

(** A result that is an exception. *)
Definition is_inl {A} (r : exn + A) : Prop := exists e, r = inl e.

(** The value the assignments [sets] give to attribute [a], if any. *)
Fixpoint assigned (a : string) (sets : list (string * value)) : option value :=
  match sets with
  | [] => None
  | (b, v) :: rest =>
    match assigned a rest with
    | Some v' => Some v'
    | None => if String.eqb a b then Some v else None
    end
  end.

(** An attribute of the record of customer [user_id] in table [name]. *)
Definition item_attribute (w : world) (name user_id attribute : string) : option value :=
  match tables w !! name with
  | Some t =>
    match items t !! user_id with
    | Some it => it !! attribute
    | None => None
    end
  | None => None
  end.

(** A counter once one more review is counted: 1 for a first review. *)
Definition counted (found : option dict) (counter : string) : exn + value :=
  match found with
  | Some it => add1 (get it counter (VInt 0))
  | None => inr (VInt 1)
  end.

(** The record under [k] of table [name] is banned, with this [banDate]. *)
Definition banned_record (w : world) (name k : string) (banDate : option value) : Prop :=
  exists t it, tables w !! name = Some t /\ items t !! k = Some it
             /\ it !! "isBanned" = Some (VBool true) /\ it !! "banDate" = banDate.

(** State [st] with the stores replaced by [w]. *)
Definition with_stores (w : world) (st : state) : state :=
  State (faults st) (clock st) (reads st) (output st) w.

(** Changing the stores by [h] before [m] runs or after it has run comes
    to the same: [m] returns the same result and leaves the same stores. *)
Definition commutes_with {A} (h : world -> world) (m : M A) : Prop :=
  forall st,
  m (with_stores (h (stores st)) st)
  = (fst (m st), with_stores (h (stores (snd (m st)))) (snd (m st))).

(** [h] keeps the parameters, the buckets and the key of every table. *)
Definition keeps_schema (h : world -> world) : Prop :=
  forall w,
  parameters (h w) = parameters w /\ buckets (h w) = buckets w
  /\ forall name, key_name <$> tables (h w) !! name = key_name <$> tables w !! name.

(** [h] keeps the item under [k] of table [name], when its key is [key]. *)
Definition keeps_item (h : world -> world) (name key k : string) : Prop :=
  forall w t,
  tables w !! name = Some t -> key_name t = key ->
  exists t', tables (h w) !! name = Some t' /\ items t' !! k = items t !! k.

(** [h] commutes with an update of the item under [k] of table [name]. *)
Definition commutes_with_upsert (h : world -> world) (name key k : string)
    (sets : list (string * value)) : Prop :=
  forall w, h (upsert name key k sets w) = upsert name key k sets (h w).

(** [h] commutes with writing item [it] to table [name]. *)
Definition commutes_with_write (h : world -> world) (name : string) (it : dict) : Prop :=
  forall w t k,
  tables w !! name = Some t -> it !! key_name t = Some (VStr k) ->
  h (write_item name k it w) = write_item name k it (h w).

(** A service call that reads the stores, and one that may replace them. *)
Definition reading {A} (f : world -> exn + A) : M A :=
  call ;;; w <- get_world ;; lift (f w).

Definition writing {A} (f : world -> exn + (A * world)) : M A :=
  call ;;;
  w <- get_world ;;
  match f w with
  | inl e => raise e
  | inr (a, w') => put_world w' ;;; ret a
  end.

(** What the service calls compute from the stores. *)
Definition look_parameter (name : string) (w : world) : exn + string :=
  match parameters w !! name with
  | Some v => inr v
  | None => inl (ClientError "ParameterNotFound")
  end.

Definition look_object (bucket key : string) (w : world) : exn + dict :=
  match buckets w !! bucket with
  | None => inl (ClientError "NoSuchBucket")
  | Some objects =>
    match objects !! key with
    | None => inl (ClientError "NoSuchKey")
    | Some body => inr body
    end
  end.

Definition look_table (name key : string) (w : world) : exn + table :=
  match tables w !! name with
  | None => inl (ClientError "ResourceNotFoundException")
  | Some t =>
    if String.eqb (key_name t) key then inr t
    else inl (ClientError "ValidationException")
  end.

Definition look_item (name key k : string) (w : world) : exn + option dict :=
  match look_table name key w with
  | inl e => inl e
  | inr t => inr (items t !! k)
  end.

Definition updated (name key k : string) (sets : list (string * value)) (w : world)
  : exn + (dict * world) :=
  match look_table name key w with
  | inl e => inl e
  | inr t =>
    let new := assign sets (default {[ key := VStr k ]} (items t !! k)) in
    inr (new, write_item name k new w)
  end.

Definition put (name : string) (it : dict) (w : world) : exn + (unit * world) :=
  match tables w !! name with
  | None => inl (ClientError "ResourceNotFoundException")
  | Some t =>
    match it !! key_name t with
    | Some (VStr k) => inr (tt, write_item name k it w)
    | _ => inl (ClientError "ValidationException")
    end
  end.

(** The effect of an update and of a write on the one table they touch. *)
Definition upsert_table (key k : string) (sets : list (string * value)) (t : table) : table :=
  if String.eqb (key_name t) key
  then Table (key_name t)
           (<[k := assign sets (default {[ key := VStr k ]} (items t !! k))]> (items t))
  else t.

Definition write_table (k : string) (it : dict) (t : table) : table :=
  Table (key_name t) (<[k := it]> (items t)).

(** No attribute is assigned by both lists. *)
Definition disjoint_sets (s1 s2 : list (string * value)) : bool :=
  forallb (fun a => negb (existsb (String.eqb a) (map fst s2))) (map fst s1).

(** The assignments of the update of the sentiment stage (lines 180-187). *)
Definition sentiment_update (sentiment : string) : list (string * value) :=
  [ ("sentiment", VStr sentiment); ("sentimentAnalysisStatus", VStr "processed") ].

(** The stores after [m] has run from state [env] with stores [w]. *)
Definition stores_after {A} (m : M A) (env : state) (w : world) : world :=
  stores (snd (m (with_stores w env))).

(** The stores have the parameters, the buckets and the table keys of [w]. *)
Definition same_schema (w w' : world) : Prop :=
  parameters w' = parameters w /\ buckets w' = buckets w
  /\ forall n, key_name <$> tables w' !! n = key_name <$> tables w !! n.

(** A notification the stream stages can take apart: not an insert, or an
    insert whose image names the review and the user. *)
Definition well_formed (record : stream_record) : Prop :=
  eventName record <> "INSERT"
  \/ exists img rid uid,
     NewImage record = Some img /\ image_S img "reviewId" = inr rid
     /\ image_S img "userId" = inr uid.

(** One of the next [n] service calls fails. *)
Definition fault_within (n : nat) (st : state) : Prop :=
  existsb id (take n (faults st)) = true.

(** [c] occurs in [s]. *)
Fixpoint has_char (c : ascii) (s : string) : bool :=
  match s with
  | EmptyString => false
  | String c' s' => Ascii.eqb c' c || has_char c s'
  end.

(** The line feed, which [.] of a regular expression does not match. *)
Definition newline : ascii := "010"%char.

(** The labels in their order: negative, neutral, positive. *)
Definition sentiment_rank (label : string) : Z :=
  if String.eqb label "positive" then 1
  else if String.eqb label "negative" then -1
  else 0.

(** The notifications of a batch that announce an insertion. *)
Definition is_insert (record : stream_record) : bool :=
  String.eqb (eventName record) "INSERT".

(** The rating of a notification (lines 169-173): 3 when the image has
    none, or one that [float] does not read. *)
Definition rating_of (float_of_string : string -> option Q) (img : image) : Q :=
  default 3%Q
    (float_of_string
       match img !! "overallRating" with
       | Some (AttrN n) => n
       | _ => "3"
       end).

(** From item [it] to [it'] no attribute outside [attrs] changed. *)
Definition item_changes_only (attrs : list string) (it it' : dict) : Prop :=
  forall a, ~ In a attrs -> it' !! a = it !! a.

(** From [w] to [w'] the parameters, the buckets and the names and keys of
    the tables stayed, no item was removed, and an item of table [name]
    that was there changed in the attributes [attrs name] at most. *)
Definition changes_only (attrs : string -> list string) (w w' : world) : Prop :=
  parameters w' = parameters w /\ buckets w' = buckets w
  /\ forall name,
       match tables w !! name with
       | None => tables w' !! name = None
       | Some t =>
         exists t', tables w' !! name = Some t' /\ key_name t' = key_name t
                    /\ forall k it, items t !! k = Some it ->
                         exists it', items t' !! k = Some it'
                                     /\ item_changes_only (attrs name) it it'
       end.

(** The attributes the sentiment stage assigns (lines 180-187). *)
Definition sentiment_attributes : list string :=
  [ "sentiment"; "sentimentAnalysisStatus" ].

(** The attributes the profanity stage assigns, to a review record (lines
    82-94) and to a customer record (lines 113-147 and 199-206). *)
Definition review_attributes : list string :=
  [ "profanityCheckStatus"; "hasProfanity"; "lastUpdated" ].

Definition customer_attributes : list string :=
  [ "lastUpdated"; "lastReviewDate"; "totalReviews"; "isBanned"; "createdDate";
  "firstReviewDate"; "violationCount"; "lastViolationDate"; "firstViolationDate";
  "banDate" ].

Definition profanity_attributes (name : string) : list string :=
  if String.eqb name "reviews" then review_attributes else customer_attributes.

(** The item under [k] of table [name] is there and satisfies [P]. *)
Definition record_satisfies (w : world) (name k : string) (P : dict -> Prop) : Prop :=
  exists t it, tables w !! name = Some t /\ items t !! k = Some it /\ P it.

(** The dates a customer record gets once (lines 128-132 and 141-142). *)
Definition first_dates : list string :=
  [ "createdDate"; "firstReviewDate"; "firstViolationDate" ].

(** A counter as a delivery that counts nothing new leaves it: its value,
    0 when the record has none yet or is new. *)
Definition uncounted (found : option dict) (counter : string) : value :=
  match found with
  | Some it => get it counter (VInt 0)
  | None => VInt 0
  end.

(** The customer was banned when the delivery found the record. *)
Definition already_banned (found : option dict) : bool :=
  match found with
  | Some it => truthy (get it "isBanned" (VBool false))
  | None => false
  end.

(** The record under [k] of table [name] says the customer is banned. *)
Definition is_banned (w : world) (name k : string) : bool :=
  match item_attribute w name k "isBanned" with
  | Some v => truthy v
  | None => false
  end.

(** The counters of a record that held [total] and [violations], once [j]
    more notifications have been looked at: integers still, none smaller,
    [totalReviews] grown by [j] at most and [violationCount] by no more
    than [totalReviews]. *)
Definition grown (total violations : Z) (j : nat) (it : dict) : Prop :=
  exists total' violations',
    it !! "totalReviews" = Some (VInt total')
    /\ it !! "violationCount" = Some (VInt violations')
    /\ total <= total' <= total + Z.of_nat j
    /\ violations <= violations'
    /\ violations' - violations <= total' - total.

(** The line that reports the failure of one record. *)
Definition is_record_error (l : line) : bool :=
  match l with
  | RecordError _ _ => true
  | _ => false
  end.

(** The stores after [body] is written under [key] of [bucket]. *)
Definition write_object (bucket key : string) (body : dict) (w : world) : world :=
  match buckets w !! bucket with
  | Some objects =>
    World (parameters w) (<[bucket := <[key := body]> objects]> (buckets w)) (tables w)
  | None => w
  end.

(** The object under [key] of [bucket]. *)
Definition object_at (w : world) (bucket key : string) : option dict :=
  match buckets w !! bucket with
  | Some objects => objects !! key
  | None => None
  end.

(** The text the identifier of a review is hashed from (line 185): its
    [unixReviewTime], or else the time [t] of the ingestion. *)
Definition hash_input_of (repr_other : value -> string) (asin reviewerID : value)
    (review : dict) (t : instant) : string :=
  Preprocess.format repr_other asin +:+ "_" +:+ Preprocess.format repr_other reviewerID
  +:+ "_" +:+ match review !! "unixReviewTime" with
              | Some v => Preprocess.format repr_other v
              | None => utcnow_timestamp t
              end.

(** The identifier derived from the bytes that were hashed (lines
    186-187). *)
Definition derived_id (repr_other : value -> string) (asin reviewerID : value)
    (encoded : string) : value :=
  VStr (Preprocess.format repr_other asin +:+ "_" +:+ Preprocess.format repr_other reviewerID
        +:+ "_" +:+ String.substring 0 8 (MD5.hexdigest encoded)).

(** The state once the clock has been read. *)
Definition after_reading (st : state) : state :=
  State (faults st) (clock st) (S (reads st)) (output st) (stores st).

(** The key of the processed object of a review (line 266). *)
Definition processed_key_of (repr_other : value -> string) (reviewerID review_id : value)
  : string :=
  "preprocessed/" +:+ Preprocess.format repr_other reviewerID +:+ "/"
  +:+ Preprocess.format repr_other review_id +:+ ".json".

(** [s] is made of white-space characters and nothing else. *)
Inductive blank : string -> Prop :=
| blank_empty : blank ""
| blank_space (w s : string) : In w whitespace -> blank s -> blank (w +:+ s).

(** A lower-case hexadecimal digit. *)
Definition is_hex (c : ascii) : bool :=
  let n := nat_of_ascii c in
  ((48 <=? n) && (n <=? 57) || (97 <=? n) && (n <=? 102))%nat.

(** Every character of [s] is a lower-case hexadecimal digit. *)
Fixpoint all_hex (s : string) : bool :=
  match s with
  | EmptyString => true
  | String c s' => is_hex c && all_hex s'
  end.

(** The item under [k] of table [name]. *)
Definition item_at (w : world) (name k : string) : option dict :=
  match tables w !! name with
  | Some t => items t !! k
  | None => None
  end.

(** The item of a review once both stream stages are done with it: what
    the tests wait for, with the verdict and the label. *)
Definition review_complete (hp : bool) (label : string) (it : dict) : Prop :=
  IntegrationTests.processing_complete it = true
  /\ it !! "hasProfanity" = Some (VBool hp) /\ it !! "sentiment" = Some (VStr label).

(** * Properties *)

(** ** The embedded library functions on known values *)

Example md5_empty : MD5.hexdigest "" = "d41d8cd98f00b204e9800998ecf8427e".
Proof. vm_compute. reflexivity. Qed.

Example md5_abc : MD5.hexdigest "abc" = "900150983cd24fb0d6963f7d28e17f72".
Proof. vm_compute. reflexivity. Qed.

Example md5_two_blocks :
  MD5.hexdigest "aaaaaaaaaaaaaaaaaaaaaaaaaaaaaaaaaaaaaaaaaaaaaaaaaaaaaaaaaaaaaaaaaaaaaa"
  = "0f5c6c4e740bfcc08c3c26ccb2673d46".
Proof. vm_compute. reflexivity. Qed.

Example strip_inner_space : strip "  a b  " = "a b".
Proof. reflexivity. Qed.

Example int_of_string_signed : int_of_string " -1_000 " = inr (-1000).
Proof. reflexivity. Qed.

Example int_of_string_rejects : is_inl (int_of_string "4_").
Proof. eexists. reflexivity. Qed.

(** [int] skips a no-break space, not a file separator (U+001C). *)
Example int_of_string_space :
  int_of_string (of_bytes [0xc2; 0xa0; 0x34; 0x20]) = inr 4
  /\ is_inl (int_of_string (of_bytes [0x1c; 0x34])).
Proof. split; [reflexivity|eexists; reflexivity]. Qed.

Example string_of_int_round_trip :
  string_of_int 1748772010 = "1748772010" /\ string_of_int 0 = "0"
  /\ string_of_int (-15) = "-15".
Proof. repeat split; vm_compute; reflexivity. Qed.

Example remove_all_occurrences :
  remove_all 21 "s3://" "s3://bucket/s3://k/x" = "bucket/k/x".
Proof. reflexivity. Qed.

Example parse_s3_uri_first_slash :
  Sentiment.parse_s3_uri "s3://processed/preprocessed/u1/r1.json"
  = inr ("processed", "preprocessed/u1/r1.json").
Proof. reflexivity. Qed.

Example word_count_runs : Preprocess.word_count false " product  really amazing " = 3.
Proof. reflexivity. Qed.

(** A no-break space (U+00A0) and an em space (U+2003) are white space; the
    bytes of a character that is not are left alone. *)
Example strip_unicode_space :
  strip (of_bytes [0xc2; 0xa0; 0x61; 0xc3; 0xa0; 0xe2; 0x80; 0x83]) = of_bytes [0x61; 0xc3; 0xa0]
  /\ Preprocess.word_count false (of_bytes [0x61; 0xe2; 0x80; 0x83; 0x62]) = 2.
Proof. split; reflexivity. Qed.

Example chars_of_text :
  chars (of_bytes [0x61; 0xc3; 0xa0; 0x62]) = [ "a"; of_bytes [0xc3; 0xa0]; "b" ].
Proof. reflexivity. Qed.

(** U+D800 is a surrogate. *)
Example encode_rejects_surrogate :
  encode (of_bytes [0x61; 0xed; 0xa0; 0x80]) = inl UnicodeEncodeError
  /\ encode (of_bytes [0x61; 0xed; 0x9f; 0xbf]) = inr (of_bytes [0x61; 0xed; 0x9f; 0xbf]).
Proof. split; reflexivity. Qed.

(** [Decimal] sums of more than 28 digits are rounded, ties to even. *)
Example add1_rounds :
  add1 (VInt (10 ^ 28 + 1)) = inr (VInt (10 ^ 28))
  /\ add1 (VInt (10 ^ 28 + 4)) = inr (VInt (10 ^ 28))
  /\ add1 (VInt (10 ^ 28 + 14)) = inr (VInt (10 ^ 28 + 20))
  /\ add1 (VInt (- (10 ^ 28 + 9))) = inr (VInt (- (10 ^ 28 + 10)))
  /\ add1 (VReal (1 # 2)) = inr (VReal (3 # 2))
  /\ add1 (VReal (1 # 1000000000000000000000000000000)) = inr (VInt 1)
  /\ add1 (VInt 41) = inr (VInt 42).
Proof. repeat split; vm_compute; reflexivity. Qed.

(** ** How the primitives act on the stores *)

Section Frames.

Context {A B : Type}.

Lemma read_only_ret (a : A) : read_only (ret a).
Proof. intros st. reflexivity. Qed.

Lemma read_only_raise (e : exn) : read_only (@raise A e).
Proof. intros st. reflexivity. Qed.

Lemma read_only_lift (r : exn + A) : read_only (lift r).
Proof. destruct r; intros st; reflexivity. Qed.

Lemma read_only_bind (m : M A) (k : A -> M B) :
  read_only m -> (forall a, read_only (k a)) -> read_only (bind m k).
Proof.
  intros Hm Hk st. unfold bind. specialize (Hm st).
  destruct (m st) as [[e|a] st1]; simpl in *; [assumption| ].
  rewrite Hk. assumption.
Qed.

Lemma read_only_try_except (m : M A) (h : exn -> M A) :
  read_only m -> (forall e, read_only (h e)) -> read_only (try_except m h).
Proof.
  intros Hm Hh st. unfold try_except. specialize (Hm st).
  destruct (m st) as [[e|a] st1]; simpl in *; [ |assumption].
  rewrite Hh. assumption.
Qed.

End Frames.

Lemma bind_inl {A B} (m : M A) (k : A -> M B) (st st' : state) (e : exn) :
  m st = (inl e, st') -> bind m k st = (inl e, st').
Proof. intros H. unfold bind. rewrite H. reflexivity. Qed.

Lemma bind_inr {A B} (m : M A) (k : A -> M B) (st st' : state) (a : A) :
  m st = (inr a, st') -> bind m k st = k a st'.
Proof. intros H. unfold bind. rewrite H. reflexivity. Qed.

(** Runs the first computation of the [bind] at the head of the goal. *)
Ltac bind_step_as E a st' :=
  match goal with
  | |- context [bind ?m ?k ?st] =>
      let e := fresh "e" in
      destruct (m st) as [[e|a] st'] eqn:E;
      [ rewrite (bind_inl m k st st' e E)
      | rewrite (bind_inr m k st st' a E) ]
  end.

Tactic Notation "bind_step" ident(E) "as" ident(a) ident(st) := bind_step_as E a st.

Lemma read_only_call : read_only call.
Proof. intros st. unfold call. destruct (faults st) as [ |[] ?]; reflexivity. Qed.

Lemma read_only_print (l : line) : read_only (print l).
Proof. intros st. reflexivity. Qed.

Lemma read_only_read_clock : read_only read_clock.
Proof. intros st. reflexivity. Qed.

Lemma read_only_get_world : read_only get_world.
Proof. intros st. reflexivity. Qed.

Create HintDb frames.

#[local] Hint Resolve read_only_ret read_only_raise read_only_lift read_only_call
  read_only_print read_only_read_clock read_only_get_world : frames.

Ltac read_only_tac :=
  repeat first
    [ apply read_only_bind; [ |intros ?]
    | apply read_only_try_except; [ |intros ?]
    | solve [auto with frames]
    | match goal with
      | |- read_only (match ?x with _ => _ end) => destruct x
      | |- read_only (if ?x then _ else _) => destruct x
      end ].

Lemma read_only_ssm_get_parameter (name : string) : read_only (ssm_get_parameter name).
Proof. unfold ssm_get_parameter. read_only_tac. Qed.

Lemma read_only_s3_get_object (bucket key : string) : read_only (s3_get_object bucket key).
Proof. unfold s3_get_object. read_only_tac. Qed.

Lemma read_only_table_keyed (name key : string) : read_only (table_keyed name key).
Proof. unfold table_keyed. read_only_tac. Qed.

Lemma read_only_get_item (name key k : string) : read_only (get_item name key k).
Proof. unfold get_item. read_only_tac. Qed.

#[local] Hint Resolve read_only_ssm_get_parameter read_only_s3_get_object
  read_only_table_keyed read_only_get_item : frames.

(** What a successful read returns. *)
Lemma ssm_get_parameter_inr (name : string) (st : state) (v : string) :
  fst (ssm_get_parameter name st) = inr v -> parameters (stores st) !! name = Some v.
Proof.
  unfold ssm_get_parameter, bind, call, get_world.
  destruct (faults st) as [ |[] ?]; simpl;
    try destruct (parameters (stores st) !! name); simpl; congruence.
Qed.

Lemma s3_get_object_inr (bucket key : string) (st : state) (body : dict) :
  fst (s3_get_object bucket key st) = inr body ->
  exists objects, buckets (stores st) !! bucket = Some objects /\ objects !! key = Some body.
Proof.
  unfold s3_get_object, bind, call, get_world.
  destruct (faults st) as [ |[] ?]; simpl; try discriminate.
  all: destruct (buckets (stores st) !! bucket) as [objects| ]; simpl; try discriminate.
  all: destruct (objects !! key) eqn:E; simpl; try discriminate.
  all: intros [= <-]; eauto.
Qed.


Section SentimentProperties.

Variable polarity_compound : string -> exn + Q.

Import SentimentPolicy.

Lemma Qle_bool_false (x y : Q) : Qle_bool x y = false <-> (y < x)%Q.
Proof.
  split; intros H.
  - apply Qnot_le_lt. intros Hle. apply Qle_bool_iff in Hle. congruence.
  - destruct (Qle_bool x y) eqn:E; [ |reflexivity].
    apply Qle_bool_iff in E. lra.
Qed.

Lemma implied_positive_iff (rating : Q) :
  implied rating (Some "positive") <-> (4 <= rating)%Q.
Proof.
  split; [ |apply implied_positive].
  inversion 1; assumption.
Qed.

Lemma implied_negative_iff (rating : Q) :
  implied rating (Some "negative") <-> (rating <= 2)%Q.
Proof.
  split; [ |apply implied_negative].
  inversion 1; assumption.
Qed.

Lemma classifies_functional (compound rating : Q) (l l' : string) :
  classifies compound rating l -> classifies compound rating l' -> l = l'.
Proof. destruct 1; destruct 1; solve [reflexivity | contradiction]. Qed.

Lemma analyze_sentiment_classifies (summary review_text : string) (overall compound : Q) :
  polarity_compound (strip summary +:+ " " +:+ strip review_text) = inr compound ->
  exists l, Sentiment.analyze_sentiment polarity_compound summary review_text overall = inr l
            /\ classifies compound overall l.
Proof.
  intros Hscore. unfold Sentiment.analyze_sentiment. rewrite Hscore.
  destruct (Qle_bool 4 overall) eqn:H4;
    [apply Qle_bool_iff in H4 | apply Qle_bool_false in H4].
  all: destruct (Qle_bool overall 2) eqn:H2;
    [apply Qle_bool_iff in H2 | apply Qle_bool_false in H2].
  all: destruct (Qle_bool (1 # 2) compound) eqn:Hhi;
    [apply Qle_bool_iff in Hhi | apply Qle_bool_false in Hhi].
  all: destruct (Qle_bool compound 0) eqn:H0;
    [apply Qle_bool_iff in H0 | apply Qle_bool_false in H0].
  all: destruct (Qle_bool compound (- (1 # 2))) eqn:Hlo;
    [apply Qle_bool_iff in Hlo | apply Qle_bool_false in Hlo].
  all: destruct (Qle_bool 0 compound) eqn:H0';
    [apply Qle_bool_iff in H0' | apply Qle_bool_false in H0'].
  all: try lra.
  all: cbn; eexists; split; [reflexivity|].
  all: unfold rule_positive, rule_negative;
    first
      [ apply first_positive; unfold rule_positive;
        rewrite implied_positive_iff; lra
      | apply then_negative; unfold rule_positive, rule_negative;
        rewrite ?implied_positive_iff, ?implied_negative_iff; lra
      | apply otherwise_neutral; unfold rule_positive, rule_negative;
        rewrite ?implied_positive_iff, ?implied_negative_iff; lra ].
Qed.

End SentimentProperties.

(** Without faults a read returns what the stores hold. *)
Lemma ssm_get_parameter_ok (name : string) (st : state) (v : string) :
  faults st = [] -> parameters (stores st) !! name = Some v ->
  ssm_get_parameter name st = (inr v, st).
Proof.
  intros Hf Hv. unfold ssm_get_parameter, bind, call, get_world.
  rewrite Hf. simpl. rewrite Hv. reflexivity.
Qed.

Lemma s3_get_object_ok (bucket key : string) (st : state) (objects : gmap string dict)
    (body : dict) :
  faults st = [] -> buckets (stores st) !! bucket = Some objects ->
  objects !! key = Some body ->
  s3_get_object bucket key st = (inr body, st).
Proof.
  intros Hf Hb Hk. unfold s3_get_object, bind, call, get_world.
  rewrite Hf. simpl. rewrite Hb, Hk. reflexivity.
Qed.

(** ** Validation in the preprocess stage *)

Section PreprocessProperties.

Variable canonicalize : string -> exn + string.
Variable to_float : value -> exn + Q.
Variable to_decimal : value -> exn + value.
Variable utcfromtimestamp_iso : value -> exn + string.
Variable strptime_iso : value -> option string.
Variable repr_other : value -> string.

Let handler :=
  Preprocess.lambda_handler canonicalize to_float to_decimal utcfromtimestamp_iso
    strptime_iso repr_other.
Let ingest :=
  Preprocess.ingest canonicalize to_float to_decimal utcfromtimestamp_iso
    strptime_iso repr_other.

Lemma validate_first_missing (fields : list string) (review : dict) (field : string) :
  List.find (fun f => negb (contains review f)) fields = Some field ->
  Preprocess.validate fields review
  = inl (ValueError ("Missing required field: " +:+ field)).
Proof.
  induction fields as [ |f fields IH]; simpl; [discriminate| ].
  destruct (negb (contains review f)); [intros [= ->]; reflexivity|exact IH].
Qed.

Lemma read_only_get_ssm_param (name : string) : read_only (Preprocess.get_ssm_param name).
Proof. unfold Preprocess.get_ssm_param. read_only_tac. Qed.

(** With a required field missing, [ingest] raises before it writes. *)
Lemma ingest_invalid (st : state) (bucket key : string) (rest : list (string * string))
    (objects : gmap string dict) (review : dict) (field : string) :
  buckets (stores st) !! bucket = Some objects ->
  objects !! key = Some review ->
  first_missing review = Some field ->
  stores (snd (ingest ((bucket, key) :: rest) st)) = stores st
  /\ exists e, fst (ingest ((bucket, key) :: rest) st) = inl e.
Proof.
  intros Hb Hk Hmiss. unfold ingest, Preprocess.ingest.
  bind_step E1 as raw st1;
    apply (f_equal snd), (f_equal stores) in E1;
    rewrite read_only_get_ssm_param in E1; simpl in E1; [simpl; eauto| ].
  bind_step E2 as processed st2;
    apply (f_equal snd), (f_equal stores) in E2;
    rewrite read_only_get_ssm_param in E2; simpl in E2;
    [simpl; split; [congruence|eauto]| ].
  bind_step E3 as table st3;
    apply (f_equal snd), (f_equal stores) in E3;
    rewrite read_only_get_ssm_param in E3; simpl in E3;
    [simpl; split; [congruence|eauto]| ].
  bind_step E4 as u st4. { discriminate E4. }
  injection E4 as _ <-.
  bind_step E5 as body st5.
  - apply (f_equal snd), (f_equal stores) in E5.
    rewrite read_only_s3_get_object in E5. simpl in E5. simpl.
    split; [congruence|eauto].
  - pose proof (s3_get_object_inr bucket key _ body (f_equal fst E5)) as (objects' & Hb' & Hk').
    apply (f_equal snd), (f_equal stores) in E5.
    rewrite read_only_s3_get_object in E5. simpl in E5, Hb'.
    assert (body = review) as -> by congruence.
    bind_step E6 as u' st6.
    + pose proof (read_only_lift (Preprocess.validate Preprocess.required_fields review) st5) as E7.
      rewrite E6 in E7. simpl in E7. split; [simpl; congruence|eauto].
    + rewrite (validate_first_missing _ _ _ Hmiss) in E6. discriminate E6.
Qed.

(** C5. An ingest payload that lacks one of the required fields
    ([reviewerID], [asin], [reviewText], [overall]) is rejected: the handler
    answers with a failure response, it writes neither the blob store nor
    the record store, and when the configuration and the payload can be
    read the error names the first missing field. *)
Theorem missing_field_rejected (st : state) (bucket key : string)
    (rest : list (string * string)) (objects : gmap string dict) (review : dict)
    (field : string) :
  buckets (stores st) !! bucket = Some objects ->
  objects !! key = Some review ->
  first_missing review = Some field ->
  stores (snd (handler ((bucket, key) :: rest) st)) = stores st
  /\ (exists error, fst (handler ((bucket, key) :: rest) st) = inr (Preprocess.Response500 error))
  /\ (faults st = [] ->
      is_Some (parameters (stores st) !! "/app/config/raw_bucket") ->
      is_Some (parameters (stores st) !! "/app/config/processed_bucket") ->
      is_Some (parameters (stores st) !! "/app/config/reviews_table") ->
      fst (handler ((bucket, key) :: rest) st)
      = inr (Preprocess.Response500 ("Missing required field: " +:+ field))).
Proof.
  intros Hb Hk Hmiss.
  destruct (ingest_invalid st bucket key rest objects review field Hb Hk Hmiss)
    as (Hstores & e & He).
  unfold handler, Preprocess.lambda_handler, try_except. fold ingest.
  destruct (ingest ((bucket, key) :: rest) st) as [[e'|r] st1] eqn:E;
    simpl in He, Hstores; [ |discriminate].
  split; [exact Hstores| ]. split; [eauto| ].
  intros Hf [raw Hraw] [processed Hprocessed] [table Htable].
  simpl. do 2 f_equal.
  assert (forall name v, parameters (stores st) !! name = Some v ->
                         Preprocess.get_ssm_param name st = (inr v, st)) as Hssm.
  { intros name v Hv. unfold Preprocess.get_ssm_param, try_except.
    rewrite (ssm_get_parameter_ok name st v Hf Hv). reflexivity. }
  revert E. unfold ingest, Preprocess.ingest.
  rewrite (bind_inr _ _ _ _ _ (Hssm _ _ Hraw)).
  rewrite (bind_inr _ _ _ _ _ (Hssm _ _ Hprocessed)).
  rewrite (bind_inr _ _ _ _ _ (Hssm _ _ Htable)).
  rewrite (bind_inr (print (Processing bucket key)) _ st _ tt eq_refl).
  set (st' := State _ _ _ _ _).
  rewrite (bind_inr _ _ _ _ _ (s3_get_object_ok bucket key st' objects review Hf Hb Hk)).
  erewrite bind_inl
    by (rewrite (validate_first_missing _ _ _ Hmiss); reflexivity).
  intros [= <- _]. reflexivity.
Qed.

End PreprocessProperties.

Lemma call_silent (st : state) : silent st (snd (call st)).
Proof. unfold call. destruct (faults st) as [ |[] ?]; split; reflexivity. Qed.

Lemma ssm_get_parameter_cases (name : string) (st : state) :
  silent st (snd (ssm_get_parameter name st)).
Proof.
  unfold ssm_get_parameter, bind, get_world.
  pose proof (call_silent st) as [Hs Ho].
  destruct (call st) as [[e|[]] st1]; simpl in *; [split; assumption| ].
  destruct (parameters (stores st1) !! name); simpl; split; assumption.
Qed.

Lemma s3_get_object_silent (bucket key : string) (st : state) :
  silent st (snd (s3_get_object bucket key st)).
Proof.
  unfold s3_get_object, bind, get_world.
  pose proof (call_silent st) as [Hs Ho].
  destruct (call st) as [[e|[]] st1]; simpl in *; [split; assumption| ].
  destruct (buckets (stores st1) !! bucket) as [objects| ]; simpl; [ |split; assumption].
  destruct (objects !! key); simpl; split; assumption.
Qed.

Lemma get_item_cases (name key k : string) (st : state) :
  silent st (snd (get_item name key k st))
  /\ forall found, fst (get_item name key k st) = inr found ->
       exists t, tables (stores st) !! name = Some t /\ key_name t = key
                 /\ found = items t !! k.
Proof.
  unfold get_item, table_keyed, get_world, bind.
  pose proof (call_silent st) as [Hs Ho].
  destruct (call st) as [[e|[]] st1]; simpl in *; [split; [split; assumption|discriminate]| ].
  rewrite Hs.
  destruct (tables (stores st) !! name) as [t| ]; simpl;
    [ |split; [split; assumption|discriminate]].
  destruct (String.eqb_spec (key_name t) key); simpl;
    (split; [split; assumption| ]); [ |discriminate].
  intros found [= <-]. eauto.
Qed.

Lemma update_item_cases (name key k : string) (sets : list (string * value)) (st : state) :
  output (snd (update_item name key k sets st)) = output st
  /\ match fst (update_item name key k sets st) with
     | inl _ => stores (snd (update_item name key k sets st)) = stores st
     | inr new =>
         exists t, tables (stores st) !! name = Some t /\ key_name t = key
                   /\ new = assign sets (default {[ key := VStr k ]} (items t !! k))
                   /\ stores (snd (update_item name key k sets st))
                      = write_item name k new (stores st)
     end.
Proof.
  unfold update_item, table_keyed, store_item, get_world, put_world, write_item, bind.
  pose proof (call_silent st) as [Hs Ho].
  destruct (call st) as [[e|[]] st1]; simpl in *; [split; assumption| ].
  rewrite Hs.
  destruct (tables (stores st) !! name) as [t| ] eqn:Ht; simpl; [ |split; assumption].
  destruct (String.eqb_spec (key_name t) key); simpl; [ |split; assumption].
  split; [assumption| ]. exists t. rewrite Hs. auto.
Qed.

Lemma put_item_cases (name : string) (it : dict) (st : state) :
  output (snd (put_item name it st)) = output st
  /\ match fst (put_item name it st) with
     | inl _ => stores (snd (put_item name it st)) = stores st
     | inr _ =>
         exists t k, tables (stores st) !! name = Some t
                     /\ it !! key_name t = Some (VStr k)
                     /\ stores (snd (put_item name it st)) = write_item name k it (stores st)
     end.
Proof.
  unfold put_item, store_item, get_world, put_world, write_item, bind.
  pose proof (call_silent st) as [Hs Ho].
  destruct (call st) as [[e|[]] st1]; simpl in *; [split; assumption| ].
  rewrite Hs.
  destruct (tables (stores st) !! name) as [t| ] eqn:Ht; simpl; [ |split; assumption].
  destruct (it !! key_name t) as [[ | | | |k| ]| ] eqn:Hk; simpl; try (split; assumption).
  split; [assumption| ]. exists t, k. rewrite Hs. auto.
Qed.

Lemma call_timeless (st : state) : timeless st (snd (call st)).
Proof. unfold call. destruct (faults st) as [ |[] ?]; split; reflexivity. Qed.

Lemma ssm_get_parameter_timeless (name : string) (st : state) :
  timeless st (snd (ssm_get_parameter name st)).
Proof.
  unfold ssm_get_parameter, bind, get_world.
  pose proof (call_timeless st) as [Hc Hr].
  destruct (call st) as [[e|[]] st1]; simpl in *; [split; assumption| ].
  destruct (parameters (stores st1) !! name); simpl; split; assumption.
Qed.

Lemma s3_get_object_timeless (bucket key : string) (st : state) :
  timeless st (snd (s3_get_object bucket key st)).
Proof.
  unfold s3_get_object, bind, get_world.
  pose proof (call_timeless st) as [Hc Hr].
  destruct (call st) as [[e|[]] st1]; simpl in *; [split; assumption| ].
  destruct (buckets (stores st1) !! bucket) as [objects| ]; simpl; [ |split; assumption].
  destruct (objects !! key); simpl; split; assumption.
Qed.

Lemma update_item_timeless (name key k : string) (sets : list (string * value))
    (st : state) :
  timeless st (snd (update_item name key k sets st)).
Proof.
  unfold update_item, table_keyed, store_item, get_world, put_world, bind.
  pose proof (call_timeless st) as [Hc Hr].
  destruct (call st) as [[e|[]] st1]; simpl in *; [split; assumption| ].
  destruct (tables (stores st1) !! name) as [t| ]; simpl; [ |split; assumption].
  destruct (String.eqb (key_name t) key); simpl; split; assumption.
Qed.

(** Below the limit of the context, [v + 1] is exact. *)
Lemma fix_int_exact (z : Z) : Z.abs z < coefficient_limit -> fix_int z = z.
Proof.
  intros H. unfold fix_int. destruct (Z.ltb_spec (Z.abs z) coefficient_limit); [reflexivity|lia].
Qed.

Lemma add1_exact (z : Z) :
  Z.abs (z + 1) < coefficient_limit -> add1 (VInt z) = inr (VInt (z + 1)).
Proof. intros H. simpl. rewrite (fix_int_exact _ H). reflexivity. Qed.

(** ** The profanity stage, one record at a time *)

Section ProfanitySteps.

Variable is_profane : value -> exn + bool.

Lemma track_customer_cases (ct uid : string) (hp : bool) (now : string) (st : state) :
  match Profanity.track_customer ct uid hp now st with
  | (inl _, _) => False
  | (inr None, st') =>
      stores st' = stores st /\ exists e, output st' = output st ++ [CustomerError uid e]
  | (inr (Some fresh), st') =>
      exists t, tables (stores st) !! ct = Some t /\ key_name t = "userId"
                /\ fresh_customer (items t !! uid) uid hp now = inr fresh
                /\ stores st' = write_item ct uid fresh (stores st)
                /\ output st' = output st ++ [customer_line (items t !! uid) uid fresh]
  end.
Proof.
  unfold Profanity.track_customer, try_except.
  pose proof (get_item_cases ct "userId" uid st) as [[Hs Ho] Hfound].
  unfold bind at 1.
  destruct (get_item ct "userId" uid st) as [[e|found] st1]; simpl in Hs, Ho, Hfound.
  { simpl. rewrite Hs, Ho. eauto. }
  destruct (Hfound found eq_refl) as (t & Ht & Hkey & ->).
  destruct (items t !! uid) as [it| ] eqn:Hit.
  - unfold bind at 1.
    destruct (Profanity.update_expression it hp now) as [e|sets] eqn:Hsets; simpl.
    { rewrite Hs, Ho. eauto. }
    pose proof (update_item_cases ct "userId" uid sets st1) as [Ho' Hup].
    unfold bind at 1.
    destruct (update_item ct "userId" uid sets st1) as [[e|new] st2]; simpl in Ho', Hup.
    { simpl. rewrite Hup, Hs, Ho', Ho. eauto. }
    destruct Hup as (t' & Ht' & _ & -> & Hst).
    rewrite Hs in Ht', Hst. simpl.
    assert (t' = t) as -> by congruence. rewrite Hit. simpl.
    exists t. unfold fresh_customer. rewrite Hit, Hsets. simpl.
    rewrite Hit in Hst. simpl in Hst. rewrite Ho', Ho. auto.
  - pose proof (put_item_cases ct (Profanity.new_customer_item uid hp now) st1) as [Ho' Hput].
    unfold bind at 1.
    destruct (put_item ct (Profanity.new_customer_item uid hp now) st1) as [[e|[]] st2];
      simpl in Ho', Hput.
    { simpl. rewrite Hput, Hs, Ho', Ho. eauto. }
    destruct Hput as (t' & k & Ht' & Hk & Hst).
    rewrite Hs in Ht', Hst. assert (t' = t) as -> by congruence.
    rewrite Hkey in Hk.
    assert (k = uid) as ->.
    { revert Hk. unfold Profanity.new_customer_item. destruct hp; vm_compute; congruence. }
    simpl. exists t. rewrite Hit. simpl. rewrite Ho', Ho. auto.
Qed.

Lemma ssm_get_parameter_inr' (name : string) (st : state) (v : string) (st' : state) :
  ssm_get_parameter name st = (inr v, st') -> parameters (stores st) !! name = Some v.
Proof. intros H. apply ssm_get_parameter_inr. rewrite H. reflexivity. Qed.

Lemma lift_run {A} (r : exn + A) (st : state) : lift r st = (r, st).
Proof. destruct r; reflexivity. Qed.

Lemma apply_ban_cases (ct uid : string) (customer : dict) (now : string) (st : state) :
  let vc := get customer "violationCount" (VInt 0) in
  let banned := truthy (get customer "isBanned" (VBool false)) in
  match Profanity.apply_ban ct uid customer now st with
  | (inl _, st') => stores st' = stores st /\ output st' = output st
  | (inr _, st') =>
      (stores st' = stores st /\ output st' = output st
       /\ (gt_int vc 0 = inr false \/ banned = true
           \/ exists text thr,
                parameters (stores st) !! threshold_parameter = Some text
                /\ int_of_string text = inr thr /\ ge_int vc thr = inr false))
      \/ (gt_int vc 0 = inr true /\ banned = false
          /\ (exists text thr,
                parameters (stores st) !! threshold_parameter = Some text
                /\ int_of_string text = inr thr /\ ge_int vc thr = inr true)
          /\ exists t, tables (stores st) !! ct = Some t /\ key_name t = "userId"
               /\ stores st'
                  = write_item ct uid
                      (banned_customer (default {[ "userId" := VStr uid ]} (items t !! uid)) now)
                      (stores st)
               /\ output st' = output st ++ [CustomerBanned uid vc])
  end.
Proof.
  intros vc banned. unfold Profanity.apply_ban. fold vc. fold banned.
  unfold bind at 1. rewrite lift_run.
  destruct (gt_int vc 0) as [e|positive] eqn:Hpos; [split; reflexivity| ].
  destruct positive; simpl; [ |left; auto].
  destruct banned eqn:Hbanned; simpl; [left; auto| ].
  pose proof (ssm_get_parameter_cases threshold_parameter st) as [Hs Ho].
  pose proof (ssm_get_parameter_inr' threshold_parameter st) as Hparam.
  unfold bind at 1. fold threshold_parameter.
  destruct (ssm_get_parameter threshold_parameter st) as [[e|text] st1];
    simpl in Hs, Ho; [split; assumption| ].
  specialize (Hparam text st1 eq_refl).
  unfold bind at 1. rewrite lift_run.
  destruct (int_of_string text) as [e|thr] eqn:Hthr; [split; assumption| ].
  unfold bind at 1. rewrite lift_run.
  destruct (ge_int vc thr) as [e|reached] eqn:Hge; [split; assumption| ].
  destruct reached; [ |left; eauto 10].
  pose proof (update_item_cases ct "userId" uid
                [("isBanned", VBool true); ("banDate", VStr now)] st1) as [Ho' Hup].
  unfold bind at 1.
  destruct (update_item ct "userId" uid _ st1) as [[e|new] st2]; simpl in Ho', Hup.
  { split; congruence. }
  destruct Hup as (t & Ht & Hkey & -> & Hst). rewrite Hs in Ht, Hst.
  right. simpl. rewrite Ho', Ho. eauto 12.
Qed.


Lemma parameters_write_item (name k : string) (it : dict) (w : world) :
  parameters (write_item name k it w) = parameters w.
Proof. unfold write_item. destruct (tables w !! name); reflexivity. Qed.

Lemma tables_write_item (name k : string) (it : dict) (w : world) (t : table) :
  tables w !! name = Some t ->
  tables (write_item name k it w) !! name
  = Some (Table (key_name t) (<[k := it]> (items t))).
Proof. intros Ht. unfold write_item. rewrite Ht. simpl. apply lookup_insert_eq. Qed.

Lemma tables_write_item_ne (name name' k : string) (it : dict) (w : world) :
  name <> name' ->
  tables (write_item name k it w) !! name' = tables w !! name'.
Proof.
  intros Hne. unfold write_item. destruct (tables w !! name); [ |reflexivity].
  simpl. apply lookup_insert_ne, Hne.
Qed.

Lemma review_texts_silent (img : image) (st : state) :
  silent st (snd (Profanity.review_texts img st)).
Proof.
  unfold Profanity.review_texts.
  destruct (img !! "originalReviewText").
  - unfold bind. rewrite lift_run.
    destruct (image_S img "originalReviewText"); [split; reflexivity| ].
    rewrite lift_run. destruct (image_S img "originalSummary"); split; reflexivity.
  - unfold bind at 1. rewrite lift_run.
    destruct (image_S img "originalTextLocation") as [e|location]; [split; reflexivity| ].
    destruct (split_once _ _) as [[bucket key]| ]; [ |split; reflexivity].
    pose proof (s3_get_object_silent bucket key st) as H.
    unfold bind. destruct (s3_get_object bucket key st) as [[e|data] st1]; exact H.
Qed.

Lemma review_texts_timeless (img : image) (st : state) :
  timeless st (snd (Profanity.review_texts img st)).
Proof.
  unfold Profanity.review_texts.
  destruct (img !! "originalReviewText").
  - unfold bind. rewrite lift_run.
    destruct (image_S img "originalReviewText"); [split; reflexivity| ].
    rewrite lift_run. destruct (image_S img "originalSummary"); split; reflexivity.
  - unfold bind at 1. rewrite lift_run.
    destruct (image_S img "originalTextLocation") as [e|location]; [split; reflexivity| ].
    destruct (split_once _ _) as [[bucket key]| ]; [ |split; reflexivity].
    pose proof (s3_get_object_timeless bucket key st) as H.
    unfold bind. destruct (s3_get_object bucket key st) as [[e|data] st1]; exact H.
Qed.

Lemma check_review_cases (img : image) (rid uid : string) (st : state) :
  let '(r, st') := Profanity.check_review is_profane img rid uid st in
  (stores st' = stores st /\ output st' = output st /\ is_inl r)
  \/ exists hp,
       (stores st' = stores st /\ output st' = output st ++ [ProfanityChecked rid hp]
        /\ is_inl r)
       \/ exists lastUpdated tr,
            lastUpdated = now_at st 0
            /\ tables (stores st) !! "reviews" = Some tr /\ key_name tr = "reviewId"
            /\ let w1 := upsert "reviews" "reviewId" rid (review_update hp lastUpdated) (stores st) in
               (stores st' = w1 /\ output st' = output st ++ [ProfanityChecked rid hp]
                /\ is_inl r)
               \/ exists ct now,
                    now = now_at st 1
                    /\ parameters (stores st) !! customers_parameter = Some ct
                    /\ ((stores st' = w1
                         /\ (exists e, output st' = output st ++ [ProfanityChecked rid hp; CustomerError uid e])
                         /\ r = inr tt)
                        \/ exists t fresh,
                             tables w1 !! ct = Some t /\ key_name t = "userId"
                             /\ fresh_customer (items t !! uid) uid hp now = inr fresh
                             /\ let w2 := write_item ct uid fresh w1 in
                                let vc := get fresh "violationCount" (VInt 0) in
                                let banned := truthy (get fresh "isBanned" (VBool false)) in
                                let lines := [ProfanityChecked rid hp; customer_line (items t !! uid) uid fresh] in
                                (stores st' = w2 /\ output st' = output st ++ lines
                                 /\ (is_inl r
                                     \/ (r = inr tt
                                         /\ (gt_int vc 0 = inr false \/ banned = true
                                             \/ exists text thr,
                                                  parameters (stores st) !! threshold_parameter = Some text
                                                  /\ int_of_string text = inr thr
                                                  /\ ge_int vc thr = inr false))))
                                \/ (stores st' = write_item ct uid (banned_customer fresh now) w2
                                    /\ output st' = output st ++ lines ++ [CustomerBanned uid vc]
                                    /\ r = inr tt
                                    /\ gt_int vc 0 = inr true /\ banned = false
                                    /\ exists text thr,
                                         parameters (stores st) !! threshold_parameter = Some text
                                         /\ int_of_string text = inr thr
                                         /\ ge_int vc thr = inr true)).
Proof.
  unfold Profanity.check_review.
  pose proof (review_texts_silent img st) as [Hs0 Ho0].
  pose proof (review_texts_timeless img st) as [Hc0 Hr0].
  bind_step E0 as texts st0; simpl in Hs0, Ho0, Hc0, Hr0.
  { left. unfold is_inl. eauto. }
  clear E0.
  bind_step E0 as hp st0'; rewrite lift_run in E0; injection E0 as E0 <-.
  { left. unfold is_inl. eauto. }
  clear E0.
  rewrite (bind_inr (print _) _ st0 _ tt eq_refl).
  set (st1 := State _ _ _ _ _).
  rewrite (bind_inr read_clock _ st1 _ _ eq_refl).
  set (st1' := State _ _ _ _ _).
  set (lastUpdated := now_iso _).
  assert (lastUpdated = now_at st 0) as HlastUpdated.
  { subst lastUpdated st1. unfold now_at. simpl. rewrite Hc0, Hr0. reflexivity. }
  assert (stores st1' = stores st /\ output st1' = output st ++ [ProfanityChecked rid hp])
    as [Hs1 Ho1].
  { subst st1' st1. simpl. rewrite Hs0, Ho0. auto. }
  assert (clock st1' = clock st /\ reads st1' = S (reads st)) as [Hc1 Hr1].
  { subst st1' st1. simpl. rewrite Hc0, Hr0. auto. }
  clearbody st1' lastUpdated. clear st1.
  pose proof (update_item_cases "reviews" "reviewId" rid
                (review_update hp lastUpdated) st1') as [Ho2 Hup].
  pose proof (update_item_timeless "reviews" "reviewId" rid
                (review_update hp lastUpdated) st1') as [Hc2 Hr2].
  unfold review_update in Ho2, Hup, Hc2, Hr2.
  bind_step E2 as new st2; simpl in Ho2, Hup, Hc2, Hr2.
  { right. exists hp. left. unfold is_inl. rewrite Hup, Ho2. eauto. }
  clear E2. rewrite Hc1 in Hc2. rewrite Hr1 in Hr2. clear Hc1 Hr1.
  destruct Hup as (tr & Htr & Hkr & -> & Hst2). rewrite Hs1 in Htr, Hst2.
  assert (stores st2 = upsert "reviews" "reviewId" rid (review_update hp lastUpdated) (stores st))
    as Hw1.
  { unfold upsert. rewrite Htr, Hkr. exact Hst2. }
  assert (parameters (stores st2) = parameters (stores st)) as Hp2.
  { rewrite Hst2. apply parameters_write_item. }
  clear Hst2. rewrite Ho1 in Ho2. clear Hs1 Ho1.
  pose proof (ssm_get_parameter_cases customers_parameter st2) as [Hs3 Ho3].
  pose proof (ssm_get_parameter_timeless customers_parameter st2) as [Hc3 Hr3].
  pose proof (ssm_get_parameter_inr' customers_parameter st2) as Hct.
  fold customers_parameter.
  bind_step E3 as ct st3; simpl in Hs3, Ho3, Hc3, Hr3.
  { right. exists hp. right. exists lastUpdated, tr. split; [exact HlastUpdated| ].
    split; [exact Htr| ].
    split; [exact Hkr| ]. left. unfold is_inl. rewrite Hs3, Ho3. eauto. }
  specialize (Hct ct st3 eq_refl). rewrite Hp2 in Hct. clear E3.
  rewrite (bind_inr read_clock _ st3 _ _ eq_refl).
  set (st4 := State _ _ _ _ _). set (now := now_iso _).
  assert (now = now_at st 1) as Hnow.
  { subst now. unfold now_at. rewrite Hc3, Hr3, Hc2, Hr2. reflexivity. }
  assert (stores st4 = stores st2 /\ output st4 = output st2) as [Hs4 Ho4].
  { subst st4. simpl. auto. }
  clearbody st4 now. clear Hs3 Ho3.
  pose proof (track_customer_cases ct uid hp now st4) as Htrack.
  bind_step E5 as tracked st5; [destruct Htrack| ].
  clear E5. cbv beta.
  destruct tracked as [fresh| ].
  - destruct Htrack as (t & Ht & Hkey & Hfresh & Hs5 & Ho5).
    rewrite Hs4, Hw1 in Ht, Hs5. rewrite Ho4, Ho2, <- app_assoc in Ho5. simpl in Ho5.
    pose proof (apply_ban_cases ct uid fresh now st5) as Hban. cbv zeta in Hban.
    assert (parameters (stores st5) = parameters (stores st)) as Hp5.
    { rewrite Hs5, parameters_write_item, <- Hw1. exact Hp2. }
    rewrite Hp5 in Hban.
    destruct (Profanity.apply_ban ct uid fresh now st5) as [[e|[]] st6].
    all: right; exists hp; right; exists lastUpdated, tr.
    all: split; [exact HlastUpdated| ].
    all: split; [exact Htr| ]; split; [exact Hkr| ]; cbv zeta.
    all: right; exists ct, now; split; [exact Hnow| ]; split; [exact Hct| ].
    all: right; exists t, fresh; split; [exact Ht| ]; split; [exact Hkey| ].
    all: split; [exact Hfresh| ].
    + left. destruct Hban as [-> ->]. unfold is_inl. eauto 6.
    + destruct Hban as [(-> & -> & Hno)|(Hpos & Hb & Hthr & t2 & Ht2 & Hk2 & -> & ->)].
      * left. eauto 6.
      * right. rewrite Hs5 in Ht2. rewrite (tables_write_item _ _ _ _ _ Ht) in Ht2.
        injection Ht2 as <-. simpl. rewrite lookup_insert_eq. simpl.
        rewrite Hs5, Ho5, <- !app_assoc. simpl. auto 10.
  - destruct Htrack as (Hs5 & e & Ho5).
    rewrite Hs4, Hw1 in Hs5. rewrite Ho4, Ho2, <- app_assoc in Ho5. simpl in Ho5.
    right; exists hp; right; exists lastUpdated, tr.
    split; [exact HlastUpdated| ].
    split; [exact Htr| ]; split; [exact Hkr| ]; cbv zeta.
    right; exists ct, now; split; [exact Hnow| ]; split; [exact Hct| ].
    left. eauto.
Qed.

End ProfanitySteps.

Lemma printed_app (st st' : state) (lines : list line) :
  output st' = output st ++ lines -> printed st st' = lines.
Proof. intros H. unfold printed. rewrite H. apply drop_app_length. Qed.

Lemma tables_upsert_ne (name name' key k : string) (sets : list (string * value)) (w : world) :
  name <> name' -> tables (upsert name key k sets w) !! name' = tables w !! name'.
Proof.
  intros Hne. unfold upsert. destruct (tables w !! name) as [t| ]; [ |reflexivity].
  destruct (String.eqb (key_name t) key); [ |reflexivity].
  apply tables_write_item_ne, Hne.
Qed.

Lemma parameters_upsert (name key k : string) (sets : list (string * value)) (w : world) :
  parameters (upsert name key k sets w) = parameters w.
Proof.
  unfold upsert. destruct (tables w !! name) as [t| ]; [ |reflexivity].
  destruct (String.eqb (key_name t) key); [ |reflexivity].
  apply parameters_write_item.
Qed.

Lemma lookup_assign (sets : list (string * value)) (it : dict) (a : string) :
  assign sets it !! a = match assigned a sets with Some v => Some v | None => it !! a end.
Proof.
  revert it. induction sets as [ |[b v] rest IH]; intros it; [reflexivity| ].
  change (assign ((b, v) :: rest) it) with (assign rest (<[b := v]> it)).
  rewrite IH. simpl. destruct (assigned a rest); [reflexivity| ].
  destruct (String.eqb_spec a b) as [->|Hne].
  - apply lookup_insert_eq.
  - apply lookup_insert_ne. congruence.
Qed.

Lemma assigned_app (a : string) (l1 l2 : list (string * value)) :
  assigned a (l1 ++ l2)
  = match assigned a l2 with Some v => Some v | None => assigned a l1 end.
Proof.
  induction l1 as [ |[b v] l1 IH]; simpl.
  - destruct (assigned a l2); reflexivity.
  - rewrite IH. destruct (assigned a l2); reflexivity.
Qed.

Lemma assigned_when_missing_ne (it : dict) (a b : string) (sets : list (string * value)) :
  assigned a sets = None -> assigned a (Profanity.when_missing it b sets) = None.
Proof. unfold Profanity.when_missing. destruct (contains it b); auto. Qed.

Lemma fresh_totalReviews (found : option dict) (uid : string) (hp : bool) (now : string)
    (fresh : dict) :
  fresh_customer found uid hp now = inr fresh ->
  exists total, counted found "totalReviews" = inr total
                /\ fresh !! "totalReviews" = Some total.
Proof.
  destruct found as [it| ]; simpl.
  - unfold Profanity.update_expression.
    destruct (add1 (get it "totalReviews" (VInt 0))) as [e|total]; [discriminate| ].
    destruct hp.
    + destruct (add1 (get it "violationCount" (VInt 0))) as [e|v]; [discriminate| ].
      intros [= <-]. exists total. split; [reflexivity| ].
      unfold Profanity.when_missing.
      repeat destruct (contains it _); rewrite lookup_assign; simpl;
        rewrite ?lookup_insert_eq; reflexivity.
    + intros [= <-]. exists total. split; [reflexivity| ].
      unfold Profanity.when_missing.
      repeat destruct (contains it _); rewrite lookup_assign; simpl;
        rewrite ?lookup_insert_eq; reflexivity.
  - intros [= <-]. exists (VInt 1). split; [reflexivity| ].
    destruct hp; reflexivity.
Qed.

Lemma fresh_violationCount (found : option dict) (uid : string) (now : string)
    (fresh : dict) :
  fresh_customer found uid true now = inr fresh ->
  exists count, counted found "violationCount" = inr count
                /\ fresh !! "violationCount" = Some count.
Proof.
  destruct found as [it| ]; simpl.
  - unfold Profanity.update_expression.
    destruct (add1 (get it "totalReviews" (VInt 0))) as [e|total]; [discriminate| ].
    destruct (add1 (get it "violationCount" (VInt 0))) as [e|v]; [discriminate| ].
    intros [= <-]. exists v. split; [reflexivity| ].
    unfold Profanity.when_missing.
    repeat destruct (contains it _); rewrite lookup_assign; simpl;
        rewrite ?lookup_insert_eq; reflexivity.
  - intros [= <-]. exists (VInt 1). split; reflexivity.
Qed.

Lemma banned_customer_other (customer : dict) (now a : string) :
  a <> "isBanned" -> a <> "banDate" ->
  banned_customer customer now !! a = customer !! a.
Proof.
  intros H1 H2. unfold banned_customer. rewrite lookup_assign. simpl.
  destruct (String.eqb_spec a "banDate"); [contradiction| ].
  destruct (String.eqb_spec a "isBanned"); [contradiction| ]. reflexivity.
Qed.

Section ProfanityCounters.

Variable is_profane : value -> exn + bool.

Lemma process_record_insert (record : stream_record) (img : image) (rid uid : string)
    (st : state) :
  eventName record = "INSERT" -> NewImage record = Some img ->
  image_S img "reviewId" = inr rid -> image_S img "userId" = inr uid ->
  Profanity.process_record is_profane record st
  = try_except (Profanity.check_review is_profane img rid uid)
               (fun e => print (RecordError rid e)) st.
Proof.
  intros Hev Himg Hrid Huid. unfold Profanity.process_record.
  rewrite Hev, Himg. simpl. unfold bind. rewrite Hrid. simpl. rewrite Huid. reflexivity.
Qed.

(** What a record that was processed without an error line did. *)
Lemma process_record_succeeded (record : stream_record) (img : image) (rid uid : string)
    (st : state) :
  eventName record = "INSERT" -> NewImage record = Some img ->
  image_S img "reviewId" = inr rid -> image_S img "userId" = inr uid ->
  let st' := snd (Profanity.process_record is_profane record st) in
  succeeded st st' ->
  exists hp now ct t fresh final,
    now = now_at st 1
    /\ parameters (stores st') = parameters (stores st)
    /\ parameters (stores st) !! customers_parameter = Some ct
    /\ tables (stores st) !! ct = Some t /\ key_name t = "userId"
    /\ fresh_customer (items t !! uid) uid hp now = inr fresh
    /\ (flagged rid st st' <-> hp = true)
    /\ tables (stores st') !! ct = Some (Table "userId" (<[uid := final]> (items t)))
    /\ let vc := get fresh "violationCount" (VInt 0) in
       let banned := truthy (get fresh "isBanned" (VBool false)) in
       (final = fresh
        /\ (gt_int vc 0 = inr false \/ banned = true
            \/ exists text thr,
                 parameters (stores st) !! threshold_parameter = Some text
                 /\ int_of_string text = inr thr /\ ge_int vc thr = inr false))
       \/ (final = banned_customer fresh now
           /\ gt_int vc 0 = inr true /\ banned = false
           /\ exists text thr,
                parameters (stores st) !! threshold_parameter = Some text
                /\ int_of_string text = inr thr /\ ge_int vc thr = inr true).
Proof.
  intros Hev Himg Hrid Huid st'. subst st'.
  rewrite (process_record_insert record img rid uid st Hev Himg Hrid Huid).
  unfold try_except, succeeded, flagged.
  pose proof (check_review_cases is_profane img rid uid st) as Hcases.
  destruct (Profanity.check_review is_profane img rid uid st) as [r st1].
  assert (forall lines e, output st1 = output st ++ lines -> r = inl e ->
            forallb (fun l => negb (is_error l))
              (printed st (snd (match r with
                                | inl e => print (RecordError rid e) st1
                                | inr a => (inr a, st1) end))) = true -> False) as Hfail.
  { intros lines e Ho -> . simpl. rewrite (printed_app st _ (lines ++ [RecordError rid e])).
    - rewrite forallb_app. simpl. rewrite andb_false_r. discriminate.
    - simpl. rewrite Ho, app_assoc. reflexivity. }
  destruct Hcases as [(_ & Ho & e & ->)|(hp & Hcases)].
  { intros H. exfalso. apply (Hfail [] e); [rewrite app_nil_r; exact Ho|reflexivity|exact H]. }
  destruct Hcases as [(_ & Ho & e & ->)|(lastUpdated & tr & _ & Htr & Hkr & Hcases)].
  { intros H. exfalso. exact (Hfail _ e Ho eq_refl H). }
  cbv zeta in Hcases.
  destruct Hcases as [(_ & Ho & e & ->)|(ct & now & Hnow & Hct & Hcases)].
  { intros H. exfalso. exact (Hfail _ e Ho eq_refl H). }
  destruct Hcases as [(_ & (e & Ho) & ->)|(t & fresh & Ht & Hkey & Hfresh & Hcases)].
  { simpl. rewrite (printed_app _ _ _ Ho). simpl. discriminate. }
  assert (ct <> "reviews") as Hne.
  { intros ->. unfold upsert in Ht. rewrite Htr, Hkr in Ht. simpl in Ht.
    rewrite (tables_write_item _ _ _ _ _ Htr) in Ht. injection Ht as <-.
    simpl in Hkey. congruence. }
  rewrite tables_upsert_ne in Ht by congruence.
  cbv zeta in Hcases.
  destruct Hcases as [(Hs & Ho & Hr)|(Hs & Ho & -> & Hpos & Hb & Hthr)].
  - destruct Hr as [(e & ->)|(-> & Hno)].
    { intros H. exfalso. exact (Hfail _ e Ho eq_refl H). }
    simpl. rewrite (printed_app _ _ _ Ho). intros _.
    exists hp, now, ct, t, fresh, fresh. split; [exact Hnow| ].
    split; [rewrite Hs, parameters_write_item; apply parameters_upsert| ].
    repeat (split; [assumption| ]).
    split.
    { simpl. split.
      - intros [[= ->]|[H|[]]]; [reflexivity| ].
        destruct (items t !! uid); discriminate H.
      - intros ->. left. reflexivity. }
    split.
    { rewrite Hs. erewrite tables_write_item.
      - rewrite Hkey. reflexivity.
      - rewrite tables_upsert_ne by congruence. exact Ht. }
    left. split; [reflexivity|exact Hno].
  - simpl. rewrite (printed_app _ _ _ Ho). intros _.
    exists hp, now, ct, t, fresh, (banned_customer fresh now). split; [exact Hnow| ].
    split; [rewrite Hs, !parameters_write_item; apply parameters_upsert| ].
    repeat (split; [assumption| ]).
    split.
    { simpl. split.
      - intros [[= ->]|[H|[H|[]]]]; [reflexivity| |discriminate H].
        destruct (items t !! uid); discriminate H.
      - intros ->. left. reflexivity. }
    split.
    { rewrite Hs.
      rewrite (tables_write_item ct uid _ _ (Table "userId" (<[uid := fresh]> (items t)))).
      - simpl. rewrite insert_insert_eq. reflexivity.
      - erewrite tables_write_item.
        + rewrite Hkey. reflexivity.
        + rewrite tables_upsert_ne by congruence. exact Ht. }
    right. auto.
Qed.


(** What one delivery that was processed without an error line did to the
    counters of the customer. *)
Lemma delivery_counts (record : stream_record) (img : image) (rid uid : string)
    (st : state) (ct : string) (t : table) :
  eventName record = "INSERT" -> NewImage record = Some img ->
  image_S img "reviewId" = inr rid -> image_S img "userId" = inr uid ->
  parameters (stores st) !! customers_parameter = Some ct ->
  tables (stores st) !! ct = Some t ->
  let st' := snd (Profanity.process_record is_profane record st) in
  succeeded st st' ->
  parameters (stores st') = parameters (stores st)
  /\ exists final,
       tables (stores st') !! ct = Some (Table "userId" (<[uid := final]> (items t)))
       /\ (exists total, counted (items t !! uid) "totalReviews" = inr total
                         /\ final !! "totalReviews" = Some total)
       /\ (flagged rid st st' ->
           exists count, counted (items t !! uid) "violationCount" = inr count
                         /\ final !! "violationCount" = Some count).
Proof.
  intros Hev Himg Hrid Huid Hct Ht st' Hok.
  destruct (process_record_succeeded record img rid uid st Hev Himg Hrid Huid Hok)
    as (hp & now & ct' & t' & fresh & final & Hnow & Hp & Hct' & Ht' & Hkey & Hfresh & Hflag
        & Hfinal & Hban).
  fold st' in Hp, Hflag, Hfinal.
  assert (ct' = ct) as -> by (unfold customers_parameter in *; congruence).
  assert (t' = t) as -> by congruence.
  split; [exact Hp| ]. exists final. split; [exact Hfinal| ].
  assert (forall a, a <> "isBanned" -> a <> "banDate" -> final !! a = fresh !! a) as Hsame.
  { intros a H1 H2. cbv zeta in Hban.
    destruct Hban as [[-> _]|[-> _]]; [reflexivity|apply banned_customer_other; assumption]. }
  split.
  - destruct (fresh_totalReviews _ _ _ _ _ Hfresh) as (total & Htotal & Hlookup).
    exists total. rewrite Hsame by discriminate. auto.
  - intros Hf. apply Hflag in Hf. subst hp.
    destruct (fresh_violationCount _ _ _ _ Hfresh) as (count & Hcount & Hlookup).
    exists count. rewrite Hsame by discriminate. auto.
Qed.


Lemma item_attribute_insert (w : world) (ct uid a : string) (final : dict)
    (items0 : gmap string dict) (key : string) :
  tables w !! ct = Some (Table key (<[uid := final]> items0)) ->
  item_attribute w ct uid a = final !! a.
Proof.
  intros H. unfold item_attribute. rewrite H. simpl.
  rewrite lookup_insert_eq. reflexivity.
Qed.

Lemma counted_exact (found : option dict) (counter : string) (n : Z) :
  uncounted found counter = VInt n -> Z.abs (n + 1) < coefficient_limit ->
  counted found counter = inr (VInt (n + 1)).
Proof.
  destruct found as [it| ]; simpl.
  - intros -> H. exact (add1_exact n H).
  - intros [= <-] _. reflexivity.
Qed.

(** The counter of a customer after two deliveries of one notification,
    each processed without an error line. *)
Lemma counter_after_two (record : stream_record) (img : image) (rid uid : string)
    (st : state) (ct : string) (t : table) (counter : string) (n : Z)
    (counts : state -> state -> Prop) :
  eventName record = "INSERT" -> NewImage record = Some img ->
  image_S img "reviewId" = inr rid -> image_S img "userId" = inr uid ->
  parameters (stores st) !! customers_parameter = Some ct ->
  tables (stores st) !! ct = Some t ->
  uncounted (items t !! uid) counter = VInt n ->
  Z.abs n + 2 < coefficient_limit ->
  (forall st0 t0 final,
     tables (stores st0) !! ct = Some t0 ->
     parameters (stores st0) !! customers_parameter = Some ct ->
     let st1 := snd (Profanity.process_record is_profane record st0) in
     succeeded st0 st1 -> counts st0 st1 ->
     tables (stores st1) !! ct = Some (Table "userId" (<[uid := final]> (items t0))) ->
     exists v, counted (items t0 !! uid) counter = inr v /\ final !! counter = Some v) ->
  let st' := snd (Profanity.process_record is_profane record st) in
  succeeded st st' -> counts st st' ->
  item_attribute (stores st') ct uid counter = Some (VInt (n + 1))
  /\ forall st2,
       stores st2 = stores st' ->
       let st'' := snd (Profanity.process_record is_profane record st2) in
       succeeded st2 st'' -> counts st2 st'' ->
       item_attribute (stores st'') ct uid counter = Some (VInt (n + 2)).
Proof.
  intros Hev Himg Hrid Huid Hct Ht Hn Hlimit Hcounted st' Hok Hcounts.
  destruct (delivery_counts record img rid uid st ct t Hev Himg Hrid Huid Hct Ht Hok)
    as (Hp & final & Hfinal & _).
  fold st' in Hp, Hfinal.
  destruct (Hcounted st t final Ht Hct Hok Hcounts Hfinal) as (v & Hv & Hlookup).
  rewrite (counted_exact _ _ n Hn) in Hv by lia. injection Hv as <-.
  split; [rewrite (item_attribute_insert _ _ _ _ _ _ _ Hfinal); exact Hlookup| ].
  intros st2 Hst2 st'' Hok2 Hcounts2.
  assert (parameters (stores st2) !! customers_parameter = Some ct) as Hct2
    by (rewrite Hst2, Hp; exact Hct).
  rewrite <- Hst2 in Hfinal.
  destruct (delivery_counts record img rid uid st2 ct _ Hev Himg Hrid Huid Hct2 Hfinal Hok2)
    as (_ & final2 & Hfinal2 & _).
  fold st'' in Hfinal2.
  destruct (Hcounted st2 _ final2 Hfinal Hct2 Hok2 Hcounts2 Hfinal2) as (v & Hv & Hlookup2).
  rewrite (counted_exact _ _ (n + 1)) in Hv.
  - injection Hv as <-. rewrite (item_attribute_insert _ _ _ _ _ _ _ Hfinal2).
    rewrite Hlookup2. do 2 f_equal. lia.
  - cbn [items]. rewrite lookup_insert_eq. unfold uncounted, get.
    rewrite Hlookup. reflexivity.
  - lia.
Qed.

(** C10, as the code has it. Every insert notification the profanity stage
    processes without an error raises [totalReviews] of the submitting user
    by exactly one, whatever was processed before, as long as the count is
    an integer of no more than the 28 digits that [Decimal] arithmetic
    keeps: a record that holds the integer [n] (0 when it has no
    [totalReviews] yet, or is new) holds [n + 1] afterwards, and [n + 2]
    after a second delivery of the same notification. *)
Theorem total_reviews_counts_deliveries (record : stream_record) (img : image)
    (rid uid : string) (st : state) (ct : string) (t : table) (n : Z) :
  eventName record = "INSERT" -> NewImage record = Some img ->
  image_S img "reviewId" = inr rid -> image_S img "userId" = inr uid ->
  parameters (stores st) !! customers_parameter = Some ct ->
  tables (stores st) !! ct = Some t ->
  uncounted (items t !! uid) "totalReviews" = VInt n ->
  Z.abs n + 2 < coefficient_limit ->
  let st' := snd (Profanity.process_record is_profane record st) in
  succeeded st st' ->
  item_attribute (stores st') ct uid "totalReviews" = Some (VInt (n + 1))
  /\ forall st2,
       stores st2 = stores st' ->
       let st'' := snd (Profanity.process_record is_profane record st2) in
       succeeded st2 st'' ->
       item_attribute (stores st'') ct uid "totalReviews" = Some (VInt (n + 2)).
Proof.
  intros Hev Himg Hrid Huid Hct Ht Hn Hlimit st' Hok.
  destruct (counter_after_two record img rid uid st ct t "totalReviews" n
              (fun _ _ => True) Hev Himg Hrid Huid Hct Ht Hn Hlimit) as [Hfirst Hsecond];
    [ |exact Hok|exact I| ].
  - intros st0 t0 final Ht0 Hct0 st1 Hok0 _ Hfinal.
    destruct (delivery_counts record img rid uid st0 ct t0 Hev Himg Hrid Huid Hct0 Ht0 Hok0)
      as (_ & final' & Hfinal' & Htotal & _).
    fold st1 in Hfinal'. rewrite Hfinal in Hfinal'.
    assert (final' = final) as ->.
    { injection Hfinal' as H. apply (f_equal (fun m => m !! uid)) in H.
      rewrite !lookup_insert_eq in H. congruence. }
    exact Htotal.
  - fold st' in Hfirst, Hsecond. split; [exact Hfirst| ].
    intros st2 Hst2 st'' Hok2. exact (Hsecond st2 Hst2 Hok2 I).
Qed.

(** C1, as the code has it. Every delivery of a profanity-flagged review
    that the profanity stage processes without an error raises
    [violationCount] of the user by exactly one, whether or not that review
    was counted before: a record that holds the integer [n] (0 when it has
    no [violationCount] yet, or is new) holds [n + 1] afterwards, and
    [n + 2] after a second delivery of the same notification. The sums are
    exact as long as they have no more than the 28 digits that [Decimal]
    arithmetic keeps. *)
Theorem violation_count_counts_deliveries (record : stream_record) (img : image)
    (rid uid : string) (st : state) (ct : string) (t : table) (n : Z) :
  eventName record = "INSERT" -> NewImage record = Some img ->
  image_S img "reviewId" = inr rid -> image_S img "userId" = inr uid ->
  parameters (stores st) !! customers_parameter = Some ct ->
  tables (stores st) !! ct = Some t ->
  uncounted (items t !! uid) "violationCount" = VInt n ->
  Z.abs n + 2 < coefficient_limit ->
  let st' := snd (Profanity.process_record is_profane record st) in
  succeeded st st' -> flagged rid st st' ->
  item_attribute (stores st') ct uid "violationCount" = Some (VInt (n + 1))
  /\ forall st2,
       stores st2 = stores st' ->
       let st'' := snd (Profanity.process_record is_profane record st2) in
       succeeded st2 st'' -> flagged rid st2 st'' ->
       item_attribute (stores st'') ct uid "violationCount" = Some (VInt (n + 2)).
Proof.
  intros Hev Himg Hrid Huid Hct Ht Hn Hlimit st' Hok Hflag.
  destruct (counter_after_two record img rid uid st ct t "violationCount" n
              (flagged rid) Hev Himg Hrid Huid Hct Ht Hn Hlimit) as [Hfirst Hsecond];
    [ |exact Hok|exact Hflag| ].
  - intros st0 t0 final Ht0 Hct0 st1 Hok0 Hflag0 Hfinal.
    destruct (delivery_counts record img rid uid st0 ct t0 Hev Himg Hrid Huid Hct0 Ht0 Hok0)
      as (_ & final' & Hfinal' & _ & Hcount).
    fold st1 in Hfinal', Hcount. rewrite Hfinal in Hfinal'.
    assert (final' = final) as ->.
    { injection Hfinal' as H. apply (f_equal (fun m => m !! uid)) in H.
      rewrite !lookup_insert_eq in H. congruence. }
    exact (Hcount Hflag0).
  - fold st' in Hfirst, Hsecond. exact (conj Hfirst Hsecond).
Qed.

Lemma Qle_bool_inject_Z (a b : Z) : Qle_bool (inject_Z a) (inject_Z b) = (a <=? b).
Proof. unfold Qle_bool. simpl. rewrite !Z.mul_1_r. reflexivity. Qed.

Lemma gt_int_VInt (k n : Z) : gt_int (VInt k) n = inr (negb (k <=? n)).
Proof. unfold gt_int. simpl. rewrite Qle_bool_inject_Z. reflexivity. Qed.

Lemma ge_int_VInt (k n : Z) : ge_int (VInt k) n = inr (n <=? k).
Proof. unfold ge_int. simpl. rewrite Qle_bool_inject_Z. reflexivity. Qed.

Lemma fresh_banned_flag (found : option dict) (uid : string) (hp : bool) (now : string)
    (fresh : dict) :
  fresh_customer found uid hp now = inr fresh ->
  truthy (get fresh "isBanned" (VBool false)) = already_banned found.
Proof.
  destruct found as [it| ]; simpl; [ |intros [= <-]; destruct hp; reflexivity].
  unfold Profanity.update_expression, Profanity.when_missing.
  destruct (add1 (get it "totalReviews" (VInt 0))) as [e|total]; [discriminate| ].
  destruct (it !! "isBanned") as [b| ] eqn:Hb.
  - assert (contains it "isBanned" = true) as -> by (unfold contains; rewrite Hb; reflexivity).
    assert (get it "isBanned" (VBool false) = b) as -> by (unfold get; rewrite Hb; reflexivity).
    destruct hp.
    + destruct (add1 (get it "violationCount" (VInt 0))) as [e|v]; [discriminate| ].
      intros [= <-]. unfold get.
      repeat destruct (contains it _); rewrite !lookup_assign; simpl;
        rewrite ?lookup_insert_ne by discriminate; rewrite Hb; reflexivity.
    + intros [= <-]. unfold get.
      repeat destruct (contains it _); rewrite !lookup_assign; simpl;
        rewrite ?lookup_insert_ne by discriminate; rewrite Hb; reflexivity.
  - assert (contains it "isBanned" = false) as -> by (unfold contains; rewrite Hb; reflexivity).
    assert (get it "isBanned" (VBool false) = VBool false) as ->
      by (unfold get; rewrite Hb; reflexivity).
    destruct hp.
    + destruct (add1 (get it "violationCount" (VInt 0))) as [e|v]; [discriminate| ].
      intros [= <-]. unfold get.
      repeat destruct (contains it _); rewrite !lookup_assign; simpl;
        rewrite ?lookup_insert_eq; reflexivity.
    + intros [= <-]. unfold get.
      repeat destruct (contains it _); rewrite !lookup_assign; simpl;
        rewrite ?lookup_insert_eq; reflexivity.
Qed.

Lemma fresh_banDate (found : option dict) (uid : string) (hp : bool) (now : string)
    (fresh : dict) :
  fresh_customer found uid hp now = inr fresh ->
  fresh !! "banDate" = match found with Some it => it !! "banDate" | None => None end.
Proof.
  destruct found as [it| ]; simpl; [ |intros [= <-]; destruct hp; reflexivity].
  unfold Profanity.update_expression, Profanity.when_missing.
  destruct (add1 (get it "totalReviews" (VInt 0))) as [e|total]; [discriminate| ].
  destruct hp.
  - destruct (add1 (get it "violationCount" (VInt 0))) as [e|v]; [discriminate| ].
    intros [= <-].
    repeat destruct (contains it _); rewrite !lookup_assign; simpl;
      rewrite ?lookup_insert_ne by discriminate; reflexivity.
  - intros [= <-].
    repeat destruct (contains it _); rewrite !lookup_assign; simpl;
      rewrite ?lookup_insert_ne by discriminate; reflexivity.
Qed.

Lemma add1_number (v v' : value) : add1 v = inr v' -> is_Some (number v').
Proof.
  destruct v; simpl; intros [= <-]; simpl; eauto.
  unfold of_Q. destruct (_ =? _); simpl; eauto.
Qed.

Lemma counted_number (found : option dict) (a : string) (v : value) :
  counted found a = inr v -> is_Some (number v).
Proof.
  destruct found; simpl; [apply add1_number| ]. intros [= <-]. simpl. eauto.
Qed.

Lemma not_positive_below (v : value) (thr : Z) :
  1 <= thr -> gt_int v 0 = inr false -> ge_int v thr = inr false.
Proof.
  unfold gt_int, ge_int. destruct (number v) as [q| ]; [ |discriminate].
  intros Hthr [= H]. f_equal. apply negb_false_iff in H. apply Qle_bool_iff in H.
  destruct (Qle_bool (inject_Z thr) q) eqn:E; [ |reflexivity].
  apply Qle_bool_iff in E.
  assert (inject_Z 1 <= inject_Z thr)%Q by (rewrite <- Zle_Qle; exact Hthr).
  exfalso. change (inject_Z 0) with 0%Q in H. change (inject_Z 1) with 1%Q in H0. lra.
Qed.

(** The sum the counter update writes for a counter that holds the integer
    [k]: [k + 1] in [Decimal] arithmetic. *)
Lemma counted_int (found : option dict) (counter : string) (k : Z) :
  uncounted found counter = VInt k -> counted found counter = inr (VInt (fix_int (k + 1))).
Proof.
  destruct found as [it| ]; simpl.
  - intros ->. reflexivity.
  - intros [= <-]. reflexivity.
Qed.

(** C3. For a flagged review that the profanity stage processes without an
    error, the ban is decided on the counter as the update left it. With a
    threshold of at least 1, the record holds afterwards the sum [count]
    that the update wrote, and the customer becomes banned, with [banDate]
    the time the stage read for this record, exactly when [count] has
    reached the threshold and the record was not banned; otherwise the
    record is banned or not as it was, with the [banDate] it had. For a
    record whose [violationCount] was the integer [k] (0 when it had none,
    or is new), [count] is [k + 1] as [Decimal] arithmetic gives it, which
    is [k + 1] itself up to 28 digits. In both cases the record is the one
    the counter update wrote, with the ban applied to it or not. *)
Theorem ban_decided_on_fresh_count (record : stream_record) (img : image)
    (rid uid : string) (st : state) (ct : string) (t : table) (text : string) (thr : Z) :
  eventName record = "INSERT" -> NewImage record = Some img ->
  image_S img "reviewId" = inr rid -> image_S img "userId" = inr uid ->
  parameters (stores st) !! customers_parameter = Some ct ->
  tables (stores st) !! ct = Some t ->
  parameters (stores st) !! threshold_parameter = Some text ->
  int_of_string text = inr thr -> 1 <= thr ->
  let st' := snd (Profanity.process_record is_profane record st) in
  succeeded st st' -> flagged rid st st' ->
  let now := now_at st 1 in
  exists (count : value) (reached : bool),
    counted (items t !! uid) "violationCount" = inr count
    /\ (forall k : Z,
          uncounted (items t !! uid) "violationCount" = VInt k ->
          count = VInt (fix_int (k + 1))
          /\ reached = (thr <=? fix_int (k + 1))
          /\ (Z.abs (k + 1) < coefficient_limit -> fix_int (k + 1) = k + 1))
    /\ item_attribute (stores st') ct uid "violationCount" = Some count
    /\ ge_int count thr = inr reached
    /\ let transition := reached && negb (is_banned (stores st) ct uid) in
       (if transition
        then item_attribute (stores st') ct uid "isBanned" = Some (VBool true)
             /\ item_attribute (stores st') ct uid "banDate" = Some (VStr now)
        else is_banned (stores st') ct uid = is_banned (stores st) ct uid
             /\ item_attribute (stores st') ct uid "banDate"
                = item_attribute (stores st) ct uid "banDate")
       /\ exists fresh,
            fresh_customer (items t !! uid) uid true now = inr fresh
            /\ tables (stores st') !! ct
               = Some (Table "userId"
                         (<[uid := if transition then banned_customer fresh now else fresh]>
                            (items t))).
Proof.
  intros Hev Himg Hrid Huid Hct Ht Htext Hthr Hone st' Hok Hflag now.
  destruct (process_record_succeeded record img rid uid st Hev Himg Hrid Huid Hok)
    as (hp & now' & ct' & t' & fresh & final & Hnow & Hp & Hct' & Ht' & Hkey & Hfresh & Hflag'
        & Hfinal & Hban).
  fold st' in Hp, Hflag', Hfinal. subst now'. fold now in Hfresh, Hban.
  assert (ct' = ct) as -> by (unfold customers_parameter in *; congruence).
  assert (t' = t) as -> by congruence.
  apply Hflag' in Hflag. subst hp.
  destruct (fresh_violationCount _ _ _ _ Hfresh) as (count & Hcount & Hlookup).
  destruct (counted_number _ _ _ Hcount) as [q Hq].
  assert (exists reached, ge_int count thr = inr reached) as [reached Hreached]
    by (unfold ge_int; rewrite Hq; eauto).
  exists count, reached.
  split; [exact Hcount| ].
  split.
  { intros k Hk. rewrite (counted_int _ _ k Hk) in Hcount. injection Hcount as <-.
    rewrite ge_int_VInt in Hreached. injection Hreached as <-.
    split; [reflexivity|split; [reflexivity|apply fix_int_exact]]. }
  pose proof (fresh_banned_flag _ _ _ _ _ Hfresh) as Hflagged.
  pose proof (fresh_banDate _ _ _ _ _ Hfresh) as Hdate.
  assert (is_banned (stores st) ct uid = already_banned (items t !! uid)) as Hbefore.
  { unfold is_banned, item_attribute, already_banned, get. rewrite Ht.
    destruct (items t !! uid) as [it| ]; [ |reflexivity].
    destruct (it !! "isBanned"); reflexivity. }
  assert (item_attribute (stores st) ct uid "banDate" = fresh !! "banDate") as Hdate'.
  { unfold item_attribute. rewrite Ht, Hdate. destruct (items t !! uid); reflexivity. }
  set (transition := reached && negb (is_banned (stores st) ct uid)).
  assert (final = if transition then banned_customer fresh now else fresh) as Hfin.
  { subst transition. rewrite Hbefore, <- Hflagged.
    assert (get fresh "violationCount" (VInt 0) = count) as Hvc
      by (unfold get; rewrite Hlookup; reflexivity).
    cbv zeta in Hban. rewrite Hvc in Hban.
    destruct Hban as [[-> Hno]|(-> & _ & Hb & text' & thr' & Htext' & Hthr' & Hge)].
    - destruct Hno as [Hpos|[Hb|(text' & thr' & Htext' & Hthr' & Hge)]].
      + rewrite (not_positive_below _ _ Hone Hpos) in Hreached.
        injection Hreached as <-. reflexivity.
      + rewrite Hb, andb_false_r. reflexivity.
      + assert (thr' = thr) as -> by congruence.
        assert (reached = false) as -> by congruence. reflexivity.
    - assert (thr' = thr) as -> by congruence.
      assert (reached = true) as -> by congruence. rewrite Hb. reflexivity. }
  rewrite Hfin in Hfinal.
  unfold is_banned at 1. rewrite !(item_attribute_insert _ _ _ _ _ _ _ Hfinal).
  split; [ |split; [exact Hreached| ]].
  - destruct transition; [rewrite banned_customer_other by discriminate| ]; exact Hlookup.
  - cbv zeta. fold transition.
    split; [ |exists fresh; split; [exact Hfresh|exact Hfinal]].
    destruct transition.
    + unfold banned_customer. rewrite !lookup_assign. split; reflexivity.
    + rewrite Hdate'. split; [ |reflexivity].
      rewrite Hbefore, <- Hflagged. unfold get.
      destruct (fresh !! "isBanned"); reflexivity.
Qed.

End ProfanityCounters.

(** The record under [k] of table [name] is banned, with this [banDate]. *)
Lemma banned_record_write_other (w : world) (name k name' k' : string) (it : dict)
    (d : option value) :
  (name', k') <> (name, k) ->
  banned_record w name k d -> banned_record (write_item name' k' it w) name k d.
Proof.
  intros Hne (t & it0 & Ht & Hit & Hb & Hd). unfold banned_record.
  destruct (decide (name' = name)) as [->|Hn].
  - rewrite (tables_write_item _ _ _ _ _ Ht). eexists _, it0. split; [reflexivity| ].
    simpl. rewrite lookup_insert_ne by congruence. auto.
  - rewrite tables_write_item_ne by exact Hn. eauto 6.
Qed.

Lemma banned_record_write_same (w : world) (name k : string) (it : dict) (d : option value) :
  is_Some (tables w !! name) ->
  it !! "isBanned" = Some (VBool true) -> it !! "banDate" = d ->
  banned_record (write_item name k it w) name k d.
Proof.
  intros [t Ht] Hb Hd. unfold banned_record.
  rewrite (tables_write_item _ _ _ _ _ Ht). eexists _, it. split; [reflexivity| ].
  simpl. rewrite lookup_insert_eq. auto.
Qed.

Lemma banned_record_upsert (w : world) (name k name' key k' : string)
    (sets : list (string * value)) (d : option value) :
  assigned "isBanned" sets = None -> assigned "banDate" sets = None ->
  banned_record w name k d -> banned_record (upsert name' key k' sets w) name k d.
Proof.
  intros H1 H2 Hb. unfold upsert.
  destruct (tables w !! name') as [t'| ] eqn:Ht'; [ |exact Hb].
  destruct (String.eqb (key_name t') key); [ |exact Hb].
  destruct (decide ((name', k') = (name, k))) as [[= -> ->]|Hne].
  - destruct Hb as (t & it & Ht & Hit & Hban & Hd).
    assert (t' = t) as -> by congruence. rewrite Hit. simpl.
    apply banned_record_write_same; [eauto| | ]; rewrite lookup_assign.
    + rewrite H1. exact Hban.
    + rewrite H2. exact Hd.
  - apply banned_record_write_other; assumption.
Qed.

Lemma fresh_customer_banned (it : dict) (uid : string) (hp : bool) (now : string)
    (fresh : dict) (d : option value) :
  it !! "isBanned" = Some (VBool true) -> it !! "banDate" = d ->
  fresh_customer (Some it) uid hp now = inr fresh ->
  fresh !! "isBanned" = Some (VBool true) /\ fresh !! "banDate" = d.
Proof.
  intros Hb Hd. simpl. unfold Profanity.update_expression, Profanity.when_missing.
  assert (contains it "isBanned" = true) as -> by (unfold contains; rewrite Hb; reflexivity).
  destruct (add1 (get it "totalReviews" (VInt 0))) as [e|total]; [discriminate| ].
  destruct hp.
  - destruct (add1 (get it "violationCount" (VInt 0))) as [e|v]; [discriminate| ].
    intros [= <-].
    repeat destruct (contains it _); rewrite !lookup_assign; simpl;
      rewrite ?lookup_insert_ne by discriminate; auto.
  - intros [= <-].
    repeat destruct (contains it _); rewrite !lookup_assign; simpl;
      rewrite ?lookup_insert_ne by discriminate; auto.
Qed.

Section ProfanityBan.

Variable is_profane : value -> exn + bool.

Lemma check_review_keeps_ban (img : image) (rid uid : string) (st : state)
    (name k : string) (d : option value) :
  banned_record (stores st) name k d ->
  banned_record (stores (snd (Profanity.check_review is_profane img rid uid st))) name k d.
Proof.
  intros Hb.
  pose proof (check_review_cases is_profane img rid uid st) as Hcases.
  destruct (Profanity.check_review is_profane img rid uid st) as [r st']. simpl.
  destruct Hcases as [(-> & _)|(hp & Hcases)]; [exact Hb| ].
  destruct Hcases as [(-> & _)|(lastUpdated & tr & _ & Htr & Hkr & Hcases)]; [exact Hb| ].
  cbv zeta in Hcases.
  assert (banned_record
            (upsert "reviews" "reviewId" rid (review_update hp lastUpdated) (stores st))
            name k d) as Hb1
    by (apply banned_record_upsert; [reflexivity|reflexivity|exact Hb]).
  destruct Hcases as [(-> & _)|(ct & now & _ & Hct & Hcases)]; [exact Hb1| ].
  destruct Hcases as [(-> & _)|(t & fresh & Ht & Hkey & Hfresh & Hcases)]; [exact Hb1| ].
  cbv zeta in Hcases.
  set (w1 := upsert _ _ _ _ _) in *.
  assert (banned_record (write_item ct uid fresh w1) name k d) as Hb2.
  { destruct (decide ((ct, uid) = (name, k))) as [[= -> ->]|Hne].
    - destruct Hb1 as (t1 & it & Ht1 & Hit & Hban & Hd).
      assert (t1 = t) as -> by congruence. rewrite Hit in Hfresh.
      destruct (fresh_customer_banned _ _ _ _ _ _ Hban Hd Hfresh).
      apply banned_record_write_same; eauto.
    - apply banned_record_write_other; assumption. }
  destruct Hcases as [(-> & _)|(-> & _ & _ & _ & Hnot & _)]; [exact Hb2| ].
  destruct (decide ((ct, uid) = (name, k))) as [[= -> ->]|Hne].
  - exfalso. destruct Hb2 as (t2 & it & Ht2 & Hit & Hban & _).
    rewrite (tables_write_item _ _ _ _ _ Ht) in Ht2. injection Ht2 as <-.
    simpl in Hit. rewrite lookup_insert_eq in Hit. injection Hit as <-.
    unfold get in Hnot. rewrite Hban in Hnot. discriminate Hnot.
  - apply banned_record_write_other; assumption.
Qed.

Lemma process_record_keeps_ban (record : stream_record) (st : state)
    (name k : string) (d : option value) :
  banned_record (stores st) name k d ->
  banned_record (stores (snd (Profanity.process_record is_profane record st))) name k d.
Proof.
  intros Hb. unfold Profanity.process_record.
  destruct (negb (eventName record =? "INSERT")%string); [exact Hb| ].
  destruct (NewImage record) as [img| ]; [ |exact Hb].
  unfold bind at 1. rewrite lift_run.
  destruct (image_S img "reviewId") as [e|rid]; [exact Hb| ].
  unfold bind at 1. rewrite lift_run.
  destruct (image_S img "userId") as [e|uid]; [exact Hb| ].
  unfold try_except.
  pose proof (check_review_keeps_ban img rid uid st name k d Hb) as H.
  destruct (Profanity.check_review is_profane img rid uid st) as [[e|[]] st']; exact H.
Qed.

Lemma for_each_keeps_ban (Records : list stream_record) (st : state)
    (name k : string) (d : option value) :
  banned_record (stores st) name k d ->
  banned_record
    (stores (snd (for_each Records (Profanity.process_record is_profane) st))) name k d.
Proof.
  revert st. induction Records as [ |record rest IH]; intros st Hb; [exact Hb| ].
  simpl. unfold bind.
  pose proof (process_record_keeps_ban record st name k d Hb) as H.
  destruct (Profanity.process_record is_profane record st) as [[e|[]] st1]; [exact H| ].
  apply IH, H.
Qed.

(** C2. Whatever batch of notifications the profanity stage processes, and
    whichever service calls fail on the way, a customer record that is
    banned stays banned and keeps its [banDate]; so does one more flagged
    review of a banned user. *)
Theorem ban_is_terminal (Records : list stream_record) (st : state)
    (name user_id : string) (banDate : option value) :
  item_attribute (stores st) name user_id "isBanned" = Some (VBool true) ->
  item_attribute (stores st) name user_id "banDate" = banDate ->
  let st' := snd (Profanity.lambda_handler is_profane Records st) in
  item_attribute (stores st') name user_id "isBanned" = Some (VBool true)
  /\ item_attribute (stores st') name user_id "banDate" = banDate.
Proof.
  intros Hb Hd st'.
  assert (banned_record (stores st) name user_id banDate) as Hrec.
  { unfold item_attribute in Hb, Hd. unfold banned_record.
    destruct (tables (stores st) !! name) as [t| ]; [ |discriminate].
    destruct (items t !! user_id) as [it| ] eqn:Hit; [ |discriminate].
    exists t, it. auto. }
  assert (banned_record (stores st') name user_id banDate) as (t & it & Ht & Hit & Hb' & Hd').
  { subst st'. unfold Profanity.lambda_handler, bind.
    pose proof (for_each_keeps_ban Records st name user_id banDate Hrec) as H.
    destruct (for_each Records (Profanity.process_record is_profane) st) as [[e|[]] st1];
      exact H. }
  unfold item_attribute. rewrite Ht, Hit. auto.
Qed.

End ProfanityBan.

(** State [st] with the stores replaced by [w]. *)
(** Changing the stores by [h] before [m] runs or after it has run comes
    to the same: [m] returns the same result and leaves the same stores. *)
(** [h] keeps the parameters, the buckets and the key of every table. *)
(** [h] keeps the item under [k] of table [name], when its key is [key]. *)
(** [h] commutes with an update of the item under [k] of table [name]. *)
(** [h] commutes with writing item [it] to table [name]. *)
Section Commutation.

Context {A B : Type}.
Variable h : world -> world.

Lemma commutes_ret (a : A) : commutes_with h (ret a).
Proof. intros st. reflexivity. Qed.

Lemma commutes_raise (e : exn) : commutes_with h (@raise A e).
Proof. intros st. reflexivity. Qed.

Lemma commutes_lift (r : exn + A) : commutes_with h (lift r).
Proof. destruct r; intros st; reflexivity. Qed.

Lemma commutes_bind (m : M A) (k : A -> M B) :
  commutes_with h m -> (forall a, commutes_with h (k a)) -> commutes_with h (bind m k).
Proof.
  intros Hm Hk st. unfold bind. rewrite Hm.
  destruct (m st) as [[e|a] st1]; simpl; [reflexivity| ].
  apply Hk.
Qed.

Lemma commutes_try_except (m : M A) (handler : exn -> M A) :
  commutes_with h m -> (forall e, commutes_with h (handler e)) ->
  commutes_with h (try_except m handler).
Proof.
  intros Hm Hh st. unfold try_except. rewrite Hm.
  destruct (m st) as [[e|a] st1]; simpl; [ |reflexivity].
  apply Hh.
Qed.

End Commutation.

Lemma commutes_for_each {A} (h : world -> world) (l : list A) (body : A -> M unit) :
  (forall x, commutes_with h (body x)) -> commutes_with h (for_each l body).
Proof.
  intros Hbody. induction l as [ |x rest IH]; simpl.
  - apply commutes_ret.
  - apply commutes_bind; [apply Hbody|intros _; exact IH].
Qed.

Lemma commutes_print (h : world -> world) (l : line) : commutes_with h (print l).
Proof. intros st. reflexivity. Qed.

Lemma commutes_read_clock (h : world -> world) : commutes_with h read_clock.
Proof. intros st. reflexivity. Qed.

Lemma commutes_call (h : world -> world) : commutes_with h call.
Proof. intros st. unfold call. simpl. destruct (faults st) as [ |[] ?]; reflexivity. Qed.

Lemma call_with_stores (w : world) (st : state) :
  call (with_stores w st) = (fst (call st), with_stores w (snd (call st))).
Proof. unfold call. simpl. destruct (faults st) as [ |[] ?]; reflexivity. Qed.

Lemma commutes_ext {A} (h : world -> world) (m m' : M A) :
  (forall st, m st = m' st) -> commutes_with h m' -> commutes_with h m.
Proof. intros Heq Hm st. rewrite !Heq. apply Hm. Qed.

Lemma commutes_reading {A} (h : world -> world) (f : world -> exn + A) :
  (forall w, f (h w) = f w) -> commutes_with h (reading f).
Proof.
  intros Hf st. unfold reading, bind, get_world.
  rewrite call_with_stores. pose proof (read_only_call st) as Hs.
  destruct (call st) as [[e|[]] st1]; simpl in Hs |- *; [rewrite Hs; reflexivity| ].
  rewrite Hf, <- Hs, !lift_run. reflexivity.
Qed.

Lemma commutes_writing {A} (h : world -> world) (f : world -> exn + (A * world)) :
  (forall w, match f w with
             | inl e => f (h w) = inl e
             | inr (a, w') => f (h w) = inr (a, h w')
             end) ->
  commutes_with h (writing f).
Proof.
  intros Hf st. unfold writing, bind, get_world, put_world.
  rewrite call_with_stores. pose proof (read_only_call st) as Hs.
  destruct (call st) as [[e|[]] st1]; simpl in Hs |- *; [rewrite Hs; reflexivity| ].
  rewrite <- Hs. specialize (Hf (stores st1)).
  destruct (f (stores st1)) as [e|[a w']]; rewrite Hf; reflexivity.
Qed.

(** The same when the value the call returns is not used. *)
Lemma commutes_writing_ignored {A B} (h : world -> world) (f : world -> exn + (A * world))
    (k : M B) :
  (forall w, match f w with
             | inl e => f (h w) = inl e
             | inr (a, w') => exists a', f (h w) = inr (a', h w')
             end) ->
  commutes_with h k ->
  commutes_with h (bind (writing f) (fun _ => k)).
Proof.
  intros Hf Hk st. unfold writing, bind, get_world, put_world.
  rewrite call_with_stores. pose proof (read_only_call st) as Hs.
  destruct (call st) as [[e|[]] st1]; simpl in Hs |- *; [rewrite Hs; reflexivity| ].
  rewrite <- Hs. specialize (Hf (stores st1)).
  destruct (f (stores st1)) as [e|[a w']].
  - rewrite Hf. reflexivity.
  - destruct Hf as [a' ->]. simpl.
    apply (Hk (State (faults st1) (clock st1) (reads st1) (output st1) w')).
Qed.

Lemma ssm_get_parameter_reading (name : string) (st : state) :
  ssm_get_parameter name st = reading (look_parameter name) st.
Proof.
  unfold ssm_get_parameter, reading, look_parameter, bind, get_world.
  destruct (call st) as [[e|[]] st1]; [reflexivity| ].
  destruct (parameters (stores st1) !! name); reflexivity.
Qed.

Lemma s3_get_object_reading (bucket key : string) (st : state) :
  s3_get_object bucket key st = reading (look_object bucket key) st.
Proof.
  unfold s3_get_object, reading, look_object, bind, get_world.
  destruct (call st) as [[e|[]] st1]; [reflexivity| ].
  destruct (buckets (stores st1) !! bucket) as [objects| ]; [ |reflexivity].
  destruct (objects !! key); reflexivity.
Qed.

Lemma get_item_reading (name key k : string) (st : state) :
  get_item name key k st = reading (look_item name key k) st.
Proof.
  unfold get_item, reading, look_item, look_table, table_keyed, bind, get_world.
  destruct (call st) as [[e|[]] st1]; [reflexivity| ].
  destruct (tables (stores st1) !! name) as [t| ]; [ |reflexivity].
  destruct (key_name t =? key)%string; reflexivity.
Qed.

Lemma update_item_writing (name key k : string) (sets : list (string * value)) (st : state) :
  update_item name key k sets st = writing (updated name key k sets) st.
Proof.
  unfold update_item, writing, updated, look_table, table_keyed, store_item, write_item,
    bind, get_world, put_world.
  destruct (call st) as [[e|[]] st1]; [reflexivity| ].
  destruct (tables (stores st1) !! name) as [t| ] eqn:Ht; [ |reflexivity].
  destruct (key_name t =? key)%string; simpl; [ |reflexivity].
  rewrite ?Ht. reflexivity.
Qed.

Lemma put_item_writing (name : string) (it : dict) (st : state) :
  put_item name it st = writing (put name it) st.
Proof.
  unfold put_item, writing, put, store_item, write_item, bind, get_world, put_world.
  destruct (call st) as [[e|[]] st1]; [reflexivity| ].
  destruct (tables (stores st1) !! name) as [t| ] eqn:Ht; [ |reflexivity].
  destruct (it !! key_name t) as [[ | | | |k| ]| ]; simpl; reflexivity.
Qed.

Lemma updated_upsert (name key k : string) (sets : list (string * value)) (w : world)
    (new : dict) (w' : world) :
  updated name key k sets w = inr (new, w') -> w' = upsert name key k sets w.
Proof.
  unfold updated, upsert, look_table.
  destruct (tables w !! name) as [t| ]; [ |discriminate].
  destruct (key_name t =? key)%string; [ |discriminate].
  intros [= _ <-]. reflexivity.
Qed.

Section Primitives.

Variable h : world -> world.
Hypothesis Hschema : keeps_schema h.

Lemma commutes_ssm_get_parameter (name : string) : commutes_with h (ssm_get_parameter name).
Proof.
  apply (commutes_ext _ _ _ (ssm_get_parameter_reading name)), commutes_reading.
  intros w. unfold look_parameter. destruct (Hschema w) as (-> & _). reflexivity.
Qed.

Lemma commutes_s3_get_object (bucket key : string) : commutes_with h (s3_get_object bucket key).
Proof.
  apply (commutes_ext _ _ _ (s3_get_object_reading bucket key)), commutes_reading.
  intros w. unfold look_object. destruct (Hschema w) as (_ & -> & _). reflexivity.
Qed.

Lemma look_table_schema (name key : string) (w : world) :
  match look_table name key w with
  | inl e => look_table name key (h w) = inl e
  | inr t => tables w !! name = Some t /\ key_name t = key
             /\ exists t', look_table name key (h w) = inr t'
                           /\ tables (h w) !! name = Some t'
  end.
Proof.
  unfold look_table. destruct (Hschema w) as (_ & _ & Hk). specialize (Hk name).
  destruct (tables w !! name) as [t| ];
    destruct (tables (h w) !! name) as [t'| ]; simpl in Hk; try discriminate;
    [ |reflexivity].
  injection Hk as ->.
  destruct (String.eqb_spec (key_name t) key); eauto 6.
Qed.

Lemma commutes_get_item (name key k : string) :
  keeps_item h name key k -> commutes_with h (get_item name key k).
Proof.
  intros Hitem.
  apply (commutes_ext _ _ _ (get_item_reading name key k)), commutes_reading.
  intros w. unfold look_item. pose proof (look_table_schema name key w) as H.
  destruct (look_table name key w) as [e|t]; [rewrite H; reflexivity| ].
  destruct H as (Ht & Hkey & t' & -> & Ht').
  destruct (Hitem w t Ht Hkey) as (t'' & Ht'' & Hsame).
  assert (t'' = t') as -> by congruence. rewrite Hsame. reflexivity.
Qed.

Lemma updated_upsert_schema (name key k : string) (sets : list (string * value)) (w : world) :
  commutes_with_upsert h name key k sets ->
  match updated name key k sets w with
  | inl e => updated name key k sets (h w) = inl e
  | inr (new, w') => exists new', updated name key k sets (h w) = inr (new', h w')
  end.
Proof.
  intros Hup. pose proof (look_table_schema name key w) as H.
  destruct (updated name key k sets w) as [e|[new w']] eqn:E.
  - revert E. unfold updated.
    destruct (look_table name key w) as [e'|t]; [ |discriminate].
    intros [= <-]. rewrite H. reflexivity.
  - rewrite (updated_upsert _ _ _ _ _ _ _ E). rewrite Hup.
    revert E. unfold updated.
    destruct (look_table name key w) as [e'|t]; [discriminate| ]. intros _.
    destruct H as (_ & _ & t' & Hlook & _).
    rewrite Hlook. eexists. f_equal. f_equal.
    unfold upsert. revert Hlook. unfold look_table.
    destruct (tables (h w) !! name) as [t0| ]; [ |discriminate].
    destruct (key_name t0 =? key)%string; [ |discriminate].
    intros [= ->]. reflexivity.
Qed.

Lemma commutes_update_item (name key k : string) (sets : list (string * value)) :
  keeps_item h name key k -> commutes_with_upsert h name key k sets ->
  commutes_with h (update_item name key k sets).
Proof.
  intros Hitem Hup.
  apply (commutes_ext _ _ _ (update_item_writing name key k sets)), commutes_writing.
  intros w. pose proof (updated_upsert_schema name key k sets w Hup) as H.
  destruct (updated name key k sets w) as [e|[new w']] eqn:E; [exact H| ].
  destruct H as [new' H]. rewrite H. do 2 f_equal.
  revert E H. unfold updated. pose proof (look_table_schema name key w) as Hl.
  destruct (look_table name key w) as [e'|t]; [discriminate| ].
  destruct Hl as (Ht & Hkey & t' & -> & Ht').
  destruct (Hitem w t Ht Hkey) as (t'' & Ht'' & Hsame).
  assert (t'' = t') as -> by congruence. rewrite Hsame.
  intros [= <- _] [= <- _]. reflexivity.
Qed.

Lemma commutes_update_item_ignored {B} (name key k : string) (sets : list (string * value))
    (rest : M B) :
  commutes_with_upsert h name key k sets -> commutes_with h rest ->
  commutes_with h (bind (update_item name key k sets) (fun _ => rest)).
Proof.
  intros Hup Hrest.
  apply (commutes_ext _ _ (bind (writing (updated name key k sets)) (fun _ => rest))).
  - intros st. unfold bind. rewrite update_item_writing. reflexivity.
  - apply commutes_writing_ignored; [ |exact Hrest].
    intros w. apply updated_upsert_schema, Hup.
Qed.

Lemma commutes_put_item (name : string) (it : dict) :
  commutes_with_write h name it -> commutes_with h (put_item name it).
Proof.
  intros Hwrite.
  apply (commutes_ext _ _ _ (put_item_writing name it)), commutes_writing.
  intros w. unfold put. destruct (Hschema w) as (_ & _ & Hk). specialize (Hk name).
  destruct (tables w !! name) as [t| ] eqn:Ht;
    destruct (tables (h w) !! name) as [t'| ] eqn:Ht'; simpl in Hk; try discriminate;
    [ |reflexivity].
  injection Hk as ->.
  destruct (it !! key_name t) as [[ | | | |k| ]| ] eqn:Hit; try reflexivity.
  rewrite (Hwrite w t k Ht Hit). reflexivity.
Qed.

End Primitives.

Lemma write_item_alter (name k : string) (it : dict) (w : world) :
  write_item name k it w
  = World (parameters w) (buckets w) (alter (write_table k it) name (tables w)).
Proof.
  unfold write_item. destruct (tables w !! name) as [t| ] eqn:Ht.
  - f_equal. apply map_eq. intros n. rewrite lookup_alter, lookup_insert.
    destruct (decide (name = n)) as [<-|Hne]; [rewrite Ht|]; reflexivity.
  - destruct w as [p b ts]. simpl in *. f_equal. apply map_eq. intros n.
    rewrite lookup_alter. destruct (decide (name = n)) as [<-|Hne]; [rewrite Ht|]; reflexivity.
Qed.

Lemma upsert_alter (name key k : string) (sets : list (string * value)) (w : world) :
  upsert name key k sets w
  = World (parameters w) (buckets w) (alter (upsert_table key k sets) name (tables w)).
Proof.
  unfold upsert. destruct (tables w !! name) as [t| ] eqn:Ht.
  - destruct (key_name t =? key)%string eqn:Hk.
    + rewrite write_item_alter. f_equal. apply alter_ext. intros t' Ht'.
      assert (t' = t) as -> by congruence.
      unfold upsert_table, write_table. rewrite Hk. reflexivity.
    + destruct w as [p b ts]. simpl in *. f_equal. apply map_eq. intros n.
      rewrite lookup_alter. destruct (decide (name = n)) as [<-|Hne]; [ |reflexivity].
      rewrite Ht. simpl. unfold upsert_table. rewrite Hk. reflexivity.
  - destruct w as [p b ts]. simpl in *. f_equal. apply map_eq. intros n.
    rewrite lookup_alter. destruct (decide (name = n)) as [<-|Hne]; [rewrite Ht|]; reflexivity.
Qed.

Lemma key_name_upsert_table (key k : string) (sets : list (string * value)) (t : table) :
  key_name (upsert_table key k sets t) = key_name t.
Proof. unfold upsert_table. destruct (key_name t =? key)%string; reflexivity. Qed.

Lemma upsert_table_other (key k : string) (sets : list (string * value)) (t : table) :
  key_name t <> key -> upsert_table key k sets t = t.
Proof.
  intros Hne. unfold upsert_table.
  destruct (String.eqb_spec (key_name t) key); [contradiction|reflexivity].
Qed.

Lemma assigned_none (a : string) (sets : list (string * value)) :
  existsb (String.eqb a) (map fst sets) = false -> assigned a sets = None.
Proof.
  induction sets as [ |[b v] rest IH]; simpl; [reflexivity| ].
  intros H. apply orb_false_iff in H as [Hab Hrest].
  rewrite (IH Hrest), Hab. reflexivity.
Qed.

Lemma assigned_some (a : string) (sets : list (string * value)) :
  existsb (String.eqb a) (map fst sets) = true ->
  In a (map fst sets).
Proof.
  intros H. apply existsb_exists in H as (b & Hin & Hab).
  apply String.eqb_eq in Hab. subst. exact Hin.
Qed.

Lemma disjoint_sets_assigned (s1 s2 : list (string * value)) (a : string) :
  disjoint_sets s1 s2 = true -> assigned a s1 = None \/ assigned a s2 = None.
Proof.
  intros Hd. destruct (existsb (String.eqb a) (map fst s1)) eqn:E1.
  - right. apply assigned_none. apply assigned_some in E1.
    unfold disjoint_sets in Hd. rewrite forallb_forall in Hd.
    specialize (Hd a E1). apply negb_true_iff in Hd. exact Hd.
  - left. apply assigned_none, E1.
Qed.

Lemma assign_comm (s1 s2 : list (string * value)) (it : dict) :
  disjoint_sets s1 s2 = true -> assign s1 (assign s2 it) = assign s2 (assign s1 it).
Proof.
  intros Hd. apply map_eq. intros a. rewrite !lookup_assign.
  destruct (disjoint_sets_assigned s1 s2 a Hd) as [-> | ->];
    destruct (assigned a _); reflexivity.
Qed.

Lemma upsert_table_comm (key1 k1 key2 k2 : string) (s1 s2 : list (string * value))
    (t : table) :
  key1 <> key2 \/ k1 <> k2 \/ disjoint_sets s1 s2 = true ->
  upsert_table key1 k1 s1 (upsert_table key2 k2 s2 t)
  = upsert_table key2 k2 s2 (upsert_table key1 k1 s1 t).
Proof.
  intros Hcond.
  destruct (decide (key_name t = key1)) as [H1|H1];
    [ |rewrite (upsert_table_other key1 k1 s1 t H1);
       apply upsert_table_other; rewrite key_name_upsert_table; exact H1].
  destruct (decide (key_name t = key2)) as [H2|H2];
    [ |rewrite (upsert_table_other key2 k2 s2 t H2);
       symmetry; apply upsert_table_other; rewrite key_name_upsert_table; exact H2].
  assert (key1 = key2) as <- by congruence.
  destruct Hcond as [Hk|Hcond]; [contradiction| ].
  unfold upsert_table. simpl. rewrite H1, String.eqb_refl. simpl. rewrite String.eqb_refl.
  f_equal.
  destruct (decide (k1 = k2)) as [<-|Hne].
  - destruct Hcond as [Hk|Hd]; [contradiction| ].
    rewrite !lookup_insert_eq, !insert_insert_eq. simpl.
    rewrite (assign_comm s1 s2 _ Hd). reflexivity.
  - rewrite !lookup_insert_ne by congruence. apply insert_insert_ne. congruence.
Qed.

Lemma upsert_comm (n1 key1 k1 n2 key2 k2 : string) (s1 s2 : list (string * value))
    (w : world) :
  key1 <> key2 \/ k1 <> k2 \/ disjoint_sets s1 s2 = true ->
  upsert n1 key1 k1 s1 (upsert n2 key2 k2 s2 w)
  = upsert n2 key2 k2 s2 (upsert n1 key1 k1 s1 w).
Proof.
  intros Hcond. rewrite !upsert_alter. simpl. f_equal.
  destruct (decide (n1 = n2)) as [<-|Hne].
  - rewrite !alter_alter_eq. apply alter_ext. intros t _.
    apply upsert_table_comm, Hcond.
  - apply alter_alter_ne, Hne.
Qed.

Lemma keeps_schema_upsert (name key k : string) (sets : list (string * value)) :
  keeps_schema (upsert name key k sets).
Proof.
  intros w. rewrite upsert_alter. simpl. split; [reflexivity| ]. split; [reflexivity| ].
  intros n. rewrite lookup_alter. destruct (decide (name = n)) as [<-|Hne]; [ |reflexivity].
  destruct (tables w !! name) as [t| ]; [ |reflexivity].
  simpl. rewrite key_name_upsert_table. reflexivity.
Qed.

Lemma keeps_item_upsert (n1 key1 k1 : string) (s1 : list (string * value))
    (name key k : string) :
  key <> key1 -> keeps_item (upsert n1 key1 k1 s1) name key k.
Proof.
  intros Hne w t Ht Hkey. rewrite upsert_alter. simpl.
  rewrite lookup_alter. destruct (decide (n1 = name)) as [->|Hn]; [ |eauto].
  rewrite Ht. simpl. rewrite upsert_table_other by congruence. eauto.
Qed.

Lemma commutes_with_write_upsert (n1 key1 k1 : string) (s1 : list (string * value))
    (name : string) (it : dict) :
  it !! key1 = None -> commutes_with_write (upsert n1 key1 k1 s1) name it.
Proof.
  intros Hit w t k Ht Hk. rewrite !upsert_alter, !write_item_alter. simpl. f_equal.
  destruct (decide (n1 = name)) as [->|Hne].
  - rewrite !alter_alter_eq. apply alter_ext. intros t' Ht'.
    assert (t' = t) as -> by congruence. simpl.
    assert (key_name t <> key1) as Hkey by (intros E; rewrite E in Hk; congruence).
    rewrite (upsert_table_other key1 k1 s1 t Hkey).
    apply upsert_table_other. exact Hkey.
  - apply alter_alter_ne, Hne.
Qed.

Create HintDb commutes.

#[local] Hint Resolve commutes_ret commutes_raise commutes_lift commutes_print
  commutes_read_clock commutes_call : commutes.

Ltac commutes_tac :=
  repeat first
    [ solve [auto with commutes]
    | apply commutes_update_item_ignored
    | apply commutes_bind; [ |intros ?]
    | apply commutes_try_except; [ |intros ?]
    | match goal with
      | |- commutes_with _ (match ?x with _ => _ end) => destruct x
      | |- commutes_with _ (if ?x then _ else _) => destruct x
      | |- commutes_with _ (let (_, _) := ?x in _) => destruct x
      end ].

Section ProfanityBystander.

Variable is_profane : value -> exn + bool.

(** A change of the stores the profanity stage neither sees nor undoes. *)
Variable g : world -> world.
Hypothesis Hschema : keeps_schema g.
Hypothesis Hcustomer : forall ct uid, keeps_item g ct "userId" uid.
Hypothesis Hcustomer_update :
  forall ct uid sets, commutes_with_upsert g ct "userId" uid sets.
Hypothesis Hcustomer_new :
  forall ct uid hp now,
    commutes_with_write g ct (Profanity.new_customer_item uid hp now).
Hypothesis Hreview :
  forall rid hp lastUpdated,
    commutes_with_upsert g "reviews" "reviewId" rid (review_update hp lastUpdated).

#[local] Hint Resolve commutes_ssm_get_parameter commutes_s3_get_object
  commutes_get_item commutes_update_item commutes_put_item : commutes.

Lemma commutes_review_texts (img : image) : commutes_with g (Profanity.review_texts img).
Proof. unfold Profanity.review_texts. commutes_tac. Qed.

Lemma commutes_track_customer (ct uid : string) (hp : bool) (now : string) :
  commutes_with g (Profanity.track_customer ct uid hp now).
Proof. unfold Profanity.track_customer. commutes_tac. Qed.

Lemma commutes_apply_ban (ct uid : string) (customer : dict) (now : string) :
  commutes_with g (Profanity.apply_ban ct uid customer now).
Proof. unfold Profanity.apply_ban. commutes_tac. Qed.

Lemma commutes_check_review (img : image) (rid uid : string) :
  commutes_with g (Profanity.check_review is_profane img rid uid).
Proof.
  unfold Profanity.check_review.
  apply commutes_bind; [apply commutes_review_texts|intros texts].
  apply commutes_bind; [apply commutes_lift|intros hp].
  apply commutes_bind; [apply commutes_print|intros _].
  apply commutes_bind; [apply commutes_read_clock|intros t].
  apply commutes_update_item_ignored; [exact Hschema|apply Hreview| ].
  apply commutes_bind; [apply commutes_ssm_get_parameter, Hschema|intros ct].
  apply commutes_bind; [apply commutes_read_clock|intros t'].
  apply commutes_bind; [apply commutes_track_customer|intros [customer| ]].
  - apply commutes_apply_ban.
  - apply commutes_ret.
Qed.

Lemma commutes_profanity_record (record : stream_record) :
  commutes_with g (Profanity.process_record is_profane record).
Proof.
  unfold Profanity.process_record.
  destruct (negb _); [apply commutes_ret| ].
  destruct (NewImage record) as [img| ]; [ |apply commutes_raise].
  apply commutes_bind; [apply commutes_lift|intros rid].
  apply commutes_bind; [apply commutes_lift|intros uid].
  apply commutes_try_except; [apply commutes_check_review|intros e; apply commutes_print].
Qed.

Lemma commutes_profanity_handler (Records : list stream_record) :
  commutes_with g (Profanity.lambda_handler is_profane Records).
Proof.
  unfold Profanity.lambda_handler.
  apply commutes_bind; [ |intros _; apply commutes_ret].
  apply commutes_for_each, commutes_profanity_record.
Qed.

End ProfanityBystander.

Lemma schema_write_item (name k : string) (it : dict) (w : world) :
  parameters (write_item name k it w) = parameters w
  /\ buckets (write_item name k it w) = buckets w
  /\ forall n, key_name <$> tables (write_item name k it w) !! n = key_name <$> tables w !! n.
Proof.
  rewrite write_item_alter. simpl. split; [reflexivity| ]. split; [reflexivity| ].
  intros n. rewrite lookup_alter. destruct (decide (name = n)) as [<-|Hne]; [ |reflexivity].
  destruct (tables w !! name); reflexivity.
Qed.

Lemma same_schema_refl (w : world) : same_schema w w.
Proof. repeat split. Qed.

Lemma same_schema_trans (w1 w2 w3 : world) :
  same_schema w1 w2 -> same_schema w2 w3 -> same_schema w1 w3.
Proof.
  intros (Hp & Hb & Hk) (Hp' & Hb' & Hk').
  split; [congruence| ]. split; [congruence| ].
  intros n. rewrite Hk', Hk. reflexivity.
Qed.

Lemma same_schema_write_item (name k : string) (it : dict) (w : world) :
  same_schema w (write_item name k it w).
Proof. apply schema_write_item. Qed.

Lemma same_schema_upsert (name key k : string) (sets : list (string * value)) (w : world) :
  same_schema w (upsert name key k sets w).
Proof. apply keeps_schema_upsert. Qed.

Section ProfanitySchema.

Variable is_profane : value -> exn + bool.

Lemma check_review_schema (img : image) (rid uid : string) (st : state) :
  same_schema (stores st) (stores (snd (Profanity.check_review is_profane img rid uid st))).
Proof.
  pose proof (check_review_cases is_profane img rid uid st) as Hcases.
  destruct (Profanity.check_review is_profane img rid uid st) as [r st']. simpl.
  destruct Hcases as [(-> & _)|(hp & Hcases)]; [apply same_schema_refl| ].
  destruct Hcases as [(-> & _)|(lastUpdated & tr & _ & Htr & Hkr & Hcases)];
    [apply same_schema_refl| ].
  cbv zeta in Hcases.
  pose proof (same_schema_upsert "reviews" "reviewId" rid (review_update hp lastUpdated)
                (stores st)) as H1.
  destruct Hcases as [(-> & _)|(ct & now & _ & Hct & Hcases)]; [exact H1| ].
  destruct Hcases as [(-> & _)|(t & fresh & Ht & Hkey & Hfresh & Hcases)]; [exact H1| ].
  cbv zeta in Hcases.
  pose proof (same_schema_trans _ _ _ H1 (same_schema_write_item ct uid fresh _)) as H2.
  destruct Hcases as [(-> & _)|(-> & _)]; [exact H2| ].
  exact (same_schema_trans _ _ _ H2 (same_schema_write_item _ _ _ _)).
Qed.

Lemma profanity_record_schema (record : stream_record) (st : state) :
  same_schema (stores st) (stores (snd (Profanity.process_record is_profane record st))).
Proof.
  unfold Profanity.process_record.
  destruct (negb _); [apply same_schema_refl| ].
  destruct (NewImage record) as [img| ]; [ |apply same_schema_refl].
  unfold bind at 1. rewrite lift_run.
  destruct (image_S img "reviewId") as [e|rid]; [apply same_schema_refl| ].
  unfold bind at 1. rewrite lift_run.
  destruct (image_S img "userId") as [e|uid]; [apply same_schema_refl| ].
  unfold try_except.
  pose proof (check_review_schema img rid uid st) as H.
  destruct (Profanity.check_review is_profane img rid uid st) as [[e|[]] st']; exact H.
Qed.

Lemma profanity_handler_schema (Records : list stream_record) (st : state) :
  same_schema (stores st) (stores (snd (Profanity.lambda_handler is_profane Records st))).
Proof.
  unfold Profanity.lambda_handler, bind.
  assert (same_schema (stores st)
            (stores (snd (for_each Records (Profanity.process_record is_profane) st)))) as H.
  { revert st. induction Records as [ |record rest IH]; intros st; [apply same_schema_refl| ].
    simpl. unfold bind.
    pose proof (profanity_record_schema record st) as H.
    destruct (Profanity.process_record is_profane record st) as [[e|[]] st1]; [exact H| ].
    exact (same_schema_trans _ _ _ H (IH st1)). }
  destruct (for_each Records (Profanity.process_record is_profane) st) as [[e|[]] st1];
    exact H.
Qed.

End ProfanitySchema.

Section SentimentBystander.

Variable polarity_compound : string -> exn + Q.
Variable float_of_string : string -> option Q.

(** A change of the stores the sentiment stage neither sees nor undoes. *)
Variable h : world -> world.
Hypothesis Hschema : keeps_schema h.
Hypothesis Hsentiment :
  forall name rid sentiment,
    commutes_with_upsert h name "reviewId" rid (sentiment_update sentiment).

Lemma commutes_sentiment_record (name : string) (record : stream_record) :
  commutes_with h
    (Sentiment.process_record polarity_compound float_of_string name record).
Proof.
  unfold Sentiment.process_record.
  destruct (negb _); [apply commutes_ret| ].
  apply commutes_bind; [apply commutes_lift|intros rid].
  apply commutes_bind; [apply commutes_lift|intros location].
  apply commutes_bind; [apply commutes_s3_get_object, Hschema|intros data].
  apply commutes_bind; [apply commutes_lift|intros summary].
  apply commutes_bind; [apply commutes_lift|intros review_text].
  apply commutes_bind; [apply commutes_lift|intros sentiment].
  apply commutes_try_except; [ |intros e; apply commutes_print].
  apply commutes_update_item_ignored;
    [exact Hschema|apply Hsentiment|apply commutes_print].
Qed.

Lemma commutes_sentiment_handler (Records : list stream_record) :
  commutes_with h
    (Sentiment.lambda_handler polarity_compound float_of_string Records).
Proof.
  unfold Sentiment.lambda_handler.
  apply commutes_bind; [apply commutes_ssm_get_parameter, Hschema|intros name].
  apply commutes_bind; [ |intros _; apply commutes_ret].
  apply commutes_for_each, commutes_sentiment_record.
Qed.

End SentimentBystander.

Lemma stores_after_commutes {A} (h : world -> world) (m : M A) (env : state) (w : world) :
  commutes_with h m -> stores_after m env (h w) = h (stores_after m env w).
Proof.
  intros Hm. unfold stores_after.
  specialize (Hm (with_stores w env)). simpl in Hm.
  change (with_stores (h w) (with_stores w env)) with (with_stores (h w) env) in Hm.
  rewrite Hm. reflexivity.
Qed.

(** C8. The profanity stage and the sentiment stage commute on the stores:
    whatever notifications each of them is given, whichever of their
    service calls fail and whatever its clock reads, running the sentiment
    stage after the profanity stage leaves every record as running them
    in the opposite order does. *)
Theorem stages_commute (is_profane : value -> exn + bool)
    (polarity_compound : string -> exn + Q) (float_of_string : string -> option Q)
    (profanity_records sentiment_records : list stream_record)
    (profanity_env sentiment_env : state) (w : world) :
  let profanity :=
    stores_after (Profanity.lambda_handler is_profane profanity_records) profanity_env in
  let sentiment :=
    stores_after
      (Sentiment.lambda_handler polarity_compound float_of_string sentiment_records)
      sentiment_env in
  sentiment (profanity w) = profanity (sentiment w).
Proof.
  intros profanity sentiment. unfold sentiment.
  apply stores_after_commutes, commutes_sentiment_handler.
  - intros w'. apply (profanity_handler_schema is_profane profanity_records
                        (with_stores w' profanity_env)).
  - intros name rid s w'. unfold profanity.
    apply stores_after_commutes, commutes_profanity_handler.
    + apply keeps_schema_upsert.
    + intros ct uid. apply keeps_item_upsert. discriminate.
    + intros ct uid sets w''. apply upsert_comm. left. discriminate.
    + intros ct uid hp now. apply commutes_with_write_upsert.
      destruct hp; reflexivity.
    + intros rid' hp lastUpdated w''. apply upsert_comm. right. right. reflexivity.
Qed.

Section SentimentClassification.

Variable polarity_compound : string -> exn + Q.

Import SentimentPolicy.

(** C4. Whatever the summary, the review text and the rating, the
    sentiment stage classifies the compound score of the scorer by the
    three rules of the policy, tried in order; a compound of exactly 0.5 is
    positive, a compound of 0.1 with rating 5 is positive and a compound of
    -0.1 with rating 3 is neutral. *)
Theorem sentiment_follows_policy (summary review_text : string) (overall compound : Q) :
  polarity_compound (strip summary +:+ " " +:+ strip review_text) = inr compound ->
  let label := Sentiment.analyze_sentiment polarity_compound summary review_text overall in
  (forall l, label = inr l <-> classifies compound overall l)
  /\ (compound == 1 # 2 -> label = inr "positive")%Q
  /\ (compound == 1 # 10 -> overall == 5 -> label = inr "positive")%Q
  /\ (compound == - (1 # 10) -> overall == 3 -> label = inr "neutral")%Q.
Proof.
  intros Hscore label.
  destruct (analyze_sentiment_classifies polarity_compound summary review_text overall
              compound Hscore) as (l0 & Hl0 & Hc0).
  fold label in Hl0.
  assert (forall l, classifies compound overall l -> label = inr l) as Hfrom.
  { intros l Hl. rewrite Hl0. f_equal. exact (classifies_functional _ _ _ _ Hc0 Hl). }
  split; [ |split; [ |split]].
  - intros l. split; [ |apply Hfrom].
    rewrite Hl0. intros [= <-]. exact Hc0.
  - intros Hc. apply Hfrom, first_positive. left. rewrite Hc. apply Qle_refl.
  - intros Hc Ho. apply Hfrom, first_positive. right.
    split; [rewrite Hc; reflexivity| ]. apply implied_positive. rewrite Ho. discriminate.
  - intros Hc Ho. apply Hfrom, otherwise_neutral.
    + intros [H|[H _]]; rewrite Hc in H; [apply H; reflexivity|discriminate H].
    + intros [H|[_ H]]; [rewrite Hc in H; apply H; reflexivity| ].
      apply implied_negative_iff in H. rewrite Ho in H. apply H. reflexivity.
Qed.

End SentimentClassification.

(** C4 at a text the sample scorer gives 0.8, with rating 3. *)
Lemma sentiment_follows_policy_witness :
  Sentiment.analyze_sentiment Samples.polarity_compound " great " "value" 3 = inr "positive".
Proof.
  destruct (sentiment_follows_policy Samples.polarity_compound " great " "value" 3 (8 # 10))
    as [H _]; [reflexivity| ].
  apply H, SentimentPolicy.first_positive. left. discriminate.
Defined.

Section ReviewIdentifier.

Variable repr_other : value -> string.


End ReviewIdentifier.



(** C5 at a payload without [overall]. *)
Lemma missing_field_rejected_witness :
  let handler :=
    Preprocess.lambda_handler Samples.canonicalize Samples.to_float Samples.to_decimal
      Samples.utcfromtimestamp_iso Samples.strptime_iso Samples.repr_other in
  let w :=
    World Samples.configuration
          (<["raw" := {[ "u1/r1.json" := delete "overall" Samples.profane_review ]}]>
             Samples.uploads)
          (tables (Samples.world_with ∅)) in
  stores (snd (handler Samples.r1_uploaded (Samples.start w))) = w
  /\ fst (handler Samples.r1_uploaded (Samples.start w))
     = inr (Preprocess.Response500 "Missing required field: overall").
Proof.
  intros handler w.
  destruct (missing_field_rejected Samples.canonicalize Samples.to_float Samples.to_decimal
              Samples.utcfromtimestamp_iso Samples.strptime_iso Samples.repr_other
              (Samples.start w) "raw" "u1/r1.json" []
              {[ "u1/r1.json" := delete "overall" Samples.profane_review ]}
              (delete "overall" Samples.profane_review) "overall")
    as (Hstores & _ & Herror); [reflexivity|reflexivity|reflexivity| ].
  split; [exact Hstores| ].
  apply Herror; [reflexivity| | | ]; vm_compute; eauto.
Defined.

(** C1, as stated, fails: the second delivery of the notification of one
    flagged review is counted again. *)
Lemma redelivery_counts_twice :
  let first :=
    Profanity.lambda_handler Samples.is_profane [Samples.r1_inserted]
      (Samples.start (Samples.world_with ∅)) in
  let second :=
    Profanity.lambda_handler Samples.is_profane [Samples.r1_inserted]
      (Samples.start (stores (snd first))) in
  item_attribute (stores (snd first)) "customers" "u1" "violationCount" = Some (VInt 1)
  /\ item_attribute (stores (snd second)) "customers" "u1" "violationCount"
     = Some (VInt 2).
Proof. vm_compute. split; reflexivity. Qed.

(** C1, as the code has it, at the third flagged review of a customer,
    delivered twice. *)
Lemma violation_count_counts_deliveries_witness :
  let st := Samples.start (Samples.world_with {[ "u1" := Samples.flagged_customer 2 None ]}) in
  let st' := snd (Profanity.process_record Samples.is_profane Samples.r1_inserted st) in
  let st'' :=
    snd (Profanity.process_record Samples.is_profane Samples.r1_inserted
           (Samples.start (stores st'))) in
  item_attribute (stores st') "customers" "u1" "violationCount" = Some (VInt 3)
  /\ item_attribute (stores st'') "customers" "u1" "violationCount" = Some (VInt 4).
Proof.
  intros st st' st''.
  destruct (violation_count_counts_deliveries Samples.is_profane Samples.r1_inserted
              Samples.r1_image "r1" "u1" st "customers"
              (Table "userId" {[ "u1" := Samples.flagged_customer 2 None ]}) 2)
    as [Hfirst Hsecond];
    [reflexivity|reflexivity|reflexivity|reflexivity|reflexivity|reflexivity
    |reflexivity| | | | ].
  - vm_compute. reflexivity.
  - vm_compute. reflexivity.
  - vm_compute. left. reflexivity.
  - split; [exact Hfirst| ].
    apply (Hsecond (Samples.start (stores st'))); [reflexivity| | ].
    + vm_compute. reflexivity.
    + vm_compute. left. reflexivity.
Defined.

(** C10, as stated, fails: the stage adds 1 in [Decimal] arithmetic, which
    keeps 28 digits. A customer whose [totalReviews] is [10^28 + 1] is left
    with [10^28] by a notification that is processed without an error. *)
Lemma long_total_is_rounded :
  let customer :=
    <["violationCount" := VInt 0]> (Samples.flagged_customer (10 ^ 28 + 1) None) in
  let st := Samples.start (Samples.world_with {[ "u1" := customer ]}) in
  let st' := snd (Profanity.process_record Samples.is_profane Samples.r1_inserted st) in
  succeeded st st'
  /\ item_attribute (stores st) "customers" "u1" "totalReviews" = Some (VInt (10 ^ 28 + 1))
  /\ item_attribute (stores st') "customers" "u1" "totalReviews" = Some (VInt (10 ^ 28)).
Proof. vm_compute. repeat split; reflexivity. Qed.

(** C10, as the code has it, at the third review of a customer, delivered
    twice. *)
Lemma total_reviews_counts_deliveries_witness :
  let st := Samples.start (Samples.world_with {[ "u1" := Samples.flagged_customer 2 None ]}) in
  let st' := snd (Profanity.process_record Samples.is_profane Samples.r1_inserted st) in
  let st'' :=
    snd (Profanity.process_record Samples.is_profane Samples.r1_inserted
           (Samples.start (stores st'))) in
  item_attribute (stores st') "customers" "u1" "totalReviews" = Some (VInt 3)
  /\ item_attribute (stores st'') "customers" "u1" "totalReviews" = Some (VInt 4).
Proof.
  intros st st' st''.
  destruct (total_reviews_counts_deliveries Samples.is_profane Samples.r1_inserted
              Samples.r1_image "r1" "u1" st "customers"
              (Table "userId" {[ "u1" := Samples.flagged_customer 2 None ]}) 2)
    as [Hfirst Hsecond];
    [reflexivity|reflexivity|reflexivity|reflexivity|reflexivity|reflexivity
    |reflexivity| | | ].
  - vm_compute. reflexivity.
  - vm_compute. reflexivity.
  - split; [exact Hfirst| ].
    apply (Hsecond (Samples.start (stores st'))); [reflexivity| ].
    vm_compute. reflexivity.
Defined.

(** C3 at the fourth flagged review of a customer, with threshold 4: the
    second reading of the sample clock is the [banDate]. *)
Lemma ban_decided_on_fresh_count_witness :
  let st := Samples.start (Samples.world_with {[ "u1" := Samples.flagged_customer 3 None ]}) in
  let st' := snd (Profanity.process_record Samples.is_profane Samples.r1_inserted st) in
  item_attribute (stores st') "customers" "u1" "violationCount" = Some (VInt 4)
  /\ item_attribute (stores st') "customers" "u1" "isBanned" = Some (VBool true)
  /\ item_attribute (stores st') "customers" "u1" "banDate"
     = Some (VStr "2025-06-01T12:00:11").
Proof.
  intros st st'.
  pose proof (ban_decided_on_fresh_count Samples.is_profane Samples.r1_inserted
                Samples.r1_image "r1" "u1" st "customers"
                (Table "userId" {[ "u1" := Samples.flagged_customer 3 None ]}) "4" 4) as H.
  cbv zeta in H.
  destruct H as (count & reached & _ & Hk & Hcount & _ & Hban & _);
    [reflexivity|reflexivity|reflexivity|reflexivity|reflexivity|reflexivity
    |reflexivity|reflexivity|lia| | | ].
  - vm_compute. reflexivity.
  - vm_compute. left. reflexivity.
  - destruct (Hk 3 eq_refl) as (-> & -> & _).
    assert ((4 <=? fix_int (3 + 1)) && negb (is_banned (stores st) "customers" "u1") = true)
      as Hyes by (vm_compute; reflexivity).
    rewrite Hyes in Hban. exact (conj Hcount Hban).
Defined.

(** C2 at a fifth flagged review of a customer banned at the fourth. *)
Lemma ban_is_terminal_witness :
  let w := Samples.world_with {[ "u1" := Samples.flagged_customer 4 (Some "2025-05-31T08:00:00") ]} in
  let st' :=
    snd (Profanity.lambda_handler Samples.is_profane [Samples.r1_inserted] (Samples.start w)) in
  item_attribute (stores st') "customers" "u1" "isBanned" = Some (VBool true)
  /\ item_attribute (stores st') "customers" "u1" "banDate"
     = Some (VStr "2025-05-31T08:00:00").
Proof.
  intros w st'.
  apply (ban_is_terminal Samples.is_profane [Samples.r1_inserted] (Samples.start w)
           "customers" "u1" (Some (VStr "2025-05-31T08:00:00"))); reflexivity.
Defined.

(** C7 at a batch whose first notification points to an object that is not
    in the bucket. The sentiment stage catches only the failure of its
    record update (lines 179-190): the failed read leaves the handler as an
    exception and the second notification is never looked at, although the
    stage classifies it when it comes alone. The profanity stage, given the
    same batch, prints the failure of the first record and processes the
    second. *)
Theorem sentiment_batch_stops_at_failed_record :
  let batch := [Samples.r0_inserted; Samples.r1_inserted] in
  let st := Samples.start (Samples.world_with ∅) in
  let sentiment :=
    Sentiment.lambda_handler Samples.polarity_compound Samples.float_of_string in
  let profanity := Profanity.lambda_handler Samples.is_profane in
  fst (sentiment batch st) = inl (ClientError "NoSuchKey")
  /\ output (snd (sentiment batch st)) = []
  /\ item_attribute (stores (snd (sentiment batch st))) "reviews" "r1" "sentiment" = None
  /\ item_attribute (stores (snd (sentiment [Samples.r1_inserted] st)))
       "reviews" "r1" "sentiment" = Some (VStr "negative")
  /\ fst (profanity batch st) = inr 200
  /\ output (snd (profanity batch st))
     = [ RecordError "r0" (ClientError "NoSuchKey");
         ProfanityChecked "r1" true;
         CustomerCreated "u1" (VInt 1) ].
Proof. vm_compute. repeat split; reflexivity. Qed.


Lemma get_ssm_param_cases (name : string) (st : state) :
  match Preprocess.get_ssm_param name st with
  | (inl e, st') => silent st st'
  | (inr v, st') =>
      silent st st' /\ parameters (stores st) !! name = Some v
      /\ forall n, fault_within (S n) st -> fault_within n st'
  end.
Proof.
  unfold Preprocess.get_ssm_param, try_except, ssm_get_parameter, bind, call, get_world,
    fault_within, silent.
  destruct st as [fs clk rd out w]. simpl.
  destruct fs as [ |[] fs]; simpl; auto.
  - destruct (parameters w !! name); simpl; auto.
    split; [auto| ]. split; [reflexivity| ]. intros n. rewrite take_nil. discriminate.
  - destruct (parameters w !! name); simpl; auto.
Qed.

Section Configuration.

Variable is_profane : value -> exn + bool.
Variable polarity_compound : string -> exn + Q.
Variable float_of_string : string -> option Q.
Variable canonicalize : string -> exn + string.
Variable to_float : value -> exn + Q.
Variable to_decimal : value -> exn + value.
Variable utcfromtimestamp_iso : value -> exn + string.
Variable strptime_iso : value -> option string.
Variable repr_other : value -> string.






End Configuration.


(** * Further properties of the handlers *)

(** ** Strings taken apart and put together *)

Lemma drop_prefix_app (p s : string) : drop_prefix p (p +:+ s) = Some s.
Proof.
  induction p as [ |c p IH]; simpl; [destruct s; reflexivity| ].
  rewrite Ascii.eqb_refl. exact IH.
Qed.

Lemma drop_prefix_inv (p s rest : string) : drop_prefix p s = Some rest -> s = p +:+ rest.
Proof.
  revert s. induction p as [ |c p IH]; intros s; simpl.
  - destruct s; intros [= <-]; reflexivity.
  - destruct s as [ |c' s]; [discriminate| ].
    destruct (Ascii.eqb_spec c c') as [<-|]; [ |discriminate].
    intros H. rewrite (IH _ H). reflexivity.
Qed.

Lemma split_once_app (sep : ascii) (a b : string) :
  has_char sep a = false -> split_once sep (a +:+ String sep b) = Some (a, b).
Proof.
  induction a as [ |c a IH]; simpl.
  - intros _. rewrite Ascii.eqb_refl. reflexivity.
  - intros H. apply orb_false_iff in H as [Hc Ha]. rewrite Hc, (IH Ha). reflexivity.
Qed.

Lemma split_once_inv (sep : ascii) (s a b : string) :
  split_once sep s = Some (a, b) -> s = a +:+ String sep b /\ has_char sep a = false.
Proof.
  revert a. induction s as [ |c s IH]; intros a; simpl; [discriminate| ].
  destruct (Ascii.eqb_spec c sep) as [->|Hne].
  - intros [= <- <-]. split; reflexivity.
  - destruct (split_once sep s) as [[a' b']| ]; [ |discriminate].
    intros [= <- <-]. destruct (IH a' eq_refl) as [-> Ha]. simpl.
    split; [reflexivity| ]. rewrite Ha, orb_false_r. apply Ascii.eqb_neq, Hne.
Qed.

Lemma take_until_keeps (stop : ascii) (s : string) :
  has_char stop s = false -> take_until stop s = s.
Proof.
  induction s as [ |c s IH]; simpl; [reflexivity| ].
  intros H. apply orb_false_iff in H as [Hc Hs]. rewrite Hc, (IH Hs). reflexivity.
Qed.

Lemma take_until_inv (stop : ascii) (s : string) :
  has_char stop (take_until stop s) = false
  /\ exists rest, s = take_until stop s +:+ rest
                  /\ (rest = "" \/ exists rest', rest = String stop rest').
Proof.
  induction s as [ |c s (IH & rest & Hs & Hrest)]; simpl.
  - split; [reflexivity| ]. exists "". auto.
  - destruct (Ascii.eqb_spec c stop) as [->|Hne]; simpl.
    + split; [reflexivity| ]. exists (String stop s). eauto.
    + split.
      * rewrite IH, orb_false_r. apply Ascii.eqb_neq, Hne.
      * exists rest. split; [rewrite Hs at 1; reflexivity|exact Hrest].
Qed.

(** ** Locations of objects *)

Lemma parse_s3_uri_app (bucket key : string) :
  bucket <> "" -> key <> "" ->
  has_char "/" bucket = false -> has_char newline key = false ->
  Sentiment.parse_s3_uri ("s3://" +:+ bucket +:+ "/" +:+ key) = inr (bucket, key).
Proof.
  intros Hb Hk Hslash Hline. unfold Sentiment.parse_s3_uri.
  rewrite drop_prefix_app.
  change ("/" +:+ key) with (String "/" key).
  rewrite (split_once_app _ _ _ Hslash).
  fold newline. rewrite (take_until_keeps _ _ Hline).
  destruct (String.eqb_spec bucket ""); [contradiction| ].
  destruct (String.eqb_spec key ""); [contradiction| ]. reflexivity.
Qed.

(** X1. A location [s3://bucket/key] is taken apart into its bucket and its
    key, when the bucket is not empty and has no slash and the key is not
    empty and has no line feed. *)
Theorem parse_s3_uri_round_trip (bucket key : string) :
  bucket <> "" -> key <> "" ->
  has_char "/" bucket = false -> has_char newline key = false ->
  Sentiment.parse_s3_uri ("s3://" +:+ bucket +:+ "/" +:+ key) = inr (bucket, key).
Proof. exact (parse_s3_uri_app bucket key). Qed.

(** X1 at the location of a processed object. *)
Lemma parse_s3_uri_round_trip_witness :
  Sentiment.parse_s3_uri ("s3://" +:+ "processed" +:+ "/" +:+ "preprocessed/u1/r1.json")
  = inr ("processed", "preprocessed/u1/r1.json").
Proof. apply parse_s3_uri_round_trip; [discriminate|discriminate|reflexivity|reflexivity]. Defined.

(** X2. Whatever it is given, [parse_s3_uri] either raises the [ValueError]
    that names the text, or returns a bucket and a key that are not empty,
    the bucket without a slash and the key without a line feed, such that
    the text is [s3://bucket/key], possibly followed by further lines. *)
Theorem parse_s3_uri_outcome (uri : string) :
  match Sentiment.parse_s3_uri uri with
  | inl e => e = ValueError ("Invalid S3 URI: " +:+ uri)
  | inr (bucket, key) =>
      bucket <> "" /\ key <> ""
      /\ has_char "/" bucket = false /\ has_char newline key = false
      /\ exists rest,
           uri = "s3://" +:+ bucket +:+ "/" +:+ key +:+ rest
           /\ (rest = "" \/ exists rest', rest = String newline rest')
  end.
Proof.
  unfold Sentiment.parse_s3_uri.
  destruct (drop_prefix "s3://" uri) as [rest| ] eqn:Hprefix; [ |reflexivity].
  apply drop_prefix_inv in Hprefix.
  destruct (split_once "/" rest) as [[bucket tail]| ] eqn:Hsplit; [ |reflexivity].
  apply split_once_inv in Hsplit as [-> Hslash].
  fold newline.
  destruct (take_until_inv newline tail) as (Hline & rest' & Htail & Hrest').
  destruct (String.eqb_spec bucket ""); [reflexivity| ].
  destruct (String.eqb_spec (take_until newline tail) ""); [reflexivity| ].
  simpl. repeat (split; [assumption| ]).
  exists rest'. split; [ |exact Hrest'].
  rewrite Hprefix. rewrite Htail at 1. reflexivity.
Qed.

Lemma remove_all_absent (fuel : nat) (old s : string) :
  Samples.occurs old s = false -> remove_all fuel old s = s.
Proof.
  revert s. induction fuel as [ |fuel IH]; intros s; [reflexivity| ].
  destruct s as [ |c s]; simpl.
  - destruct (drop_prefix old ""); [discriminate|reflexivity].
  - destruct (drop_prefix old (String c s)); [discriminate| ].
    intros H. rewrite (IH _ H). reflexivity.
Qed.

(** X3. When the stream image carries no inline text and its
    [originalTextLocation] is [s3://bucket/key], with a bucket without slash
    and no further [s3://] inside, the profanity stage reads the review text
    and the summary from the object under [key] of [bucket]. *)
Theorem review_texts_reads_location (img : image) (bucket key : string) (st : state) :
  img !! "originalReviewText" = None ->
  img !! "originalTextLocation" = Some (AttrS ("s3://" +:+ bucket +:+ "/" +:+ key)) ->
  has_char "/" bucket = false ->
  Samples.occurs "s3://" (bucket +:+ "/" +:+ key) = false ->
  Profanity.review_texts img st
  = (review_data <- s3_get_object bucket key ;;
     ret (get review_data "reviewText" (VStr ""), get review_data "summary" (VStr ""))) st.
Proof.
  intros Hinline Hlocation Hslash Habsent. unfold Profanity.review_texts.
  rewrite Hinline. unfold image_S. rewrite Hlocation.
  unfold bind at 1. rewrite lift_run. cbv beta iota.
  change (remove_all _ _ _) with
    (remove_all (String.length ("s3://" +:+ bucket +:+ "/" +:+ key)) "s3://"
       (bucket +:+ "/" +:+ key)).
  rewrite (remove_all_absent _ _ _ Habsent).
  change ("/" +:+ key) with (String "/" key).
  rewrite (split_once_app _ _ _ Hslash). reflexivity.
Qed.

(** X3 at the notification of review [r1]. *)
Lemma review_texts_reads_location_witness :
  Profanity.review_texts Samples.r1_image (Samples.start (Samples.world_with ∅))
  = (inr (VStr "damn bad product", VStr "awful"), Samples.start (Samples.world_with ∅)).
Proof.
  rewrite (review_texts_reads_location Samples.r1_image "raw" "u1/r1.json");
    reflexivity.
Defined.

Section SentimentOrder.

Variable polarity_compound : string -> exn + Q.

(** X4. The label grows with the compound score and with the rating: a text
    the scorer rates at least as high, with a rating at least as high, is
    never given a lower label (negative below neutral below positive). *)
Theorem sentiment_monotone (summary review_text summary' review_text' : string)
    (overall overall' compound compound' : Q) (label label' : string) :
  polarity_compound (strip summary +:+ " " +:+ strip review_text) = inr compound ->
  polarity_compound (strip summary' +:+ " " +:+ strip review_text') = inr compound' ->
  (compound <= compound')%Q -> (overall <= overall')%Q ->
  Sentiment.analyze_sentiment polarity_compound summary review_text overall = inr label ->
  Sentiment.analyze_sentiment polarity_compound summary' review_text' overall' = inr label' ->
  sentiment_rank label <= sentiment_rank label'.
Proof.
  intros Hscore Hscore' Hc Ho. unfold Sentiment.analyze_sentiment.
  rewrite Hscore, Hscore'.
  destruct (Qle_bool 4 overall) eqn:H4;
    [apply Qle_bool_iff in H4 | apply Qle_bool_false in H4].
  all: destruct (Qle_bool overall 2) eqn:H2;
    [apply Qle_bool_iff in H2 | apply Qle_bool_false in H2].
  all: destruct (Qle_bool 4 overall') eqn:H4';
    [apply Qle_bool_iff in H4' | apply Qle_bool_false in H4'].
  all: destruct (Qle_bool overall' 2) eqn:H2';
    [apply Qle_bool_iff in H2' | apply Qle_bool_false in H2'].
  all: try lra.
  all: destruct (Qle_bool (1 # 2) compound) eqn:Hhi;
    [apply Qle_bool_iff in Hhi | apply Qle_bool_false in Hhi].
  all: destruct (Qle_bool compound 0) eqn:H0;
    [apply Qle_bool_iff in H0 | apply Qle_bool_false in H0].
  all: try lra.
  all: destruct (Qle_bool compound (- (1 # 2))) eqn:Hlo;
    [apply Qle_bool_iff in Hlo | apply Qle_bool_false in Hlo].
  all: try lra.
  all: destruct (Qle_bool 0 compound) eqn:H0';
    [apply Qle_bool_iff in H0' | apply Qle_bool_false in H0'].
  all: try lra.
  all: destruct (Qle_bool (1 # 2) compound') eqn:Hhi';
    [apply Qle_bool_iff in Hhi' | apply Qle_bool_false in Hhi'].
  all: try lra.
  all: destruct (Qle_bool compound' 0) eqn:H0'';
    [apply Qle_bool_iff in H0'' | apply Qle_bool_false in H0''].
  all: try lra.
  all: destruct (Qle_bool compound' (- (1 # 2))) eqn:Hlo';
    [apply Qle_bool_iff in Hlo' | apply Qle_bool_false in Hlo'].
  all: try lra.
  all: destruct (Qle_bool 0 compound') eqn:H0''';
    [apply Qle_bool_iff in H0''' | apply Qle_bool_false in H0'''].
  all: try lra.
  all: cbn; intros [= <-] [= <-]; vm_compute; congruence.
Qed.

End SentimentOrder.

(** X4 at two texts the sample scorer gives -0.8 and 0.8, with ratings 1
    and 5. *)
Lemma sentiment_monotone_witness :
  sentiment_rank "negative" <= sentiment_rank "positive".
Proof.
  apply (sentiment_monotone Samples.polarity_compound "awful" "thing" "great" "thing"
           1 5 (- (8 # 10)) (8 # 10) "negative" "positive");
    try reflexivity; discriminate.
Defined.

Lemma for_each_inserts (Records : list stream_record)
    (body : stream_record -> M unit) (st : state) :
  (forall record st', is_insert record = false -> body record st' = (inr tt, st')) ->
  for_each Records body st = for_each (List.filter is_insert Records) body st.
Proof.
  intros Hskip. revert st. induction Records as [ |record rest IH]; intros st; [reflexivity| ].
  simpl. destruct (is_insert record) eqn:E; simpl.
  - unfold bind. destruct (body record st) as [[e|[]] st1]; [reflexivity|apply IH].
  - unfold bind. rewrite (Hskip _ _ E). apply IH.
Qed.

(** X5. Both stream stages look at insertions only: a batch is processed as
    the batch of its [INSERT] notifications, in their order; the others
    change, print and fail nothing. *)
Theorem only_inserts_are_processed (is_profane : value -> exn + bool)
    (polarity_compound : string -> exn + Q) (float_of_string : string -> option Q)
    (Records : list stream_record) (st : state) :
  Profanity.lambda_handler is_profane Records st
  = Profanity.lambda_handler is_profane (List.filter is_insert Records) st
  /\ Sentiment.lambda_handler polarity_compound float_of_string Records st
     = Sentiment.lambda_handler polarity_compound float_of_string
         (List.filter is_insert Records) st.
Proof.
  split.
  - unfold Profanity.lambda_handler, bind.
    rewrite (for_each_inserts Records); [reflexivity| ].
    intros record st' E. unfold Profanity.process_record.
    unfold is_insert in E. rewrite E. reflexivity.
  - unfold Sentiment.lambda_handler. unfold bind at 1 3.
    destruct (ssm_get_parameter "/app/config/reviews_table" st) as [[e|name] st1];
      [reflexivity| ].
    unfold bind.
    rewrite (for_each_inserts Records); [reflexivity| ].
    intros record st' E. unfold Sentiment.process_record.
    unfold is_insert in E. rewrite E. reflexivity.
Qed.

Section ProfanityMalformed.

Variable is_profane : value -> exn + bool.

(** X6. The profanity stage takes the identifiers of a record apart before
    its [try]: an [INSERT] notification without [NewImage], [reviewId] or
    [userId] raises a [KeyError] that leaves the handler, and neither that
    record nor the rest of the batch is processed. *)
Theorem profanity_malformed_record_aborts (record : stream_record)
    (rest : list stream_record) (st : state) :
  ~ well_formed record ->
  exists k, Profanity.lambda_handler is_profane (record :: rest) st = (inl (KeyError k), st).
Proof.
  intros Hbad. unfold Profanity.lambda_handler. simpl for_each.
  assert (exists k, Profanity.process_record is_profane record st = (inl (KeyError k), st))
    as [k Hk].
  { unfold Profanity.process_record, well_formed in *.
    destruct (String.eqb_spec (eventName record) "INSERT") as [Hev|Hev]; [ |tauto].
    simpl. destruct (NewImage record) as [img| ]; [ |eauto].
    unfold bind at 1. rewrite lift_run.
    destruct (image_S img "reviewId") as [e|rid] eqn:Hrid.
    { unfold image_S in Hrid. destruct (img !! "reviewId") as [[]| ]; try discriminate Hrid;
        injection Hrid as <-; eauto. }
    unfold bind at 1. rewrite lift_run.
    destruct (image_S img "userId") as [e|uid] eqn:Huid.
    { unfold image_S in Huid. destruct (img !! "userId") as [[]| ]; try discriminate Huid;
        injection Huid as <-; eauto. }
    exfalso. apply Hbad. right. eauto 8. }
  exists k. unfold bind. rewrite Hk. reflexivity.
Qed.

End ProfanityMalformed.

(** X6 at a batch whose first notification has no [userId]. *)
Lemma profanity_malformed_record_aborts_witness :
  exists k,
    Profanity.lambda_handler Samples.is_profane
      [StreamRecord "INSERT" (Some (delete "userId" Samples.r1_image)); Samples.r1_inserted]
      (Samples.start (Samples.world_with ∅))
    = (inl (KeyError k), Samples.start (Samples.world_with ∅)).
Proof.
  apply profanity_malformed_record_aborts.
  intros [H|(img & rid & uid & [= <-] & _ & H)]; [apply H; reflexivity|discriminate H].
Defined.

Lemma item_attribute_upsert (name key k a : string) (sets : list (string * value))
    (w : world) (t : table) :
  tables w !! name = Some t -> key_name t = key ->
  item_attribute (upsert name key k sets w) name k a
  = assign sets (default {[ key := VStr k ]} (items t !! k)) !! a.
Proof.
  intros Ht Hkey. unfold upsert. rewrite Ht, <- Hkey, String.eqb_refl.
  unfold item_attribute. rewrite (tables_write_item _ _ _ _ _ Ht). simpl.
  rewrite lookup_insert_eq. reflexivity.
Qed.

Section SentimentRecord.

Variable polarity_compound : string -> exn + Q.
Variable float_of_string : string -> option Q.

Let process_record := Sentiment.process_record polarity_compound float_of_string.

Lemma sentiment_record_reaches_update (name : string) (record : stream_record) (img : image)
    (rid uri bucket key : string) (st st1 : state) (data : dict)
    (summary review_text label : string) :
  eventName record = "INSERT" -> NewImage record = Some img ->
  image_S img "reviewId" = inr rid ->
  img !! "preprocessedLocation" = Some (AttrS uri) ->
  Sentiment.parse_s3_uri uri = inr (bucket, key) ->
  s3_get_object bucket key st = (inr data, st1) ->
  get data "preprocessedSummary" (VStr "") = VStr summary ->
  get data "preprocessedReviewText" (VStr "") = VStr review_text ->
  Sentiment.analyze_sentiment polarity_compound summary review_text
    (rating_of float_of_string img) = inr label ->
  process_record name record st
  = try_except
      (update_item name "reviewId" rid (sentiment_update label) ;;;
       print (SentimentUpdated rid label))
      (fun e => print (SentimentFailed rid e)) st1.
Proof.
  intros Hev Himg Hrid Huri Hparse Hget Hsummary Htext Hlabel.
  unfold process_record, Sentiment.process_record. rewrite Hev, Himg.
  change (negb ("INSERT" =? "INSERT")%string) with false. cbv iota.
  change (default ∅ (Some img)) with img. unfold bind at 1. rewrite lift_run, Hrid.
  rewrite Huri. unfold bind at 1. rewrite lift_run, Hparse. simpl fst. simpl snd.
  unfold bind at 1. rewrite Hget.
  rewrite Hsummary, Htext. simpl Sentiment.as_str.
  unfold bind at 1. rewrite lift_run. unfold bind at 1. rewrite lift_run.
  unfold rating_of in Hlabel.
  unfold bind at 1. rewrite lift_run, Hlabel. reflexivity.
Qed.

(** X7. Once the sentiment stage has read and classified the text of a
    review, the record cannot fail any more: either the review record gets
    [sentiment] and [sentimentAnalysisStatus = processed], or the update
    fails, the failure is printed and the stores stay as they were. The
    update goes through when no service call fails and the reviews table
    exists with key [reviewId]. *)
Theorem sentiment_record_outcome (name : string) (record : stream_record) (img : image)
    (rid uri bucket key : string) (st st1 : state) (data : dict)
    (summary review_text label : string) :
  eventName record = "INSERT" -> NewImage record = Some img ->
  image_S img "reviewId" = inr rid ->
  img !! "preprocessedLocation" = Some (AttrS uri) ->
  Sentiment.parse_s3_uri uri = inr (bucket, key) ->
  s3_get_object bucket key st = (inr data, st1) ->
  get data "preprocessedSummary" (VStr "") = VStr summary ->
  get data "preprocessedReviewText" (VStr "") = VStr review_text ->
  Sentiment.analyze_sentiment polarity_compound summary review_text
    (rating_of float_of_string img) = inr label ->
  let run := process_record name record st in
  fst run = inr tt
  /\ ((item_attribute (stores (snd run)) name rid "sentiment" = Some (VStr label)
       /\ item_attribute (stores (snd run)) name rid "sentimentAnalysisStatus"
          = Some (VStr "processed")
       /\ stores (snd run) = upsert name "reviewId" rid (sentiment_update label) (stores st)
       /\ output (snd run) = output st ++ [SentimentUpdated rid label])
      \/ (stores (snd run) = stores st
          /\ exists e, output (snd run) = output st ++ [SentimentFailed rid e]))
  /\ (faults st1 = [] ->
      (exists t, tables (stores st) !! name = Some t /\ key_name t = "reviewId") ->
      output (snd run) = output st ++ [SentimentUpdated rid label]).
Proof.
  intros Hev Himg Hrid Huri Hparse Hget Hsummary Htext Hlabel run. subst run.
  rewrite (sentiment_record_reaches_update name record img rid uri bucket key st st1 data
             summary review_text label) by assumption.
  pose proof (s3_get_object_silent bucket key st) as [Hs Ho].
  rewrite Hget in Hs, Ho. simpl in Hs, Ho.
  pose proof (update_item_cases name "reviewId" rid (sentiment_update label) st1)
    as [Ho' Hup].
  unfold try_except, bind.
  destruct (update_item name "reviewId" rid (sentiment_update label) st1)
    as [[e|new] st2] eqn:Hupdate; simpl in Ho', Hup.
  - simpl. split; [reflexivity| ]. split.
    + right. rewrite Hup, Hs, Ho', Ho. eauto.
    + intros Hf (t & Ht & Hkey). exfalso. revert Hupdate.
      unfold update_item, table_keyed, store_item, get_world, put_world, call, bind.
      rewrite Hf. simpl. rewrite Hs, Ht, Hkey. simpl. discriminate.
  - destruct Hup as (t & Ht & Hkey & -> & Hst). rewrite Hs in Ht, Hst.
    assert (stores st2 = upsert name "reviewId" rid (sentiment_update label) (stores st))
      as Hupsert.
    { unfold upsert. rewrite Ht, Hkey. exact Hst. }
    simpl. split; [reflexivity| ]. split.
    + left. rewrite Hupsert, Ho', Ho.
      rewrite !(item_attribute_upsert name "reviewId" rid _ _ _ t Ht Hkey).
      rewrite !lookup_assign. auto.
    + intros _ _. rewrite Ho', Ho. reflexivity.
Qed.

(** X8. A notification that names no [preprocessedLocation] cannot be
    located: [parse_s3_uri] is given the empty text, its [ValueError]
    leaves the handler, and neither that record nor the rest of the batch
    is processed. *)
Theorem sentiment_record_without_location (record : stream_record) (img : image)
    (rid name : string) (rest : list stream_record) (st st1 : state) :
  eventName record = "INSERT" -> NewImage record = Some img ->
  image_S img "reviewId" = inr rid ->
  (forall uri, img !! "preprocessedLocation" <> Some (AttrS uri)) ->
  ssm_get_parameter "/app/config/reviews_table" st = (inr name, st1) ->
  Sentiment.lambda_handler polarity_compound float_of_string (record :: rest) st
  = (inl (ValueError "Invalid S3 URI: "), st1).
Proof.
  intros Hev Himg Hrid Hnone Hname. unfold Sentiment.lambda_handler.
  rewrite (bind_inr _ _ _ _ _ Hname). simpl for_each.
  assert (process_record name record st1 = (inl (ValueError "Invalid S3 URI: "), st1)) as H.
  { unfold process_record, Sentiment.process_record. rewrite Hev, Himg.
    change (negb ("INSERT" =? "INSERT")%string) with false. cbv iota.
    change (default ∅ (Some img)) with img. unfold bind at 1. rewrite lift_run, Hrid.
    destruct (img !! "preprocessedLocation") as [[uri| | | ]| ] eqn:E;
      [exfalso; exact (Hnone uri eq_refl)|reflexivity..]. }
  unfold bind. fold process_record. rewrite H. reflexivity.
Qed.

End SentimentRecord.

(** X7 at the notification of review [r1]. *)
Lemma sentiment_record_outcome_witness :
  let run :=
    Sentiment.process_record Samples.polarity_compound Samples.float_of_string "reviews"
      Samples.r1_inserted (Samples.start (Samples.world_with ∅)) in
  item_attribute (stores (snd run)) "reviews" "r1" "sentiment" = Some (VStr "negative").
Proof.
  intros run.
  destruct (sentiment_record_outcome Samples.polarity_compound Samples.float_of_string
              "reviews" Samples.r1_inserted Samples.r1_image "r1"
              "s3://processed/preprocessed/u1/r1.json" "processed" "preprocessed/u1/r1.json"
              (Samples.start (Samples.world_with ∅)) (Samples.start (Samples.world_with ∅))
              Samples.profane_processed "awful" "damn bad product" "negative")
    as (_ & [(H & _)|(_ & e & H)] & Hout);
    [reflexivity..| | ].
  - exact H.
  - exfalso. fold run in H, Hout. rewrite Hout in H.
    + apply app_inv_head in H. discriminate H.
    + reflexivity.
    + eexists. split; reflexivity.
Defined.

(** X8 at a batch whose first notification has no [preprocessedLocation]. *)
Lemma sentiment_record_without_location_witness :
  Sentiment.lambda_handler Samples.polarity_compound Samples.float_of_string
    [StreamRecord "INSERT" (Some (delete "preprocessedLocation" Samples.r1_image));
     Samples.r1_inserted]
    (Samples.start (Samples.world_with ∅))
  = (inl (ValueError "Invalid S3 URI: "), Samples.start (Samples.world_with ∅)).
Proof.
  apply (sentiment_record_without_location Samples.polarity_compound Samples.float_of_string
           _ (delete "preprocessedLocation" Samples.r1_image) "r1" "reviews");
    try reflexivity.
  intros uri. vm_compute. discriminate.
Defined.

(** ** What the stream stages leave alone *)

Lemma changes_only_refl (attrs : string -> list string) (w : world) : changes_only attrs w w.
Proof.
  split; [reflexivity| ]. split; [reflexivity| ].
  intros name. destruct (tables w !! name) as [t| ]; [ |reflexivity].
  exists t. split; [reflexivity| ]. split; [reflexivity| ].
  intros k it Hit. exists it. split; [exact Hit| ]. intros a _. reflexivity.
Qed.

Lemma changes_only_trans (attrs : string -> list string) (w1 w2 w3 : world) :
  changes_only attrs w1 w2 -> changes_only attrs w2 w3 -> changes_only attrs w1 w3.
Proof.
  intros (Hp & Hb & Ht) (Hp' & Hb' & Ht').
  split; [congruence| ]. split; [congruence| ].
  intros name. specialize (Ht name). specialize (Ht' name).
  destruct (tables w1 !! name) as [t1| ].
  - destruct Ht as (t2 & Ht2 & Hk2 & Hitems). rewrite Ht2 in Ht'.
    destruct Ht' as (t3 & Ht3 & Hk3 & Hitems').
    exists t3. split; [exact Ht3| ]. split; [congruence| ].
    intros k it Hit. destruct (Hitems k it Hit) as (it2 & Hit2 & H2).
    destruct (Hitems' k it2 Hit2) as (it3 & Hit3 & H3).
    exists it3. split; [exact Hit3| ].
    intros a Ha. rewrite (H3 a Ha). apply H2, Ha.
  - rewrite Ht in Ht'. exact Ht'.
Qed.

Lemma changes_only_write_item (attrs : string -> list string) (name k : string)
    (it' : dict) (w : world) :
  (forall t it, tables w !! name = Some t -> items t !! k = Some it ->
                item_changes_only (attrs name) it it') ->
  changes_only attrs w (write_item name k it' w).
Proof.
  intros Hitem. split; [apply parameters_write_item| ].
  split; [unfold write_item; destruct (tables w !! name); reflexivity| ].
  intros n. destruct (decide (name = n)) as [<-|Hne].
  - destruct (tables w !! name) as [t| ] eqn:Ht.
    + rewrite (tables_write_item _ _ _ _ _ Ht). eexists. split; [reflexivity| ].
      split; [reflexivity| ]. simpl. intros k' it Hit.
      destruct (decide (k = k')) as [<-|Hk].
      * rewrite lookup_insert_eq. exists it'. split; [reflexivity| ].
        exact (Hitem t it eq_refl Hit).
      * rewrite lookup_insert_ne by exact Hk. exists it. split; [exact Hit| ].
        intros a _. reflexivity.
    + unfold write_item. rewrite Ht. exact Ht.
  - rewrite (tables_write_item_ne _ _ _ _ _ Hne).
    destruct (tables w !! n) as [t| ]; [ |reflexivity].
    exists t. split; [reflexivity| ]. split; [reflexivity| ].
    intros k' it Hit. exists it. split; [exact Hit| ]. intros a _. reflexivity.
Qed.

Lemma assigned_in (a : string) (sets : list (string * value)) (v : value) :
  assigned a sets = Some v -> In a (map fst sets).
Proof.
  revert v. induction sets as [ |[b v'] rest IH]; intros v; simpl; [discriminate| ].
  destruct (assigned a rest) as [v0| ]; [intros _; right; exact (IH v0 eq_refl)| ].
  destruct (String.eqb_spec a b) as [->|]; [left; reflexivity|discriminate].
Qed.

Lemma item_changes_only_assign (attrs : list string) (sets : list (string * value))
    (it : dict) :
  (forall a, In a (map fst sets) -> In a attrs) ->
  item_changes_only attrs it (assign sets it).
Proof.
  intros Hsub a Ha. rewrite lookup_assign.
  destruct (assigned a sets) as [v| ] eqn:E; [ |reflexivity].
  exfalso. apply Ha, Hsub. exact (assigned_in _ _ _ E).
Qed.

Lemma changes_only_upsert (attrs : string -> list string) (name key k : string)
    (sets : list (string * value)) (w : world) :
  (forall a, In a (map fst sets) -> In a (attrs name)) ->
  changes_only attrs w (upsert name key k sets w).
Proof.
  intros Hsub. unfold upsert.
  destruct (tables w !! name) as [t| ] eqn:Ht; [ |apply changes_only_refl].
  destruct (String.eqb (key_name t) key); [ |apply changes_only_refl].
  apply changes_only_write_item. intros t' it Ht' Hit.
  assert (t' = t) as -> by congruence. rewrite Hit. simpl.
  apply item_changes_only_assign, Hsub.
Qed.

Section SentimentFrame.

Variable polarity_compound : string -> exn + Q.
Variable float_of_string : string -> option Q.

Lemma sentiment_record_cases (name : string) (record : stream_record) (st st' : state)
    (r : exn + unit) :
  Sentiment.process_record polarity_compound float_of_string name record st = (r, st') ->
  (stores st' = stores st
   /\ (output st' = output st
       \/ exists rid e, output st' = output st ++ [SentimentFailed rid e]))
  \/ exists rid label t,
       tables (stores st) !! name = Some t /\ key_name t = "reviewId"
       /\ stores st' = upsert name "reviewId" rid (sentiment_update label) (stores st)
       /\ output st' = output st ++ [SentimentUpdated rid label].
Proof.
  unfold Sentiment.process_record.
  destruct (negb _); [intros [= _ <-]; left; auto| ].
  unfold bind at 1. rewrite lift_run.
  destruct (image_S _ "reviewId") as [e|rid]; [intros [= _ <-]; left; auto| ].
  unfold bind at 1. rewrite lift_run.
  destruct (Sentiment.parse_s3_uri _) as [e|[bucket key]];
    [intros [= _ <-]; left; auto| ].
  simpl fst. simpl snd.
  pose proof (s3_get_object_silent bucket key st) as [Hs Ho].
  unfold bind at 1.
  destruct (s3_get_object bucket key st) as [[e|data] st1]; simpl in Hs, Ho;
    [intros [= _ <-]; left; auto| ].
  unfold bind at 1. rewrite lift_run.
  destruct (Sentiment.as_str _) as [e|summary]; [intros [= _ <-]; left; auto| ].
  unfold bind at 1. rewrite lift_run.
  destruct (Sentiment.as_str _) as [e|review_text]; [intros [= _ <-]; left; auto| ].
  unfold bind at 1. rewrite lift_run.
  destruct (Sentiment.analyze_sentiment _ _ _ _) as [e|label];
    [intros [= _ <-]; left; auto| ].
  pose proof (update_item_cases name "reviewId" rid (sentiment_update label) st1)
    as [Ho' Hup].
  unfold try_except, bind. fold (sentiment_update label).
  destruct (update_item name "reviewId" rid (sentiment_update label) st1)
    as [[e|new] st2]; simpl in Ho', Hup.
  - intros [= _ <-]. left. simpl. rewrite Ho', Ho. split; [congruence|eauto].
  - intros [= _ <-]. right. destruct Hup as (t & Ht & Hkey & -> & Hst).
    rewrite Hs in Ht. exists rid, label, t.
    split; [exact Ht| ]. split; [exact Hkey| ].
    simpl. rewrite Hst, Hs, Ho', Ho. unfold upsert. rewrite Ht, Hkey.
    rewrite String.eqb_refl. auto.
Qed.

(** X9. Whatever the batch and whichever calls fail, the sentiment stage
    changes nothing but the attributes [sentiment] and
    [sentimentAnalysisStatus] of items: parameters, objects, tables and
    their keys stay, no item is removed and every other attribute of an
    item keeps its value. *)
Theorem sentiment_changes_two_attributes (Records : list stream_record) (st : state) :
  changes_only (fun _ => sentiment_attributes) (stores st)
    (stores (snd (Sentiment.lambda_handler polarity_compound float_of_string Records st))).
Proof.
  unfold Sentiment.lambda_handler.
  pose proof (ssm_get_parameter_cases "/app/config/reviews_table" st) as [Hs _].
  unfold bind at 1.
  destruct (ssm_get_parameter "/app/config/reviews_table" st) as [[e|name] st1];
    simpl in Hs; [simpl; rewrite Hs; apply changes_only_refl| ].
  rewrite <- Hs. clear Hs st.
  assert (forall st,
            changes_only (fun _ => sentiment_attributes) (stores st)
              (stores (snd (for_each Records
                              (Sentiment.process_record polarity_compound float_of_string name)
                              st)))) as H.
  { induction Records as [ |record rest IH]; intros st; [apply changes_only_refl| ].
    simpl. unfold bind.
    pose proof (sentiment_record_cases name record st) as Hrecord.
    destruct (Sentiment.process_record _ _ name record st) as [r st2].
    assert (changes_only (fun _ => sentiment_attributes) (stores st) (stores st2)) as Hstep.
    { destruct (Hrecord st2 r eq_refl) as [[-> _]|(rid & label & t & _ & _ & -> & _)];
        [apply changes_only_refl| ].
      apply changes_only_upsert. intros a Ha. exact Ha. }
    destruct r as [e|[]]; [exact Hstep| ].
    exact (changes_only_trans _ _ _ _ Hstep (IH st2)). }
  unfold bind. specialize (H st1).
  destruct (for_each Records _ st1) as [[e|[]] st2]; exact H.
Qed.

End SentimentFrame.

(** ** What the profanity stage keeps of a record *)

Lemma record_satisfies_write_other (w : world) (name k name' k' : string) (it : dict)
    (P : dict -> Prop) :
  (name', k') <> (name, k) ->
  record_satisfies w name k P -> record_satisfies (write_item name' k' it w) name k P.
Proof.
  intros Hne (t & it0 & Ht & Hit & HP). unfold record_satisfies.
  destruct (decide (name' = name)) as [->|Hn].
  - rewrite (tables_write_item _ _ _ _ _ Ht). eexists _, it0. split; [reflexivity| ].
    simpl. rewrite lookup_insert_ne by congruence. auto.
  - rewrite tables_write_item_ne by exact Hn. eauto 6.
Qed.

Lemma record_satisfies_write_same (w : world) (name k : string) (it : dict)
    (P : dict -> Prop) :
  is_Some (tables w !! name) -> P it ->
  record_satisfies (write_item name k it w) name k P.
Proof.
  intros [t Ht] HP. unfold record_satisfies.
  rewrite (tables_write_item _ _ _ _ _ Ht). eexists _, it. split; [reflexivity| ].
  simpl. rewrite lookup_insert_eq. auto.
Qed.

Lemma record_satisfies_upsert (w : world) (name k name' key k' : string)
    (sets : list (string * value)) (P : dict -> Prop) :
  (name' = name -> forall it, P it -> P (assign sets it)) ->
  record_satisfies w name k P -> record_satisfies (upsert name' key k' sets w) name k P.
Proof.
  intros Hsets Hb. unfold upsert.
  destruct (tables w !! name') as [t'| ] eqn:Ht'; [ |exact Hb].
  destruct (String.eqb (key_name t') key); [ |exact Hb].
  destruct (decide ((name', k') = (name, k))) as [[= -> ->]|Hne].
  - destruct Hb as (t & it & Ht & Hit & HP).
    assert (t' = t) as -> by congruence. rewrite Hit. simpl.
    apply record_satisfies_write_same; [eauto| ]. apply Hsets; [reflexivity|exact HP].
  - apply record_satisfies_write_other; assumption.
Qed.

(** The customers table is never the table of the reviews: their keys
    differ. *)
Lemma customers_not_reviews (w : world) (rid ct : string) (sets : list (string * value))
    (tr t : table) :
  tables w !! "reviews" = Some tr -> key_name tr = "reviewId" ->
  tables (upsert "reviews" "reviewId" rid sets w) !! ct = Some t -> key_name t = "userId" ->
  ct <> "reviews".
Proof.
  intros Htr Hkr Ht Hkey ->. unfold upsert in Ht. rewrite Htr, Hkr in Ht. simpl in Ht.
  rewrite (tables_write_item _ _ _ _ _ Htr) in Ht. injection Ht as <-.
  simpl in Hkey. congruence.
Qed.

Lemma record_satisfies_weaken (w : world) (name k : string) (P Q : dict -> Prop) :
  (forall it, P it -> Q it) -> record_satisfies w name k P -> record_satisfies w name k Q.
Proof. intros H (t & it & Ht & Hit & HP). exists t, it. auto. Qed.

Section ProfanityMoves.

Variable is_profane : value -> exn + bool.

(** A property [P] of the item under [k] of table [name] that each of the
    three writes of the stage turns into [Q], as leaving the item alone
    does. *)
Variable name k : string.
Variables P Q : dict -> Prop.
Hypothesis Hstays : forall it, P it -> Q it.
Hypothesis Hreview :
  name = "reviews" ->
  forall it hp lastUpdated, P it -> Q (assign (review_update hp lastUpdated) it).
Hypothesis Hcustomer :
  name <> "reviews" ->
  forall it uid hp now fresh,
    P it -> fresh_customer (Some it) uid hp now = inr fresh -> Q fresh.
Hypothesis Hban :
  name <> "reviews" ->
  forall it now,
    Q it -> truthy (get it "isBanned" (VBool false)) = false -> Q (banned_customer it now).

Lemma check_review_moves (img : image) (rid uid : string) (st : state) :
  record_satisfies (stores st) name k P ->
  record_satisfies (stores (snd (Profanity.check_review is_profane img rid uid st))) name k Q.
Proof.
  intros Hb.
  pose proof (record_satisfies_weaken _ _ _ _ _ Hstays Hb) as Hq.
  pose proof (check_review_cases is_profane img rid uid st) as Hcases.
  destruct (Profanity.check_review is_profane img rid uid st) as [r st']. simpl.
  destruct Hcases as [(-> & _)|(hp & Hcases)]; [exact Hq| ].
  destruct Hcases as [(-> & _)|(lastUpdated & tr & _ & Htr & Hkr & Hcases)]; [exact Hq| ].
  cbv zeta in Hcases.
  set (w1 := upsert "reviews" "reviewId" rid (review_update hp lastUpdated) (stores st)) in *.
  destruct (decide (name = "reviews")) as [Hname|Hname].
  - assert (record_satisfies w1 name k Q) as Hb1.
    { subst w1. unfold upsert. rewrite Htr, Hkr. simpl.
      destruct (decide (("reviews", rid) = (name, k))) as [[= <- <-]|Hne].
      - destruct Hb as (t & it & Ht & Hit & HP).
        assert (t = tr) as -> by congruence. rewrite Hit. simpl.
        apply record_satisfies_write_same; [eauto| ].
        apply Hreview; [reflexivity|exact HP].
      - apply record_satisfies_write_other; assumption. }
    destruct Hcases as [(-> & _)|(ct & now & _ & Hct & Hcases)]; [exact Hb1| ].
    destruct Hcases as [(-> & _)|(t & fresh & Ht & Hkey & Hfresh & Hcases)]; [exact Hb1| ].
    cbv zeta in Hcases.
    pose proof (customers_not_reviews _ _ _ _ _ _ Htr Hkr Ht Hkey) as Hct_ne.
    assert ((ct, uid) <> (name, k)) as Hne by (intros [= H _]; apply Hct_ne; congruence).
    assert (record_satisfies (write_item ct uid fresh w1) name k Q) as Hb2
      by (apply record_satisfies_write_other; assumption).
    destruct Hcases as [(-> & _)|(-> & _)]; [exact Hb2| ].
    apply record_satisfies_write_other; assumption.
  - assert (record_satisfies w1 name k P) as Hb1.
    { apply record_satisfies_upsert; [ |exact Hb].
      intros Heq. exfalso. apply Hname. symmetry. exact Heq. }
    pose proof (record_satisfies_weaken _ _ _ _ _ Hstays Hb1) as Hq1.
    destruct Hcases as [(-> & _)|(ct & now & _ & Hct & Hcases)]; [exact Hq1| ].
    destruct Hcases as [(-> & _)|(t & fresh & Ht & Hkey & Hfresh & Hcases)]; [exact Hq1| ].
    cbv zeta in Hcases.
    assert (record_satisfies (write_item ct uid fresh w1) name k Q) as Hb2.
    { destruct (decide ((ct, uid) = (name, k))) as [[= <- <-]|Hne].
      - destruct Hb1 as (t1 & it & Ht1 & Hit & HP).
        assert (t1 = t) as -> by congruence. rewrite Hit in Hfresh.
        apply record_satisfies_write_same; [eauto| ].
        exact (Hcustomer Hname _ _ _ _ _ HP Hfresh).
      - apply record_satisfies_write_other; assumption. }
    destruct Hcases as [(-> & _)|(-> & _ & _ & _ & Hnot & _)]; [exact Hb2| ].
    destruct (decide ((ct, uid) = (name, k))) as [[= <- <-]|Hne].
    + destruct Hb2 as (t2 & it & Ht2 & Hit & HQ).
      rewrite (tables_write_item _ _ _ _ _ Ht) in Ht2. injection Ht2 as <-.
      simpl in Hit. rewrite lookup_insert_eq in Hit. injection Hit as <-.
      apply record_satisfies_write_same.
      * rewrite (tables_write_item _ _ _ _ _ Ht). eauto.
      * exact (Hban Hname _ _ HQ Hnot).
    + apply record_satisfies_write_other; assumption.
Qed.

Lemma process_record_moves (record : stream_record) (st : state) :
  record_satisfies (stores st) name k P ->
  record_satisfies (stores (snd (Profanity.process_record is_profane record st))) name k Q.
Proof.
  intros Hb.
  pose proof (record_satisfies_weaken _ _ _ _ _ Hstays Hb) as Hq.
  unfold Profanity.process_record.
  destruct (negb (eventName record =? "INSERT")%string); [exact Hq| ].
  destruct (NewImage record) as [img| ]; [ |exact Hq].
  unfold bind at 1. rewrite lift_run.
  destruct (image_S img "reviewId") as [e|rid]; [exact Hq| ].
  unfold bind at 1. rewrite lift_run.
  destruct (image_S img "userId") as [e|uid]; [exact Hq| ].
  unfold try_except.
  pose proof (check_review_moves img rid uid st Hb) as H.
  destruct (Profanity.check_review is_profane img rid uid st) as [[e|[]] st']; exact H.
Qed.

End ProfanityMoves.

Section ProfanityKeeps.

Variable is_profane : value -> exn + bool.

(** A property of the item under [k] of table [name] that the three
    writes of the stage keep. *)
Variable name k : string.
Variable P : dict -> Prop.
Hypothesis Hreview :
  name = "reviews" ->
  forall it hp lastUpdated, P it -> P (assign (review_update hp lastUpdated) it).
Hypothesis Hcustomer :
  name <> "reviews" ->
  forall it uid hp now fresh,
    P it -> fresh_customer (Some it) uid hp now = inr fresh -> P fresh.
Hypothesis Hban :
  name <> "reviews" ->
  forall it now,
    P it -> truthy (get it "isBanned" (VBool false)) = false -> P (banned_customer it now).

Lemma check_review_keeps (img : image) (rid uid : string) (st : state) :
  record_satisfies (stores st) name k P ->
  record_satisfies (stores (snd (Profanity.check_review is_profane img rid uid st))) name k P.
Proof.
  exact (check_review_moves is_profane name k P P (fun _ H => H) Hreview Hcustomer Hban
           img rid uid st).
Qed.

Lemma process_record_keeps (record : stream_record) (st : state) :
  record_satisfies (stores st) name k P ->
  record_satisfies (stores (snd (Profanity.process_record is_profane record st))) name k P.
Proof.
  exact (process_record_moves is_profane name k P P (fun _ H => H) Hreview Hcustomer Hban
           record st).
Qed.

Lemma profanity_handler_keeps (Records : list stream_record) (st : state) :
  record_satisfies (stores st) name k P ->
  record_satisfies (stores (snd (Profanity.lambda_handler is_profane Records st))) name k P.
Proof.
  intros Hb. unfold Profanity.lambda_handler, bind.
  assert (record_satisfies
            (stores (snd (for_each Records (Profanity.process_record is_profane) st)))
            name k P) as H.
  { revert st Hb. induction Records as [ |record rest IH]; intros st Hb; [exact Hb| ].
    simpl. unfold bind.
    pose proof (process_record_keeps record st Hb) as H.
    destruct (Profanity.process_record is_profane record st) as [[e|[]] st1]; [exact H| ].
    apply IH, H. }
  destruct (for_each Records (Profanity.process_record is_profane) st) as [[e|[]] st1];
    exact H.
Qed.

End ProfanityKeeps.

Lemma update_expression_attributes (it : dict) (hp : bool) (now : string)
    (sets : list (string * value)) (a : string) :
  Profanity.update_expression it hp now = inr sets ->
  In a (map fst sets) -> In a customer_attributes.
Proof.
  unfold Profanity.update_expression, Profanity.when_missing.
  destruct (add1 (get it "totalReviews" (VInt 0))) as [e|total]; [discriminate| ].
  destruct hp.
  - destruct (add1 (get it "violationCount" (VInt 0))) as [e|v]; [discriminate| ].
    intros [= <-].
    repeat destruct (contains it _); simpl; unfold customer_attributes; simpl;
      intuition (subst; auto 20).
  - intros [= <-].
    repeat destruct (contains it _); simpl; unfold customer_attributes; simpl;
      intuition (subst; auto 20).
Qed.

Section ProfanityFrame.

Variable is_profane : value -> exn + bool.

(** X10. Whatever the batch and whichever calls fail, the profanity stage
    keeps the parameters, the objects, the tables and their keys, removes
    no item, and changes an item that is there in the attributes it
    assigns at most: [profanityCheckStatus], [hasProfanity] and
    [lastUpdated] of a review record, the counters, dates and ban
    attributes of a customer record. *)
Theorem profanity_changes_own_attributes (Records : list stream_record) (st : state) :
  changes_only profanity_attributes (stores st)
    (stores (snd (Profanity.lambda_handler is_profane Records st))).
Proof.
  destruct (profanity_handler_schema is_profane Records st) as (Hp & Hb & Hk).
  set (st' := snd (Profanity.lambda_handler is_profane Records st)) in *.
  split; [exact Hp| ]. split; [exact Hb| ].
  intros name. specialize (Hk name).
  destruct (tables (stores st) !! name) as [t| ] eqn:Ht.
  - destruct (tables (stores st') !! name) as [t'| ] eqn:Ht';
      unfold fmap, option_fmap, option_map in Hk; [ |discriminate Hk].
    exists t'. split; [reflexivity| ]. split; [injection Hk; auto| ].
    intros k it Hit.
    destruct (profanity_handler_keeps is_profane name k
                (item_changes_only (profanity_attributes name) it)) with (Records := Records)
                (st := st) as (t'' & it' & Ht'' & Hit' & H).
    + intros -> it0 hp lastUpdated H0 a Ha.
      rewrite (item_changes_only_assign review_attributes (review_update hp lastUpdated) it0
                 (fun a H => H) a Ha).
      apply H0, Ha.
    + intros Hname it0 uid hp now fresh H0.
      unfold fresh_customer.
      destruct (Profanity.update_expression it0 hp now) as [e|sets] eqn:Hsets;
        [discriminate| ].
      intros [= <-] a Ha.
      unfold profanity_attributes in *. apply String.eqb_neq in Hname. rewrite Hname in *.
      rewrite (item_changes_only_assign customer_attributes sets it0
                 (fun a => update_expression_attributes _ _ _ _ a Hsets) a Ha).
      apply H0, Ha.
    + intros Hname it0 now H0 _ a Ha.
      unfold profanity_attributes in *. apply String.eqb_neq in Hname. rewrite Hname in *.
      unfold banned_customer.
      rewrite (item_changes_only_assign customer_attributes
                 [("isBanned", VBool true); ("banDate", VStr now)] it0); [apply H0, Ha| |exact Ha].
      intros a'. unfold customer_attributes. simpl. intuition (subst; auto 20).
    + exists t, it. split; [exact Ht| ]. split; [exact Hit| ]. intros a _. reflexivity.
    + fold st' in Ht''. rewrite Ht' in Ht''. injection Ht'' as <-. eauto.
  - destruct (tables (stores st') !! name); unfold fmap, option_fmap, option_map in Hk;
      [discriminate Hk|reflexivity].
Qed.

(** X11. The dates a customer record gets once ([createdDate],
    [firstReviewDate], [firstViolationDate]) are never overwritten:
    whatever the batch, a record that has one keeps its value. *)
Theorem first_dates_are_kept (Records : list stream_record) (st : state)
    (name user_id a : string) (v : value) :
  In a first_dates ->
  item_attribute (stores st) name user_id a = Some v ->
  item_attribute (stores (snd (Profanity.lambda_handler is_profane Records st)))
    name user_id a = Some v.
Proof.
  intros Ha Hv.
  assert (record_satisfies (stores st) name user_id (fun it => it !! a = Some v)) as Hrec.
  { unfold item_attribute in Hv.
    destruct (tables (stores st) !! name) as [t| ] eqn:Ht; [ |discriminate].
    destruct (items t !! user_id) as [it| ] eqn:Hit; [ |discriminate].
    exists t, it. auto. }
  destruct (profanity_handler_keeps is_profane name user_id (fun it => it !! a = Some v))
    with (Records := Records) (st := st) as (t & it & Ht & Hit & H).
  - intros _ it hp lastUpdated H. rewrite lookup_assign.
    destruct Ha as [<-|[<-|[<-|[]]]]; exact H.
  - intros _ it uid hp now fresh H. simpl.
    unfold Profanity.update_expression, Profanity.when_missing.
    destruct (add1 (get it "totalReviews" (VInt 0))) as [e|total]; [discriminate| ].
    assert (contains it a = true) as Hin by (unfold contains; rewrite H; reflexivity).
    destruct hp.
    + destruct (add1 (get it "violationCount" (VInt 0))) as [e|count]; [discriminate| ].
      intros [= <-].
      destruct Ha as [<-|[<-|[<-|[]]]]; rewrite ?Hin;
        repeat destruct (contains it _); rewrite lookup_assign; simpl;
        rewrite ?lookup_insert_ne by discriminate; exact H.
    + intros [= <-].
      destruct Ha as [<-|[<-|[<-|[]]]]; rewrite ?Hin;
        repeat destruct (contains it _); rewrite lookup_assign; simpl;
        rewrite ?lookup_insert_ne by discriminate; exact H.
  - intros _ it now H _. rewrite banned_customer_other; [exact H| | ];
      destruct Ha as [<-|[<-|[<-|[]]]]; discriminate.
  - exact Hrec.
  - unfold item_attribute. rewrite Ht, Hit. exact H.
Qed.

(** The counters of a record that had [total] and [violations] once [j]
    notifications have been looked at. *)
Lemma counters_grow_one (record : stream_record) (st : state) (name user_id : string)
    (total violations : Z) (j : nat) :
  Z.abs total + Z.of_nat j + 1 < coefficient_limit ->
  Z.abs violations + Z.of_nat j + 1 < coefficient_limit ->
  record_satisfies (stores st) name user_id (grown total violations j) ->
  record_satisfies (stores (snd (Profanity.process_record is_profane record st)))
    name user_id (grown total violations (S j)).
Proof.
  intros Htotal Hviolations.
  apply (process_record_moves is_profane name user_id).
  - intros it (total' & violations' & H1 & H2 & H3).
    exists total', violations'. repeat split; (assumption || lia).
  - intros _ it hp lastUpdated (total' & violations' & H1 & H2 & H3).
    exists total', violations'. rewrite !lookup_assign.
    repeat split; (assumption || lia).
  - intros _ it uid hp now fresh (total' & violations' & H1 & H2 & H3). simpl.
    unfold Profanity.update_expression, Profanity.when_missing.
    assert (get it "totalReviews" (VInt 0) = VInt total') as ->
      by (unfold get; rewrite H1; reflexivity).
    assert (get it "violationCount" (VInt 0) = VInt violations') as ->
      by (unfold get; rewrite H2; reflexivity).
    assert (contains it "violationCount" = true) as Hc
      by (unfold contains; rewrite H2; reflexivity).
    rewrite (add1_exact total') by lia. rewrite (add1_exact violations') by lia.
    destruct hp; intros [= <-].
    + exists (total' + 1), (violations' + 1).
      split; [ |split; [ |lia]];
        repeat destruct (contains it _); rewrite lookup_assign; simpl;
        rewrite ?lookup_insert_eq; reflexivity.
    + exists (total' + 1), violations'. rewrite Hc.
      split; [ |split; [ |lia]];
        repeat destruct (contains it _); rewrite lookup_assign; simpl;
        rewrite ?lookup_insert_eq; try reflexivity;
        rewrite ?lookup_insert_ne by discriminate; exact H2.
  - intros _ it now (total' & violations' & H1 & H2 & H3) _.
    exists total', violations'. rewrite !banned_customer_other by discriminate. auto.
Qed.

(** X12. The counters of a customer record only grow, by one for each
    notification of the batch at most, and [violationCount] never grows by
    more than [totalReviews] does: whatever the batch and whichever calls
    fail, a record whose counters are integers has integer counters
    afterwards, none of them smaller, and the violations added are at most
    the reviews added. The counters must leave room for the batch within
    the 28 digits that [Decimal] arithmetic keeps. *)
Theorem counters_only_grow (Records : list stream_record) (st : state)
    (name user_id : string) (total violations : Z) :
  item_attribute (stores st) name user_id "totalReviews" = Some (VInt total) ->
  item_attribute (stores st) name user_id "violationCount" = Some (VInt violations) ->
  Z.abs total + Z.of_nat (length Records) < coefficient_limit ->
  Z.abs violations + Z.of_nat (length Records) < coefficient_limit ->
  let st' := snd (Profanity.lambda_handler is_profane Records st) in
  exists total' violations',
    item_attribute (stores st') name user_id "totalReviews" = Some (VInt total')
    /\ item_attribute (stores st') name user_id "violationCount" = Some (VInt violations')
    /\ total <= total' <= total + Z.of_nat (length Records)
    /\ violations <= violations'
    /\ violations' - violations <= total' - total.
Proof.
  intros Htotal Hviolations Hroom Hroom' st'.
  assert (record_satisfies (stores st) name user_id (grown total violations 0)) as Hrec.
  { unfold item_attribute in Htotal, Hviolations.
    destruct (tables (stores st) !! name) as [t| ] eqn:Ht; [ |discriminate].
    destruct (items t !! user_id) as [it| ] eqn:Hit; [ |discriminate].
    exists t, it. split; [exact Ht| ]. split; [exact Hit| ].
    exists total, violations. repeat split; (assumption || lia). }
  assert (forall (rest : list stream_record) (j : nat) (st0 : state),
            Z.abs total + Z.of_nat (j + length rest) < coefficient_limit ->
            Z.abs violations + Z.of_nat (j + length rest) < coefficient_limit ->
            record_satisfies (stores st0) name user_id (grown total violations j) ->
            record_satisfies
              (stores (snd (for_each rest (Profanity.process_record is_profane) st0)))
              name user_id (grown total violations (j + length rest))) as Hbatch.
  { induction rest as [ |record rest IH]; intros j st0 H1 H2 H0.
    - simpl. rewrite Nat.add_0_r. exact H0.
    - cbn [length] in *. simpl for_each. unfold bind.
      pose proof (counters_grow_one record st0 name user_id total violations j) as Hone.
      destruct (Profanity.process_record is_profane record st0) as [[e|[]] st1];
        simpl in Hone.
      + apply (record_satisfies_weaken _ _ _ (grown total violations (S j)));
          [ |apply Hone; [lia|lia|exact H0]].
        intros it (total' & violations' & H3 & H4 & H5).
        exists total', violations'. repeat split; (assumption || lia).
      + replace (j + S (length rest))%nat with (S j + length rest)%nat by lia.
        apply IH; [lia|lia| ]. apply Hone; [lia|lia|exact H0]. }
  specialize (Hbatch Records 0%nat st Hroom Hroom' Hrec). simpl in Hbatch.
  assert (stores st'
          = stores (snd (for_each Records (Profanity.process_record is_profane) st))) as Hs.
  { subst st'. unfold Profanity.lambda_handler, bind.
    destruct (for_each Records (Profanity.process_record is_profane) st) as [[e|[]] st1];
      reflexivity. }
  rewrite Hs.
  destruct Hbatch as (t & it & Ht & Hit & total' & violations' & H1 & H2 & H3).
  exists total', violations'. unfold item_attribute. rewrite Ht, Hit.
  repeat split; (assumption || lia).
Qed.

End ProfanityFrame.

(** X11 at the third flagged review of a customer. *)
Lemma first_dates_are_kept_witness :
  let st := Samples.start (Samples.world_with {[ "u1" := Samples.flagged_customer 2 None ]}) in
  item_attribute
    (stores (snd (Profanity.lambda_handler Samples.is_profane [Samples.r1_inserted] st)))
    "customers" "u1" "firstViolationDate"
  = Some (VStr "2025-05-01T09:00:00").
Proof.
  intros st. apply first_dates_are_kept; [right; right; left; reflexivity|reflexivity].
Defined.

(** X12 at the third flagged review of a customer. *)
Lemma counters_only_grow_witness :
  let st := Samples.start (Samples.world_with {[ "u1" := Samples.flagged_customer 2 None ]}) in
  let st' := snd (Profanity.lambda_handler Samples.is_profane [Samples.r1_inserted] st) in
  exists total' violations',
    item_attribute (stores st') "customers" "u1" "totalReviews" = Some (VInt total')
    /\ item_attribute (stores st') "customers" "u1" "violationCount"
       = Some (VInt violations')
    /\ 2 <= total' <= 2 + 1 /\ 2 <= violations' /\ violations' - 2 <= total' - 2.
Proof.
  intros st st'.
  apply (counters_only_grow Samples.is_profane [Samples.r1_inserted] st "customers" "u1" 2 2);
    [reflexivity|reflexivity| | ]; vm_compute; reflexivity.
Defined.

Lemma fresh_clean_violationCount (found : option dict) (uid : string) (now : string)
    (fresh : dict) :
  fresh_customer found uid false now = inr fresh ->
  fresh !! "violationCount" = Some (uncounted found "violationCount").
Proof.
  destruct found as [it| ]; simpl.
  - unfold Profanity.update_expression, Profanity.when_missing.
    destruct (add1 _) as [e|total]; [discriminate| ].
    intros [= <-].
    destruct (it !! "violationCount") as [v| ] eqn:Hv.
    + assert (contains it "violationCount" = true) as ->
        by (unfold contains; rewrite Hv; reflexivity).
      assert (get it "violationCount" (VInt 0) = v) as ->
        by (unfold get; rewrite Hv; reflexivity).
      repeat destruct (contains it _); rewrite lookup_assign; simpl;
        rewrite ?lookup_insert_ne by discriminate; exact Hv.
    + assert (contains it "violationCount" = false) as ->
        by (unfold contains; rewrite Hv; reflexivity).
      assert (get it "violationCount" (VInt 0) = VInt 0) as ->
        by (unfold get; rewrite Hv; reflexivity).
      repeat destruct (contains it _); rewrite lookup_assign; reflexivity.
  - intros [= <-]. reflexivity.
Qed.

Section ProfanityReview.

Variable is_profane : value -> exn + bool.

(** X13. A delivery of a review the classifier does not flag, processed
    without an error, counts no violation: [violationCount] keeps its
    value (it becomes 0 when the record had none, or is new), and the
    record of a user seen for the first time is not banned. *)
Theorem clean_review_counts_no_violation (record : stream_record) (img : image)
    (rid uid : string) (st : state) (ct : string) (t : table) :
  eventName record = "INSERT" -> NewImage record = Some img ->
  image_S img "reviewId" = inr rid -> image_S img "userId" = inr uid ->
  parameters (stores st) !! customers_parameter = Some ct ->
  tables (stores st) !! ct = Some t ->
  let st' := snd (Profanity.process_record is_profane record st) in
  succeeded st st' -> ~ flagged rid st st' ->
  item_attribute (stores st') ct uid "violationCount"
  = Some (uncounted (items t !! uid) "violationCount")
  /\ (items t !! uid = None ->
      item_attribute (stores st') ct uid "isBanned" = Some (VBool false)
      /\ item_attribute (stores st') ct uid "banDate" = None).
Proof.
  intros Hev Himg Hrid Huid Hct Ht st' Hok Hclean.
  destruct (process_record_succeeded is_profane record img rid uid st Hev Himg Hrid Huid Hok)
    as (hp & now & ct' & t' & fresh & final & Hnow & Hp & Hct' & Ht' & Hkey & Hfresh & Hflag
        & Hfinal & Hban).
  fold st' in Hp, Hflag, Hfinal.
  assert (ct' = ct) as -> by (unfold customers_parameter in *; congruence).
  assert (t' = t) as -> by congruence.
  assert (hp = false) as -> by (destruct hp; [exfalso; apply Hclean, Hflag; reflexivity|reflexivity]).
  pose proof (fresh_clean_violationCount _ _ _ _ Hfresh) as Hcount.
  rewrite !(item_attribute_insert _ _ _ _ _ _ _ Hfinal).
  cbv zeta in Hban. split.
  - destruct Hban as [[-> _]|[-> _]]; [exact Hcount| ].
    rewrite banned_customer_other by discriminate. exact Hcount.
  - intros Hnew. rewrite Hnew in Hfresh, Hcount. simpl in Hfresh, Hcount.
    injection Hfresh as <-.
    destruct Hban as [[-> _]|(_ & Hpos & _)]; [split; reflexivity|discriminate Hpos].
Qed.

Lemma review_marked (record : stream_record) (img : image)
    (rid uid : string) (st : state) (hp : bool) :
  eventName record = "INSERT" -> NewImage record = Some img ->
  image_S img "reviewId" = inr rid -> image_S img "userId" = inr uid ->
  let st' := snd (Profanity.process_record is_profane record st) in
  In (ProfanityChecked rid hp) (printed st st') ->
  existsb is_record_error (printed st st') = false ->
  item_attribute (stores st') "reviews" rid "hasProfanity" = Some (VBool hp)
  /\ item_attribute (stores st') "reviews" rid "profanityCheckStatus"
     = Some (VStr "completed").
Proof.
  intros Hev Himg Hrid Huid st'. subst st'.
  rewrite (process_record_insert is_profane record img rid uid st Hev Himg Hrid Huid).
  unfold try_except.
  pose proof (check_review_cases is_profane img rid uid st) as Hcases.
  destruct (Profanity.check_review is_profane img rid uid st) as [r st1].
  assert (forall lines e, output st1 = output st ++ lines -> r = inl e ->
            existsb is_record_error
              (printed st (snd (match r with
                                | inl e => print (RecordError rid e) st1
                                | inr a => (inr a, st1) end))) = false -> False) as Hfail.
  { intros lines e Ho -> . simpl. rewrite (printed_app st _ (lines ++ [RecordError rid e])).
    - rewrite existsb_app. simpl. rewrite orb_true_r. discriminate.
    - simpl. rewrite Ho, app_assoc. reflexivity. }
  destruct Hcases as [(_ & Ho & e & ->)|(hp' & Hcases)].
  { intros _ H. exfalso.
    apply (Hfail [] e); [rewrite app_nil_r; exact Ho|reflexivity|exact H]. }
  destruct Hcases as [(_ & Ho & e & ->)|(lastUpdated & tr & _ & Htr & Hkr & Hcases)].
  { intros _ H. exfalso. exact (Hfail _ e Ho eq_refl H). }
  cbv zeta in Hcases.
  assert (forall w,
            tables w !! "reviews"
            = tables (upsert "reviews" "reviewId" rid (review_update hp' lastUpdated)
                        (stores st)) !! "reviews" ->
            item_attribute w "reviews" rid "hasProfanity" = Some (VBool hp')
            /\ item_attribute w "reviews" rid "profanityCheckStatus"
               = Some (VStr "completed")) as Hmarked.
  { intros w Hw. unfold item_attribute at 1 2. rewrite Hw.
    change (item_attribute (upsert "reviews" "reviewId" rid (review_update hp' lastUpdated)
                              (stores st)) "reviews" rid "hasProfanity" = Some (VBool hp')
            /\ item_attribute (upsert "reviews" "reviewId" rid
                                 (review_update hp' lastUpdated) (stores st))
                 "reviews" rid "profanityCheckStatus" = Some (VStr "completed")).
    rewrite !(item_attribute_upsert "reviews" "reviewId" rid _ _ _ tr Htr Hkr).
    rewrite !lookup_assign. split; reflexivity. }
  destruct Hcases as [(_ & Ho & e & ->)|(ct & now & _ & Hct & Hcases)].
  { intros _ H. exfalso. exact (Hfail _ e Ho eq_refl H). }
  destruct Hcases as [(Hs & (e & Ho) & ->)|(t & fresh & Ht & Hkey & Hfresh & Hcases)].
  { simpl. rewrite (printed_app _ _ _ Ho). intros [[= <-]|[[=]|[]]] _.
    apply Hmarked. rewrite Hs. reflexivity. }
  pose proof (customers_not_reviews _ _ _ _ _ _ Htr Hkr Ht Hkey) as Hne.
  cbv zeta in Hcases.
  destruct Hcases as [(Hs & Ho & Hr)|(Hs & Ho & -> & _)].
  - destruct Hr as [(e & ->)|(-> & _)].
    { intros _ H. exfalso. exact (Hfail _ e Ho eq_refl H). }
    simpl. rewrite (printed_app _ _ _ Ho). intros Hin _.
    assert (hp' = hp) as <-.
    { destruct Hin as [[= <-]|[H|[]]]; [reflexivity| ].
      destruct (items t !! uid); discriminate H. }
    apply Hmarked. rewrite Hs. apply tables_write_item_ne, Hne.
  - simpl. rewrite (printed_app _ _ _ Ho). intros Hin _.
    assert (hp' = hp) as <-.
    { destruct Hin as [[= <-]|[H|[H|[]]]]; [reflexivity| |discriminate H].
      destruct (items t !! uid); discriminate H. }
    apply Hmarked. rewrite Hs. rewrite !tables_write_item_ne by exact Hne. reflexivity.
Qed.

(** X14. Whenever one record is processed without the failure of the record
    being printed, the review record carries the verdict that was printed
    and [profanityCheckStatus = completed], also when the customer record
    could not be updated. *)
Theorem review_marked_checked (record : stream_record) (img : image)
    (rid uid : string) (st : state) (hp : bool) :
  eventName record = "INSERT" -> NewImage record = Some img ->
  image_S img "reviewId" = inr rid -> image_S img "userId" = inr uid ->
  let st' := snd (Profanity.process_record is_profane record st) in
  In (ProfanityChecked rid hp) (printed st st') ->
  existsb is_record_error (printed st st') = false ->
  item_attribute (stores st') "reviews" rid "hasProfanity" = Some (VBool hp)
  /\ item_attribute (stores st') "reviews" rid "profanityCheckStatus"
     = Some (VStr "completed").
Proof. exact (review_marked record img rid uid st hp). Qed.

End ProfanityReview.

(** X13 at a review of a customer with two violations, with a classifier
    that flags nothing. *)
Lemma clean_review_counts_no_violation_witness :
  let never := fun _ : value => @inr exn bool false in
  let st := Samples.start (Samples.world_with {[ "u1" := Samples.flagged_customer 2 None ]}) in
  let st' := snd (Profanity.process_record never Samples.r1_inserted st) in
  item_attribute (stores st') "customers" "u1" "violationCount" = Some (VInt 2).
Proof.
  intros never st st'.
  destruct (clean_review_counts_no_violation never Samples.r1_inserted Samples.r1_image
              "r1" "u1" st "customers"
              (Table "userId" {[ "u1" := Samples.flagged_customer 2 None ]}))
    as [H _];
    [reflexivity|reflexivity|reflexivity|reflexivity|reflexivity|reflexivity| | | ].
  - vm_compute. reflexivity.
  - vm_compute. intros [H|[H|[]]]; discriminate H.
  - exact H.
Defined.

(** X14 at the first review of a customer. *)
Lemma review_marked_checked_witness :
  let st := Samples.start (Samples.world_with ∅) in
  let st' := snd (Profanity.process_record Samples.is_profane Samples.r1_inserted st) in
  item_attribute (stores st') "reviews" "r1" "hasProfanity" = Some (VBool true)
  /\ item_attribute (stores st') "reviews" "r1" "profanityCheckStatus"
     = Some (VStr "completed").
Proof.
  intros st st'.
  apply (review_marked_checked Samples.is_profane Samples.r1_inserted Samples.r1_image
           "r1" "u1" st true);
    [reflexivity|reflexivity|reflexivity|reflexivity| | ].
  - vm_compute. left. reflexivity.
  - vm_compute. reflexivity.
Defined.

(** ** The preprocess stage, step by step *)

Lemma s3_put_object_cases (bucket key : string) (body : dict) (st : state) :
  output (snd (s3_put_object bucket key body st)) = output st
  /\ match fst (s3_put_object bucket key body st) with
     | inl _ => stores (snd (s3_put_object bucket key body st)) = stores st
     | inr _ =>
         is_Some (buckets (stores st) !! bucket)
         /\ stores (snd (s3_put_object bucket key body st))
            = write_object bucket key body (stores st)
     end.
Proof.
  unfold s3_put_object, get_world, put_world, write_object, bind.
  pose proof (call_silent st) as [Hs Ho].
  destruct (call st) as [[e|[]] st1]; simpl in *; [split; assumption| ].
  rewrite Hs.
  destruct (buckets (stores st) !! bucket) as [objects| ] eqn:Hb; simpl;
    [ |split; assumption].
  split; [assumption| ]. split; [eauto| ]. reflexivity.
Qed.

(** What [generate_review_id] does, step by step. *)
Lemma generate_review_id_run (repr_other : value -> string) (review : dict) (st : state) :
  Preprocess.generate_review_id repr_other review st
  = match review !! "reviewId" with
    | Some id => (inr id, st)
    | None =>
      match item review "asin" with
      | inl e => (inl e, st)
      | inr asin =>
        match item review "reviewerID" with
        | inl e => (inl e, st)
        | inr reviewerID =>
          match encode (hash_input_of repr_other asin reviewerID review
                          (clock st (reads st))) with
          | inl e => (inl e, after_reading st)
          | inr encoded => (inr (derived_id repr_other asin reviewerID encoded),
                            after_reading st)
          end
        end
      end
    end.
Proof.
  unfold Preprocess.generate_review_id, hash_input_of, derived_id, after_reading, item.
  destruct (review !! "reviewId") as [id| ]; [reflexivity| ].
  destruct (review !! "asin") as [asin| ]; [ |reflexivity].
  destruct (review !! "reviewerID") as [reviewerID| ]; [ |reflexivity].
  cbv [bind lift ret raise read_clock]. cbv beta iota.
  destruct (encode _) as [e|encoded]; reflexivity.
Qed.

Section PreprocessSteps.

Variable canonicalize : string -> exn + string.
Variable to_float : value -> exn + Q.
Variable to_decimal : value -> exn + value.
Variable utcfromtimestamp_iso : value -> exn + string.
Variable strptime_iso : value -> option string.
Variable repr_other : value -> string.

Let handler :=
  Preprocess.lambda_handler canonicalize to_float to_decimal utcfromtimestamp_iso
    strptime_iso repr_other.
Let ingest :=
  Preprocess.ingest canonicalize to_float to_decimal utcfromtimestamp_iso
    strptime_iso repr_other.
Let parse_review_time := Preprocess.parse_review_time utcfromtimestamp_iso strptime_iso.
Let generate_review_id := Preprocess.generate_review_id repr_other.

Lemma parse_review_time_cases (review : dict) (st : state) :
  silent st (snd (parse_review_time review st))
  /\ match fst (parse_review_time review st) with
     | inr iso =>
         match review !! "unixReviewTime" with
         | Some v => utcfromtimestamp_iso v = inr iso
         | None =>
             (exists v, review !! "reviewTime" = Some v /\ strptime_iso v = Some iso)
             \/ iso = utcnow_iso (clock st (reads st))
         end
     | inl e =>
         exists v, review !! "unixReviewTime" = Some v /\ utcfromtimestamp_iso v = inl e
     end.
Proof.
  unfold parse_review_time, Preprocess.parse_review_time, silent.
  destruct (review !! "unixReviewTime") as [v| ].
  - rewrite lift_run. simpl. destruct (utcfromtimestamp_iso v) eqn:E; eauto.
  - destruct (review !! "reviewTime") as [v| ].
    + destruct (strptime_iso v) as [iso| ] eqn:E; simpl; eauto 6.
    + simpl. eauto.
Qed.

Lemma generate_review_id_cases (review : dict) (st : state) :
  silent st (snd (generate_review_id review st))
  /\ forall rid, fst (generate_review_id review st) = inr rid ->
       match review !! "reviewId" with
       | Some id => rid = id
       | None =>
           exists asin reviewerID suffix,
             review !! "asin" = Some asin /\ review !! "reviewerID" = Some reviewerID
             /\ rid = VStr (Preprocess.format repr_other asin +:+ "_"
                            +:+ Preprocess.format repr_other reviewerID +:+ "_" +:+ suffix)
       end.
Proof.
  unfold generate_review_id. rewrite generate_review_id_run. unfold silent, item, derived_id.
  destruct (review !! "reviewId") as [id| ].
  - simpl. split; [auto| ]. intros rid [= <-]. reflexivity.
  - destruct (review !! "asin") as [asin| ]; [ |simpl; split; [auto|discriminate]].
    destruct (review !! "reviewerID") as [reviewerID| ];
      [ |simpl; split; [auto|discriminate]].
    destruct (encode _) as [e|encoded]; cbn [fst snd stores output after_reading];
      (split; [auto| ]); [discriminate| ].
    intros rid [= <-]. eauto 6.
Qed.

Lemma tables_write_object (bucket key : string) (body : dict) (w : world) :
  tables (write_object bucket key body w) = tables w
  /\ parameters (write_object bucket key body w) = parameters w.
Proof. unfold write_object. destruct (buckets w !! bucket); split; reflexivity. Qed.

Lemma s3_get_object_object_at (bucket key : string) (st : state) (body : dict) :
  fst (s3_get_object bucket key st) = inr body ->
  object_at (stores st) bucket key = Some body.
Proof.
  intros H. destruct (s3_get_object_inr bucket key st body H) as (objects & Hb & Hk).
  unfold object_at. rewrite Hb. exact Hk.
Qed.

(** What a run of the body of the handler did: nothing, or the processed
    object was written and then, if nothing failed, the review record. *)
Lemma ingest_cases (event : list (string * string)) (st st' : state)
    (r : exn + Preprocess.response) :
  ingest event st = (r, st') ->
  (stores st' = stores st /\ is_inl r)
  \/ exists source_bucket key rest pb rt review rid reviewerID asin raw_overall overall
            text summary timestamp,
       event = (source_bucket, key) :: rest
       /\ parameters (stores st) !! "/app/config/processed_bucket" = Some pb
       /\ parameters (stores st) !! "/app/config/reviews_table" = Some rt
       /\ object_at (stores st) source_bucket key = Some review
       /\ Preprocess.validate Preprocess.required_fields review = inr tt
       /\ review !! "reviewerID" = Some reviewerID /\ review !! "asin" = Some asin
       /\ review !! "overall" = Some raw_overall /\ to_float raw_overall = inr overall
       /\ Preprocess.preprocess_text canonicalize (get review "reviewText" (VStr ""))
          = inr text
       /\ Preprocess.preprocess_text canonicalize (get review "summary" (VStr ""))
          = inr summary
       /\ (forall v, review !! "unixReviewTime" = Some v ->
                     utcfromtimestamp_iso v = inr timestamp)
       /\ (forall id, review !! "reviewId" = Some id -> rid = id)
       /\ is_Some (buckets (stores st) !! pb)
       /\ let pkey := processed_key_of repr_other reviewerID rid in
          let data : dict :=
            list_to_map
              [ ("reviewId", rid);
                ("reviewerID", reviewerID);
                ("asin", asin);
                ("overall", VReal overall);
                ("preprocessedReviewText", VStr text);
                ("preprocessedSummary", VStr summary);
                ("originalReviewText", get review "reviewText" (VStr ""));
                ("originalSummary", get review "summary" (VStr ""));
                ("category", get review "category" (VStr "uncategorized"));
                ("reviewerName", get review "reviewerName" (VStr ""));
                ("timestamp", VStr timestamp);
                ("helpful", get review "helpful" (VList [VInt 0; VInt 0])) ] in
          let w1 := write_object pb pkey data (stores st) in
          (stores st' = w1 /\ is_inl r)
          \/ exists t k overallRating timestamp' helpfulVotes totalVotes createdAt,
               let item : dict :=
                 list_to_map
                   [ ("reviewId", rid);
                     ("userId", reviewerID);
                     ("productId", asin);
                     ("originalTextLocation",
                      VStr ("s3://" +:+ source_bucket +:+ "/" +:+ key));
                     ("preprocessedLocation", VStr ("s3://" +:+ pb +:+ "/" +:+ pkey));
                     ("overallRating", overallRating);
                     ("timestamp", VStr timestamp');
                     ("wordCount", Preprocess.count_words text);
                     ("summaryWordCount", Preprocess.count_words summary);
                     ("helpfulVotes", helpfulVotes);
                     ("totalVotes", totalVotes);
                     ("reviewerName", get review "reviewerName" (VStr ""));
                     ("productCategory", get review "category" (VStr "uncategorized"));
                     ("processingStatus", VStr "preprocessed");
                     ("createdAt", VStr createdAt);
                     ("hasProfanity", VNone);
                     ("sentiment", VNone);
                     ("profanityCheckStatus", VStr "pending");
                     ("sentimentAnalysisStatus", VStr "pending") ] in
               tables (stores st) !! rt = Some t
               /\ item !! key_name t = Some (VStr k)
               /\ stores st' = write_item rt k item w1
               /\ r = inr (Preprocess.Response200 rid pkey)
               /\ output st'
                  = output st ++ [Processing source_bucket key; Preprocessed rid].
Proof.
  unfold ingest, Preprocess.ingest.
  pose proof (get_ssm_param_cases "/app/config/raw_bucket" st) as H1.
  bind_step E1 as raw st1.
  { destruct H1 as [Hs1 _]. intros [= <- <-]. left. unfold is_inl. eauto. }
  destruct H1 as ((Hs1 & Ho1) & _ & _). clear E1.
  pose proof (get_ssm_param_cases "/app/config/processed_bucket" st1) as H2.
  bind_step E2 as pb st2.
  { destruct H2 as [Hs2 _]. intros [= <- <-]. left. unfold is_inl. split; [congruence|eauto]. }
  destruct H2 as ((Hs2 & Ho2) & Hpb & _). rewrite Hs1 in Hpb. clear E2.
  pose proof (get_ssm_param_cases "/app/config/reviews_table" st2) as H3.
  bind_step E3 as rt st3.
  { destruct H3 as [Hs3 _]. intros [= <- <-]. left. unfold is_inl. split; [congruence|eauto]. }
  destruct H3 as ((Hs3 & Ho3) & Hrt & _). rewrite Hs2, Hs1 in Hrt. clear E3.
  assert (stores st3 = stores st) as Hs by congruence.
  assert (output st3 = output st) as Ho by congruence.
  clear Hs1 Hs2 Hs3 Ho1 Ho2 Ho3 st1 st2 raw.
  destruct event as [ |[source_bucket key] rest].
  { intros [= <- <-]. left. unfold is_inl. eauto. }
  rewrite (bind_inr (print _) _ st3 _ tt eq_refl).
  set (st4 := State _ _ _ _ _).
  assert (stores st4 = stores st) as Hs4 by exact Hs.
  assert (output st4 = output st ++ [Processing source_bucket key]) as Ho4
    by (subst st4; simpl; rewrite Ho; reflexivity).
  clearbody st4. clear Hs Ho st3.
  pose proof (s3_get_object_silent source_bucket key st4) as [Hs5 Ho5].
  pose proof (s3_get_object_object_at source_bucket key st4) as Hobject.
  bind_step E5 as review st5; simpl in Hs5, Ho5.
  { intros [= <- <-]. left. unfold is_inl. split; [congruence|eauto]. }
  specialize (Hobject review eq_refl). rewrite Hs4 in Hobject. clear E5.
  rewrite Hs4 in Hs5. rewrite Ho4 in Ho5. clear Hs4 Ho4 st4.
  unfold bind at 1. rewrite lift_run.
  destruct (Preprocess.validate Preprocess.required_fields review) as [e|[]] eqn:Hvalid.
  { intros [= <- <-]. left. unfold is_inl. eauto. }
  pose proof (generate_review_id_cases review st5) as [[Hs6 Ho6] Hrid].
  fold generate_review_id.
  bind_step E6 as rid st6; simpl in Hs6, Ho6.
  { intros [= <- <-]. left. unfold is_inl. split; [congruence|eauto]. }
  specialize (Hrid rid eq_refl). clear E6.
  rewrite Hs5 in Hs6. rewrite Ho5 in Ho6. clear Hs5 Ho5 st5.
  unfold item.
  unfold bind at 1. rewrite lift_run.
  destruct (review !! "reviewerID") as [reviewerID| ] eqn:HreviewerID;
    [ |intros [= <- <-]; left; unfold is_inl; eauto].
  unfold bind at 1. rewrite lift_run.
  destruct (review !! "asin") as [asin| ] eqn:Hasin;
    [ |intros [= <- <-]; left; unfold is_inl; eauto].
  unfold bind at 1. rewrite lift_run.
  destruct (review !! "overall") as [raw_overall| ] eqn:Hraw;
    [ |intros [= <- <-]; left; unfold is_inl; eauto].
  unfold bind at 1. rewrite lift_run.
  destruct (to_float raw_overall) as [e|overall] eqn:Hoverall;
    [intros [= <- <-]; left; unfold is_inl; eauto| ].
  unfold bind at 1. rewrite lift_run.
  destruct (Preprocess.preprocess_text canonicalize (get review "reviewText" (VStr "")))
    as [e|text] eqn:Htext; [intros [= <- <-]; left; unfold is_inl; eauto| ].
  unfold bind at 1. rewrite lift_run.
  destruct (Preprocess.preprocess_text canonicalize (get review "summary" (VStr "")))
    as [e|summary] eqn:Hsummary; [intros [= <- <-]; left; unfold is_inl; eauto| ].
  pose proof (parse_review_time_cases review st6) as [[Hs7 Ho7] Htime].
  fold parse_review_time.
  bind_step E7 as timestamp st7; simpl in Hs7, Ho7, Htime.
  { intros [= <- <-]. left. unfold is_inl. split; [congruence|eauto]. }
  clear E7. rewrite Hs6 in Hs7. rewrite Ho6 in Ho7. clear Hs6 Ho6.
  assert (forall v, review !! "unixReviewTime" = Some v ->
                    utcfromtimestamp_iso v = inr timestamp) as Htime'.
  { intros v Hv. rewrite Hv in Htime. exact Htime. }
  clear Htime st6.
  fold (processed_key_of repr_other reviewerID rid).
  set (pkey := processed_key_of repr_other reviewerID rid).
  set (data := list_to_map _ : dict).
  pose proof (s3_put_object_cases pb pkey data st7) as [Ho8 Hput].
  bind_step E8 as u st8; simpl in Ho8, Hput.
  { intros [= <- <-]. left. unfold is_inl. split; [congruence|eauto]. }
  destruct Hput as [Hbucket Hs8]. rewrite Hs7 in Hbucket, Hs8. rewrite Ho7 in Ho8.
  clear E8 Hs7 Ho7 st7 u.
  assert (forall id, review !! "reviewId" = Some id -> rid = id) as Hid.
  { intros id Hid. rewrite Hid in Hrid. exact Hrid. }
  clear Hrid.
  intros Hrest. right.
  exists source_bucket, key, rest, pb, rt, review, rid, reviewerID, asin, raw_overall,
    overall, text, summary, timestamp.
  do 14 (split; [first [reflexivity|assumption]| ]).
  cbv zeta. fold pkey. fold data.
  revert Hrest.
  unfold bind at 1. rewrite lift_run.
  destruct (to_decimal raw_overall) as [e|overallRating];
    [intros [= <- <-]; left; unfold is_inl; eauto| ].
  pose proof (parse_review_time_cases review st8) as [[Hs9 Ho9] _].
  bind_step E9 as timestamp' st9; simpl in Hs9, Ho9.
  { intros [= <- <-]. left. unfold is_inl. split; [congruence|eauto]. }
  clear E9. rewrite Hs8 in Hs9. rewrite Ho8 in Ho9. clear Hs8 Ho8 st8.
  unfold bind at 1. rewrite lift_run.
  destruct (Preprocess.votes to_decimal _ 0) as [e|helpfulVotes];
    [intros [= <- <-]; left; unfold is_inl; eauto| ].
  unfold bind at 1. rewrite lift_run.
  destruct (Preprocess.votes to_decimal _ 1) as [e|totalVotes];
    [intros [= <- <-]; left; unfold is_inl; eauto| ].
  rewrite (bind_inr read_clock _ st9 _ _ eq_refl).
  set (st10 := State _ _ _ _ _). set (createdAt := utcnow_iso _).
  assert (stores st10 = write_object pb pkey data (stores st)) as Hs10 by exact Hs9.
  assert (output st10 = output st ++ [Processing source_bucket key]) as Ho10 by exact Ho9.
  clearbody st10 createdAt. clear Hs9 Ho9 st9.
  set (item := list_to_map _ : dict).
  pose proof (put_item_cases rt item st10) as [Ho11 Hitem].
  bind_step E11 as u st11; simpl in Ho11, Hitem.
  { intros [= <- <-]. left. unfold is_inl. split; [congruence|eauto]. }
  destruct Hitem as (t & k & Ht & Hk & Hs11). rewrite Hs10 in Ht, Hs11.
  rewrite (proj1 (tables_write_object _ _ _ _)) in Ht.
  intros [= <- <-]. right.
  exists t, k, overallRating, timestamp', helpfulVotes, totalVotes, createdAt.
  cbv zeta. fold item.
  split; [exact Ht| ]. split; [exact Hk| ]. split; [exact Hs11| ].
  split; [reflexivity| ]. simpl. rewrite Ho11, Ho10, <- app_assoc. reflexivity.
Qed.

End PreprocessSteps.

Section PreprocessOutcome.

Variable canonicalize : string -> exn + string.
Variable to_float : value -> exn + Q.
Variable to_decimal : value -> exn + value.
Variable utcfromtimestamp_iso : value -> exn + string.
Variable strptime_iso : value -> option string.
Variable repr_other : value -> string.

Let handler :=
  Preprocess.lambda_handler canonicalize to_float to_decimal utcfromtimestamp_iso
    strptime_iso repr_other.
Let ingest :=
  Preprocess.ingest canonicalize to_float to_decimal utcfromtimestamp_iso
    strptime_iso repr_other.

Lemma handler_run (event : list (string * string)) (st : state) :
  handler event st
  = match ingest event st with
    | (inl e, st') =>
        (inr (Preprocess.Response500 (exn_str e)),
         State (faults st') (clock st') (reads st') (output st' ++ [HandlerError e])
               (stores st'))
    | (inr response, st') => (inr response, st')
    end.
Proof.
  unfold handler, Preprocess.lambda_handler, try_except. fold ingest.
  destruct (ingest event st) as [[e|response] st']; reflexivity.
Qed.

(** X15. The preprocess handler never raises, and it writes the processed
    object before the review record: it answers 500 having written nothing,
    or having written the processed object only; it answers 200 once it has
    written the processed object under [preprocessed/<reviewerID>/<id>.json]
    of the processed bucket and then the review record, which carries the
    identifier of the answer. *)
Theorem preprocess_writes_object_then_record (event : list (string * string)) (st : state) :
  let run := handler event st in
  (exists error, fst run = inr (Preprocess.Response500 error)
                 /\ stores (snd run) = stores st)
  \/ (exists error pb pkey data,
        fst run = inr (Preprocess.Response500 error)
        /\ parameters (stores st) !! "/app/config/processed_bucket" = Some pb
        /\ is_Some (buckets (stores st) !! pb)
        /\ stores (snd run) = write_object pb pkey data (stores st))
  \/ (exists rid reviewerID pb rt data t k item,
        fst run = inr (Preprocess.Response200 rid (processed_key_of repr_other reviewerID rid))
        /\ parameters (stores st) !! "/app/config/processed_bucket" = Some pb
        /\ parameters (stores st) !! "/app/config/reviews_table" = Some rt
        /\ is_Some (buckets (stores st) !! pb)
        /\ tables (stores st) !! rt = Some t
        /\ item !! key_name t = Some (VStr k)
        /\ item !! "reviewId" = Some rid /\ data !! "reviewId" = Some rid
        /\ stores (snd run)
           = write_item rt k item
               (write_object pb (processed_key_of repr_other reviewerID rid) data (stores st))).
Proof.
  intros run. subst run. rewrite handler_run.
  pose proof (ingest_cases canonicalize to_float to_decimal utcfromtimestamp_iso
                strptime_iso repr_other event st) as Hcases. fold ingest in Hcases.
  destruct (ingest event st) as [r st'].
  destruct (Hcases st' r eq_refl) as [(Hs & e & ->)|Hwritten].
  { left. simpl. eauto. }
  destruct Hwritten as (source_bucket & key & rest & pb & rt & review & rid & reviewerID
                        & asin & raw_overall & overall & text & summary & timestamp
                        & _ & Hpb & Hrt & _ & _ & _ & _ & _ & _ & _ & _ & _ & _ & Hbucket
                        & Hrest).
  cbv zeta in Hrest.
  destruct Hrest as [(Hs & e & ->)|(t & k & overallRating & timestamp' & helpfulVotes
                                     & totalVotes & createdAt & Ht & Hk & Hs & -> & _)].
  - right. left. simpl. eauto 10.
  - right. right. simpl.
    match type of Hs with
    | _ = write_item _ _ ?item (write_object _ _ ?data _) =>
        exists rid, reviewerID, pb, rt, data, t, k, item
    end.
    split; [reflexivity| ]. split; [exact Hpb| ]. split; [exact Hrt| ].
    split; [exact Hbucket| ]. split; [exact Ht| ]. split; [exact Hk| ].
    split; [reflexivity| ]. split; [reflexivity| ]. exact Hs.
Qed.

Lemma object_at_write_object (bucket key : string) (body : dict) (w : world) :
  is_Some (buckets w !! bucket) ->
  object_at (write_object bucket key body w) bucket key = Some body.
Proof.
  intros [objects Hb]. unfold object_at, write_object. rewrite Hb. simpl.
  rewrite lookup_insert_eq. apply lookup_insert_eq.
Qed.

Lemma object_at_write_item (name k : string) (it : dict) (w : world) (bucket key : string) :
  object_at (write_item name k it w) bucket key = object_at w bucket key.
Proof. unfold object_at, write_item. destruct (tables w !! name); reflexivity. Qed.

(** X16. When the handler answers 200 for the review uploaded under
    [key] of [source_bucket], the stores hold what the later stages start
    from: the processed object is under the key of the answer in the
    processed bucket and carries the identifier and both original texts of
    that review ([reviewText], and [summary] or the empty text), and the
    review record carries the identifier, the location of the upload and
    of the processed object, [processingStatus = preprocessed], both later
    statuses [pending] and [hasProfanity] and [sentiment] still null. *)
Theorem preprocessed_review_is_pending (source_bucket key : string)
    (rest : list (string * string)) (st : state) (review : dict) (rid : value)
    (pkey : string) :
  object_at (stores st) source_bucket key = Some review ->
  fst (handler ((source_bucket, key) :: rest) st) = inr (Preprocess.Response200 rid pkey) ->
  let st' := snd (handler ((source_bucket, key) :: rest) st) in
  exists pb rt k data,
    parameters (stores st) !! "/app/config/processed_bucket" = Some pb
    /\ parameters (stores st) !! "/app/config/reviews_table" = Some rt
    /\ object_at (stores st') pb pkey = Some data
    /\ data !! "reviewId" = Some rid
    /\ data !! "originalReviewText" = Some (get review "reviewText" (VStr ""))
    /\ data !! "originalSummary" = Some (get review "summary" (VStr ""))
    /\ item_attribute (stores st') rt k "reviewId" = Some rid
    /\ item_attribute (stores st') rt k "originalTextLocation"
       = Some (VStr ("s3://" +:+ source_bucket +:+ "/" +:+ key))
    /\ item_attribute (stores st') rt k "preprocessedLocation"
       = Some (VStr ("s3://" +:+ pb +:+ "/" +:+ pkey))
    /\ item_attribute (stores st') rt k "processingStatus" = Some (VStr "preprocessed")
    /\ item_attribute (stores st') rt k "profanityCheckStatus" = Some (VStr "pending")
    /\ item_attribute (stores st') rt k "sentimentAnalysisStatus" = Some (VStr "pending")
    /\ item_attribute (stores st') rt k "hasProfanity" = Some VNone
    /\ item_attribute (stores st') rt k "sentiment" = Some VNone.
Proof.
  intros Hobject Hok st'. subst st'. revert Hok. rewrite handler_run.
  pose proof (ingest_cases canonicalize to_float to_decimal utcfromtimestamp_iso
                strptime_iso repr_other ((source_bucket, key) :: rest) st) as Hcases.
  fold ingest in Hcases.
  destruct (ingest ((source_bucket, key) :: rest) st) as [[e|response] st']; [discriminate| ].
  simpl. intros [= ->].
  destruct (Hcases st' _ eq_refl) as [(_ & e & [=])|Hwritten].
  destruct Hwritten as (source_bucket' & key' & rest' & pb & rt & review' & rid' & reviewerID
                        & asin & raw_overall & overall & text & summary & timestamp
                        & [= <- <- <-] & Hpb & Hrt & Hobject' & _ & _ & _ & _ & _ & _ & _
                        & _ & _ & Hbucket & Hrest).
  assert (review' = review) as -> by congruence.
  cbv zeta in Hrest.
  destruct Hrest as [(_ & e & [=])|(t & k & overallRating & timestamp' & helpfulVotes
                                    & totalVotes & createdAt & Ht & Hk & Hs & [= <- ->] & _)].
  match type of Hs with
  | _ = write_item _ _ _ (write_object _ _ ?data _) => exists pb, rt, k, data
  end.
  split; [exact Hpb| ]. split; [exact Hrt| ].
  split; [rewrite Hs, object_at_write_item; apply object_at_write_object, Hbucket| ].
  do 3 (split; [reflexivity| ]).
  match type of Hs with
  | _ = write_item _ _ ?item _ =>
      assert (tables (stores st') !! rt
              = Some (Table (key_name t) (<[k := item]> (items t)))) as Hitem
  end.
  { rewrite Hs. apply tables_write_item.
    rewrite (proj1 (tables_write_object _ _ _ _)). exact Ht. }
  rewrite !(item_attribute_insert _ _ _ _ _ _ _ Hitem).
  repeat split; reflexivity.
Qed.

(** X17. A review the stage cannot convert is rejected before anything is
    written: when [float] does not read its [overall], or its
    [unixReviewTime] is no timestamp, or the text pipeline fails on its
    text or summary, the handler answers 500 and leaves the stores as they
    were. *)
Theorem unconvertible_review_writes_nothing (st : state) (bucket key : string)
    (rest : list (string * string)) (review : dict) :
  object_at (stores st) bucket key = Some review ->
  (exists v, review !! "overall" = Some v /\ is_inl (to_float v))
  \/ (exists v, review !! "unixReviewTime" = Some v /\ is_inl (utcfromtimestamp_iso v))
  \/ is_inl (Preprocess.preprocess_text canonicalize (get review "reviewText" (VStr "")))
  \/ is_inl (Preprocess.preprocess_text canonicalize (get review "summary" (VStr ""))) ->
  let run := handler ((bucket, key) :: rest) st in
  stores (snd run) = stores st
  /\ exists error, fst run = inr (Preprocess.Response500 error).
Proof.
  intros Hobject Hbad run. subst run. rewrite handler_run.
  pose proof (ingest_cases canonicalize to_float to_decimal utcfromtimestamp_iso
                strptime_iso repr_other ((bucket, key) :: rest) st) as Hcases.
  fold ingest in Hcases.
  destruct (ingest ((bucket, key) :: rest) st) as [r st'].
  destruct (Hcases st' r eq_refl) as [(Hs & e & ->)|Hwritten]; [simpl; eauto| ].
  exfalso.
  destruct Hwritten as (source_bucket & key' & rest' & pb & rt & review' & rid & reviewerID
                        & asin & raw_overall & overall & text & summary & timestamp
                        & [= <- <- <-] & _ & _ & Hobject' & _ & _ & _ & Hraw & Hfloat
                        & Htext & Hsummary & Htime & _).
  assert (review' = review) as -> by congruence.
  destruct Hbad as [(v & Hv & e & He)|[(v & Hv & e & He)|[(e & He)|(e & He)]]].
  - congruence.
  - rewrite (Htime v Hv) in He. discriminate He.
  - congruence.
  - congruence.
Qed.

(** X18. An event without records, which is what the module passes to its
    handler when it is run as a script, is answered with status 500 and the
    message of the [IndexError], once the configuration has been read;
    nothing is written. *)
Theorem empty_event_rejected (st : state) :
  faults st = [] ->
  is_Some (parameters (stores st) !! "/app/config/raw_bucket") ->
  is_Some (parameters (stores st) !! "/app/config/processed_bucket") ->
  is_Some (parameters (stores st) !! "/app/config/reviews_table") ->
  let run := handler [] st in
  fst run = inr (Preprocess.Response500 "list index out of range")
  /\ stores (snd run) = stores st
  /\ output (snd run) = output st ++ [HandlerError IndexError].
Proof.
  intros Hf [raw Hraw] [processed Hprocessed] [table Htable] run. subst run.
  rewrite handler_run.
  assert (forall name v, parameters (stores st) !! name = Some v ->
                         Preprocess.get_ssm_param name st = (inr v, st)) as Hssm.
  { intros name v Hv. unfold Preprocess.get_ssm_param, try_except.
    rewrite (ssm_get_parameter_ok name st v Hf Hv). reflexivity. }
  unfold ingest, Preprocess.ingest.
  rewrite (bind_inr _ _ _ _ _ (Hssm _ _ Hraw)).
  rewrite (bind_inr _ _ _ _ _ (Hssm _ _ Hprocessed)).
  rewrite (bind_inr _ _ _ _ _ (Hssm _ _ Htable)).
  simpl. auto.
Qed.

End PreprocessOutcome.

(** X19. [get_ssm_param] reads without writing or printing, and it raises
    nothing but its own [ValueError]: it returns the value the parameter
    has, or raises [SSM Error (<name>): <cause>]; when no call fails it
    returns the value of every parameter that is there. *)
Theorem get_ssm_param_outcome (name : string) (st : state) :
  let run := Preprocess.get_ssm_param name st in
  silent st (snd run)
  /\ match fst run with
     | inr v => parameters (stores st) !! name = Some v
     | inl e => exists cause, e = ValueError ("SSM Error (" +:+ name +:+ "): " +:+ cause)
     end
  /\ (faults st = [] ->
      forall v, parameters (stores st) !! name = Some v -> fst run = inr v).
Proof.
  unfold Preprocess.get_ssm_param, try_except, ssm_get_parameter, bind, call, get_world,
    silent.
  destruct st as [fs clk rd out w]. simpl.
  destruct fs as [ |[] fs]; simpl.
  - destruct (parameters w !! name); simpl; (split; [auto| ]); (split; [eauto| ]);
      intros _ v' [= <-]; reflexivity.
  - split; [auto| ]. split; [eauto|discriminate].
  - destruct (parameters w !! name); simpl; (split; [auto| ]); (split; [eauto|discriminate]).
Qed.

(** X16 at the upload of the sample review. *)
Lemma preprocessed_review_is_pending_witness :
  let run :=
    Preprocess.lambda_handler Samples.canonicalize Samples.to_float Samples.to_decimal
      Samples.utcfromtimestamp_iso Samples.strptime_iso Samples.repr_other
      Samples.r1_uploaded (Samples.start (Samples.world_with ∅)) in
  let rid := VStr "B001_u1_4df9ccbb" in
  let pkey := "preprocessed/u1/B001_u1_4df9ccbb.json" in
  exists pb rt k data,
    parameters (Samples.world_with ∅) !! "/app/config/processed_bucket" = Some pb
    /\ parameters (Samples.world_with ∅) !! "/app/config/reviews_table" = Some rt
    /\ object_at (stores (snd run)) pb pkey = Some data
    /\ data !! "reviewId" = Some rid
    /\ data !! "originalReviewText" = Some (VStr "damn bad product")
    /\ data !! "originalSummary" = Some (VStr "awful")
    /\ item_attribute (stores (snd run)) rt k "reviewId" = Some rid
    /\ item_attribute (stores (snd run)) rt k "originalTextLocation"
       = Some (VStr "s3://raw/u1/r1.json")
    /\ item_attribute (stores (snd run)) rt k "preprocessedLocation"
       = Some (VStr ("s3://" +:+ pb +:+ "/" +:+ pkey))
    /\ item_attribute (stores (snd run)) rt k "processingStatus" = Some (VStr "preprocessed")
    /\ item_attribute (stores (snd run)) rt k "profanityCheckStatus" = Some (VStr "pending")
    /\ item_attribute (stores (snd run)) rt k "sentimentAnalysisStatus"
       = Some (VStr "pending")
    /\ item_attribute (stores (snd run)) rt k "hasProfanity" = Some VNone
    /\ item_attribute (stores (snd run)) rt k "sentiment" = Some VNone.
Proof.
  intros run rid pkey.
  apply (preprocessed_review_is_pending Samples.canonicalize Samples.to_float
           Samples.to_decimal Samples.utcfromtimestamp_iso Samples.strptime_iso
           Samples.repr_other "raw" "u1/r1.json" [] (Samples.start (Samples.world_with ∅))
           Samples.profane_review rid pkey).
  - reflexivity.
  - vm_compute. reflexivity.
Defined.

(** X17 at a payload whose [overall] is a word. *)
Lemma unconvertible_review_writes_nothing_witness :
  let w :=
    World Samples.configuration
          (<["raw" := {[ "u1/r1.json" := <["overall" := VStr "five"]> Samples.profane_review ]}]>
             Samples.uploads)
          (tables (Samples.world_with ∅)) in
  let run :=
    Preprocess.lambda_handler Samples.canonicalize Samples.to_float Samples.to_decimal
      Samples.utcfromtimestamp_iso Samples.strptime_iso Samples.repr_other
      Samples.r1_uploaded (Samples.start w) in
  stores (snd run) = w /\ exists error, fst run = inr (Preprocess.Response500 error).
Proof.
  intros w run.
  apply (unconvertible_review_writes_nothing Samples.canonicalize Samples.to_float
           Samples.to_decimal Samples.utcfromtimestamp_iso Samples.strptime_iso
           Samples.repr_other (Samples.start w) "raw" "u1/r1.json" []
           (<["overall" := VStr "five"]> Samples.profane_review)).
  - reflexivity.
  - left. exists (VStr "five"). split; [reflexivity| ]. eexists. reflexivity.
Defined.

(** X18 with the sample configuration. *)
Lemma empty_event_rejected_witness :
  fst (Preprocess.lambda_handler Samples.canonicalize Samples.to_float Samples.to_decimal
         Samples.utcfromtimestamp_iso Samples.strptime_iso Samples.repr_other
         [] (Samples.start (Samples.world_with ∅)))
  = inr (Preprocess.Response500 "list index out of range").
Proof.
  destruct (empty_event_rejected Samples.canonicalize Samples.to_float Samples.to_decimal
              Samples.utcfromtimestamp_iso Samples.strptime_iso Samples.repr_other
              (Samples.start (Samples.world_with ∅))) as [H _];
    [reflexivity|vm_compute; eauto..| ].
  exact H.
Defined.

(** ** Text that is blank *)

Lemma drop_prefix_length (p s r : string) :
  drop_prefix p s = Some r -> String.length s = (String.length p + String.length r)%nat.
Proof.
  revert s. induction p as [ |a p IH]; intros s; simpl.
  - intros [= ->]. reflexivity.
  - destruct s as [ |b s]; [discriminate| ]. destruct (Ascii.eqb a b); [ |discriminate].
    intros H. simpl. rewrite (IH _ H). reflexivity.
Qed.

Lemma skip_space_prefix (s r : string) :
  skip_space s = Some r -> exists w, In w whitespace /\ drop_prefix w s = Some r.
Proof.
  unfold skip_space, skip_any. generalize whitespace as l.
  induction l as [ |w l IH]; simpl; [discriminate| ].
  destruct (drop_prefix w s) as [r'| ] eqn:E.
  - intros [= <-]. eauto.
  - intros H. destruct (IH H) as (w' & Hin & Hw'). eauto.
Qed.

Lemma whitespace_nonempty (w : string) : In w whitespace -> w <> "".
Proof.
  intros H. vm_compute in H.
  repeat (destruct H as [<-|H]; [discriminate| ]). destruct H.
Qed.

(** No white-space character starts another one: after one of them, the
    rest of the text is what [skip_space] leaves. *)
Lemma skip_space_whitespace (w s : string) :
  In w whitespace -> skip_space (w +:+ s) = Some s.
Proof.
  intros H. vm_compute in H.
  repeat (destruct H as [<-|H]; [reflexivity| ]). destruct H.
Qed.

Lemma skip_space_shorter (s r : string) :
  skip_space s = Some r -> (String.length r < String.length s)%nat.
Proof.
  intros H. destruct (skip_space_prefix _ _ H) as (w & Hin & Hw).
  apply drop_prefix_length in Hw. apply whitespace_nonempty in Hin.
  destruct w; [contradiction|simpl in Hw; lia].
Qed.

Lemma lstrip_from_step (f : nat) (s : string) :
  lstrip_from whitespace (S f) s
  = match skip_space s with
    | Some r => lstrip_from whitespace f r
    | None => s
    end.
Proof. reflexivity. Qed.

Lemma lstrip_from_done (f : nat) (s : string) :
  (String.length s <= f)%nat -> skip_space (lstrip_from whitespace f s) = None.
Proof.
  revert s. induction f as [ |f IH]; intros s Hlen.
  - destruct s; [reflexivity|simpl in Hlen; lia].
  - rewrite lstrip_from_step. destruct (skip_space s) as [r| ] eqn:E; [ |exact E].
    apply IH. apply skip_space_shorter in E. lia.
Qed.

Lemma lstrip_from_blank (f : nat) (s : string) :
  lstrip_from whitespace f s = "" -> blank s.
Proof.
  revert s. induction f as [ |f IH]; intros s.
  - intros H. change (s = "") in H. subst s. constructor.
  - rewrite lstrip_from_step.
    destruct (skip_space s) as [r| ] eqn:E; [ |intros ->; constructor].
    intros H. destruct (skip_space_prefix _ _ E) as (w & Hin & Hw).
    rewrite (drop_prefix_inv _ _ _ Hw). apply blank_space; [exact Hin|exact (IH _ H)].
Qed.

Lemma blank_lstrip_from (s : string) :
  blank s -> forall f, (String.length s <= f)%nat -> lstrip_from whitespace f s = "".
Proof.
  induction 1 as [ |w s Hin Hs IH]; intros f Hlen.
  - destruct f; reflexivity.
  - pose proof (whitespace_nonempty _ Hin) as Hw.
    assert (1 <= String.length w)%nat as Hw1
      by (destruct w; [contradiction|simpl; lia]).
    rewrite (drop_prefix_length _ _ _ (drop_prefix_app w s)) in Hlen.
    destruct f as [ |f]; [lia| ].
    rewrite lstrip_from_step, (skip_space_whitespace _ _ Hin). apply IH. lia.
Qed.

(** [strip] leaves nothing of a text exactly when the text is blank. *)
Lemma strip_empty_iff (s : string) : strip s = "" <-> blank s.
Proof.
  unfold strip, lstrip, lstrip_of. split.
  - intros H. apply (lstrip_from_blank (String.length s)).
    destruct (lstrip_from whitespace (String.length s) s) as [ |c x] eqn:E; [reflexivity| ].
    exfalso.
    assert (skip_space (String c x) = None) as Hdone
      by (rewrite <- E; apply lstrip_from_done; lia).
    change (rstrip (String c x))
      with (if String.eqb (lstrip_from whitespace (S (String.length x)) (String c x)) ""
            then "" else String c (rstrip x)) in H.
    rewrite lstrip_from_step, Hdone in H. discriminate H.
  - intros Hb. rewrite (blank_lstrip_from s Hb) by lia. reflexivity.
Qed.

Section PreprocessText.

Variable canonicalize : string -> exn + string.

(** X20. Text that is empty or made of white space only, in the sense of
    [str.isspace], is not given to the text pipeline: [preprocess_text]
    returns the empty text for it, whatever the pipeline would do, and it
    gives every other text to the pipeline as it is. *)
Theorem blank_text_is_not_tokenized (s : string) :
  (blank s -> Preprocess.preprocess_text canonicalize (VStr s) = inr "")
  /\ (~ blank s -> Preprocess.preprocess_text canonicalize (VStr s) = canonicalize s).
Proof.
  unfold Preprocess.preprocess_text.
  destruct (String.eqb_spec s "") as [->|Hne].
  { split; [reflexivity| ]. intros H. exfalso. apply H. constructor. }
  destruct (String.eqb_spec (strip s) "") as [Hstrip|Hstrip]; simpl.
  - apply strip_empty_iff in Hstrip. split; [reflexivity|contradiction].
  - split; [ |reflexivity]. intros H. apply strip_empty_iff in H. contradiction.
Qed.

End PreprocessText.

(** X20 at a text of a no-break space and a space, and at a word. *)
Lemma blank_text_is_not_tokenized_witness :
  Preprocess.preprocess_text Samples.canonicalize (VStr (of_bytes [0xc2; 0xa0; 0x20])) = inr ""
  /\ Preprocess.preprocess_text Samples.canonicalize (VStr "good")
     = Samples.canonicalize "good".
Proof.
  split.
  - apply (blank_text_is_not_tokenized Samples.canonicalize (of_bytes [0xc2; 0xa0; 0x20])).
    apply strip_empty_iff. vm_compute. reflexivity.
  - apply (blank_text_is_not_tokenized Samples.canonicalize "good").
    intros H. apply strip_empty_iff in H. vm_compute in H. discriminate H.
Defined.

Section ReviewTime.

Variable utcfromtimestamp_iso : value -> exn + string.
Variable strptime_iso : value -> option string.

(** X21. [parse_review_time] fails on nothing but a [unixReviewTime] that is
    no timestamp: a [reviewTime] that does not parse, or no time at all,
    gives the time of the run instead, and a [reviewTime] is not looked at
    when there is a [unixReviewTime]. *)
Theorem review_time_fails_on_unix_time_only (review : dict) (st : state) :
  let run := Preprocess.parse_review_time utcfromtimestamp_iso strptime_iso review st in
  (is_inl (fst run)
   <-> exists v, review !! "unixReviewTime" = Some v /\ is_inl (utcfromtimestamp_iso v))
  /\ (forall v, review !! "unixReviewTime" = Some v ->
                run = (utcfromtimestamp_iso v, st))
  /\ (review !! "unixReviewTime" = None ->
      (forall v, review !! "reviewTime" = Some v -> strptime_iso v = None) ->
      fst run = inr (utcnow_iso (clock st (reads st)))).
Proof.
  intros run. subst run. unfold Preprocess.parse_review_time.
  destruct (review !! "unixReviewTime") as [v| ].
  - rewrite lift_run. simpl. split; [ |split; [intros v' [= <-]; reflexivity|discriminate]].
    split; [intros H; eauto|intros (v' & [= <-] & H); exact H].
  - split; [ |split; [discriminate| ]].
    + split; [ |intros (v & [=] & _)].
      destruct (review !! "reviewTime") as [v| ]; [destruct (strptime_iso v)| ];
        intros [e [=]].
    + intros _ Hbad. destruct (review !! "reviewTime") as [v| ]; [ |reflexivity].
      rewrite (Hbad v eq_refl). reflexivity.
Qed.

End ReviewTime.

(** ** The shape of a digest *)

Lemma le_bytes_length (k : nat) (n : Z) : length (MD5.le_bytes k n) = k.
Proof. revert n. induction k as [ |k IH]; intros n; simpl; [reflexivity|rewrite IH; reflexivity]. Qed.

Lemma le_bytes_range (k : nat) (n : Z) :
  Forall (fun b => 0 <= b < 256) (MD5.le_bytes k n).
Proof.
  revert n. induction k as [ |k IH]; intros n; simpl; constructor; [ |apply IH].
  apply Z.mod_pos_bound. lia.
Qed.

Lemma hex_digit_is_hex (n : Z) : 0 <= n < 16 -> is_hex (MD5.hex_digit n) = true.
Proof.
  intros Hn.
  assert (exists m : nat, (m < 16)%nat /\ n = Z.of_nat m) as (m & Hm & ->).
  { exists (Z.to_nat n). lia. }
  clear Hn. do 16 (destruct m as [ |m]; [reflexivity| ]). lia.
Qed.

Lemma hex_of_bytes_shape (bs : list Z) :
  Forall (fun b => 0 <= b < 256) bs ->
  String.length (MD5.hex_of_bytes bs) = (2 * length bs)%nat
  /\ all_hex (MD5.hex_of_bytes bs) = true.
Proof.
  induction 1 as [ |b bs Hb _ [IHl IHh]]; [split; reflexivity| ].
  cbn [MD5.hex_of_bytes String.length all_hex length]. rewrite IHl, IHh.
  split; [lia| ].
  rewrite !hex_digit_is_hex; [reflexivity| | ].
  - apply Z.mod_pos_bound. lia.
  - split; [apply Z.div_pos; lia|apply Z.div_lt_upper_bound; lia].
Qed.

Lemma hexdigest_shape (s : string) :
  String.length (MD5.hexdigest s) = 32%nat /\ all_hex (MD5.hexdigest s) = true.
Proof.
  unfold MD5.hexdigest, MD5.digest.
  set (r := fold_left _ _ _).
  destruct (hex_of_bytes_shape
              (MD5.le_bytes 4 (MD5.rA r) ++ MD5.le_bytes 4 (MD5.rB r)
               ++ MD5.le_bytes 4 (MD5.rC r) ++ MD5.le_bytes 4 (MD5.rD r))) as [Hl Hh].
  { rewrite !Forall_app. repeat split; apply le_bytes_range. }
  split; [ |exact Hh]. rewrite Hl, !length_app, !le_bytes_length. reflexivity.
Qed.

Lemma substring_prefix_shape (n : nat) (s : string) :
  (n <= String.length s)%nat -> all_hex s = true ->
  String.length (String.substring 0 n s) = n /\ all_hex (String.substring 0 n s) = true.
Proof.
  revert s. induction n as [ |n IH]; intros s Hn Hh.
  - destruct s; split; reflexivity.
  - destruct s as [ |c s]; [simpl in Hn; lia| ].
    simpl in Hn, Hh. apply andb_true_iff in Hh as [Hc Hs].
    destruct (IH s) as [IHl IHh]; [lia|exact Hs| ].
    simpl. rewrite IHl, IHh, Hc. split; reflexivity.
Qed.

Section ReviewIdentifierShape.

Variable repr_other : value -> string.

(** X22. For a payload without [reviewId] whose [asin] and [reviewerID] are
    texts, the identifier is derived from the text
    [<asin>_<reviewerID>_<time>], the time being the [unixReviewTime] of
    the payload or else the time of the ingestion. When that text holds a
    surrogate, which cannot be encoded, the derivation fails with
    [UnicodeEncodeError]; otherwise the identifier is
    [<asin>_<reviewerID>_<suffix>], the suffix being eight lower-case
    hexadecimal digits. *)
Theorem derived_review_id_shape (review : dict) (asin reviewerID : string) (st : state) :
  review !! "reviewId" = None ->
  review !! "asin" = Some (VStr asin) ->
  review !! "reviewerID" = Some (VStr reviewerID) ->
  let hash_input :=
    hash_input_of repr_other (VStr asin) (VStr reviewerID) review (clock st (reads st)) in
  if has_surrogate hash_input
  then fst (Preprocess.generate_review_id repr_other review st) = inl UnicodeEncodeError
  else exists suffix,
         fst (Preprocess.generate_review_id repr_other review st)
         = inr (VStr (asin +:+ "_" +:+ reviewerID +:+ "_" +:+ suffix))
         /\ String.length suffix = 8%nat /\ all_hex suffix = true.
Proof.
  intros Hid Hasin Hreviewer hash_input.
  rewrite generate_review_id_run. unfold item. rewrite Hid, Hasin, Hreviewer.
  fold hash_input. unfold encode.
  destruct (has_surrogate hash_input); [reflexivity| ].
  cbn [fst]. unfold derived_id. cbn [Preprocess.format].
  eexists. split; [reflexivity| ].
  destruct (hexdigest_shape hash_input) as [Hl Hh].
  apply substring_prefix_shape; [rewrite Hl; lia|exact Hh].
Qed.

End ReviewIdentifierShape.

(** X22 at the sample review. *)
Lemma derived_review_id_shape_witness :
  exists suffix,
    fst (Preprocess.generate_review_id Samples.repr_other Samples.profane_review
           (Samples.start (Samples.world_with ∅)))
    = inr (VStr ("B001" +:+ "_" +:+ "u1" +:+ "_" +:+ suffix))
    /\ String.length suffix = 8%nat /\ all_hex suffix = true.
Proof.
  pose proof (derived_review_id_shape Samples.repr_other Samples.profane_review "B001" "u1"
                (Samples.start (Samples.world_with ∅)) eq_refl eq_refl eq_refl) as H.
  cbv zeta in H.
  assert (has_surrogate
            (hash_input_of Samples.repr_other (VStr "B001") (VStr "u1") Samples.profane_review
               (clock (Samples.start (Samples.world_with ∅))
                      (reads (Samples.start (Samples.world_with ∅))))) = false) as Hno
    by (vm_compute; reflexivity).
  rewrite Hno in H. exact H.
Defined.

(** ** The ban and the threshold *)

Lemma fresh_keeps_isBanned (it : dict) (uid : string) (hp : bool) (now : string)
    (fresh : dict) (b : value) :
  it !! "isBanned" = Some b ->
  fresh_customer (Some it) uid hp now = inr fresh ->
  fresh !! "isBanned" = Some b.
Proof.
  intros Hb. simpl. unfold Profanity.update_expression, Profanity.when_missing.
  assert (contains it "isBanned" = true) as -> by (unfold contains; rewrite Hb; reflexivity).
  destruct (add1 (get it "totalReviews" (VInt 0))) as [e|total]; [discriminate| ].
  destruct hp.
  - destruct (add1 (get it "violationCount" (VInt 0))) as [e|v]; [discriminate| ].
    intros [= <-].
    repeat destruct (contains it _); rewrite !lookup_assign; simpl;
      rewrite ?lookup_insert_ne by discriminate; exact Hb.
  - intros [= <-].
    repeat destruct (contains it _); rewrite !lookup_assign; simpl;
      rewrite ?lookup_insert_ne by discriminate; exact Hb.
Qed.

Section BanThreshold.

Variable is_profane : value -> exn + bool.

(** X23. With a threshold of at least 1, every delivery that is processed
    without an error keeps the ban flag in step with the counter: when
    the customer is new, or has [violationCount = k] and
    [isBanned = (threshold <= k)], then afterwards [violationCount] is [k]
    plus one if the review was flagged, and [isBanned] tells whether that
    count has reached the threshold. The count must stay within the 28
    digits that [Decimal] arithmetic keeps. *)
Theorem ban_tracks_threshold (record : stream_record) (img : image)
    (rid uid : string) (st : state) (ct : string) (t : table) (text : string) (thr k : Z) :
  eventName record = "INSERT" -> NewImage record = Some img ->
  image_S img "reviewId" = inr rid -> image_S img "userId" = inr uid ->
  parameters (stores st) !! customers_parameter = Some ct ->
  tables (stores st) !! ct = Some t ->
  parameters (stores st) !! threshold_parameter = Some text ->
  int_of_string text = inr thr -> 1 <= thr ->
  match items t !! uid with
  | None => k = 0
  | Some it =>
      it !! "violationCount" = Some (VInt k)
      /\ it !! "isBanned" = Some (VBool (thr <=? k))
  end ->
  Z.abs k + 1 < coefficient_limit ->
  let st' := snd (Profanity.process_record is_profane record st) in
  succeeded st st' ->
  exists hp : bool,
    (flagged rid st st' <-> hp = true)
    /\ let k' := k + (if hp then 1 else 0) in
       item_attribute (stores st') ct uid "violationCount" = Some (VInt k')
       /\ item_attribute (stores st') ct uid "isBanned" = Some (VBool (thr <=? k')).
Proof.
  intros Hev Himg Hrid Huid Hct Ht Htext Hthr Hone Hinv Hlimit st' Hok.
  destruct (process_record_succeeded is_profane record img rid uid st Hev Himg Hrid Huid Hok)
    as (hp & now & ct' & t' & fresh & final & _ & Hp & Hct' & Ht' & Hkey & Hfresh & Hflag
        & Hfinal & Hban).
  fold st' in Hp, Hflag, Hfinal.
  assert (ct' = ct) as -> by (unfold customers_parameter in *; congruence).
  assert (t' = t) as -> by congruence.
  exists hp. split; [exact Hflag| ]. cbv zeta.
  rewrite !(item_attribute_insert _ _ _ _ _ _ _ Hfinal).
  set (k' := k + (if hp then 1 else 0)).
  assert (fresh !! "violationCount" = Some (VInt k')
          /\ fresh !! "isBanned" = Some (VBool (thr <=? k))) as (Hvc & Hb).
  { destruct (items t !! uid) as [it| ] eqn:Hit.
    - destruct Hinv as (Hvc & Hb).
      split; [ |exact (fresh_keeps_isBanned _ _ _ _ _ _ Hb Hfresh)].
      subst k'. destruct hp.
      + destruct (fresh_violationCount _ _ _ _ Hfresh) as (count & Hcount & ->).
        rewrite (counted_exact _ _ k) in Hcount; [congruence| |lia].
        simpl. unfold get. rewrite Hvc. reflexivity.
      + rewrite (fresh_clean_violationCount _ _ _ _ Hfresh). simpl. unfold get.
        rewrite Hvc, Z.add_0_r. reflexivity.
    - subst k k'. simpl in Hfresh. injection Hfresh as <-.
      assert ((thr <=? 0) = false) as -> by lia.
      destruct hp; split; reflexivity. }
  cbv zeta in Hban. unfold get in Hban. rewrite Hvc, Hb in Hban. simpl truthy in Hban.
  rewrite gt_int_VInt in Hban.
  assert (k <= k') as Hle by (subst k'; destruct hp; lia).
  destruct Hban as [[-> Hno]|(-> & _ & Hnot & text' & thr' & Htext' & Hthr' & Hge)].
  - split; [exact Hvc| ]. rewrite Hb. do 2 f_equal.
    destruct Hno as [[= Hpos]|[Hbanned|(text' & thr' & Htext' & Hthr' & Hge)]].
    + apply negb_false_iff in Hpos. lia.
    + lia.
    + assert (thr' = thr) as -> by (unfold threshold_parameter in *; congruence).
      rewrite ge_int_VInt in Hge. injection Hge as Hge. lia.
  - assert (thr' = thr) as -> by (unfold threshold_parameter in *; congruence).
    rewrite ge_int_VInt in Hge. injection Hge as Hge.
    split.
    + rewrite banned_customer_other by discriminate. exact Hvc.
    + unfold banned_customer. rewrite lookup_assign. simpl. rewrite Hge. reflexivity.
Qed.

End BanThreshold.

(** X23 at the fourth flagged review of a customer, with threshold 4. *)
Lemma ban_tracks_threshold_witness :
  let st := Samples.start (Samples.world_with {[ "u1" := Samples.flagged_customer 3 None ]}) in
  let st' := snd (Profanity.process_record Samples.is_profane Samples.r1_inserted st) in
  exists hp : bool,
    (flagged "r1" st st' <-> hp = true)
    /\ item_attribute (stores st') "customers" "u1" "violationCount"
       = Some (VInt (3 + (if hp then 1 else 0)))
    /\ item_attribute (stores st') "customers" "u1" "isBanned"
       = Some (VBool (4 <=? 3 + (if hp then 1 else 0))).
Proof.
  intros st st'.
  apply (ban_tracks_threshold Samples.is_profane Samples.r1_inserted Samples.r1_image
           "r1" "u1" st "customers"
           (Table "userId" {[ "u1" := Samples.flagged_customer 3 None ]}) "4" 4 3);
    [reflexivity|reflexivity|reflexivity|reflexivity|reflexivity|reflexivity
    |reflexivity|reflexivity|lia| | | ].
  - vm_compute. split; reflexivity.
  - vm_compute. reflexivity.
  - vm_compute. reflexivity.
Defined.

(** ** The stages, one after the other *)

Section ExpectedIdentifier.

Variable repr_other : value -> string.

(** X24. The identifier the integration tests wait for is the identifier the
    preprocess stage derives: for a payload with [unixReviewTime] and
    without [reviewId], [generate_review_id] returns what the tests
    compute from the payload, at every time of ingestion. *)
Theorem tests_expect_the_derived_id (review : dict) (id : string) (st : state) :
  review !! "reviewId" = None ->
  IntegrationTests.expected_review_id repr_other review = inr id ->
  fst (Preprocess.generate_review_id repr_other review st) = inr (VStr id).
Proof.
  intros Hid. rewrite generate_review_id_run.
  unfold IntegrationTests.expected_review_id, hash_input_of, derived_id.
  rewrite Hid.
  destruct (item review "asin") as [e|asin]; [discriminate| ].
  destruct (item review "reviewerID") as [e|reviewerID]; [discriminate| ].
  unfold item. destruct (review !! "unixReviewTime") as [time| ]; [ |discriminate].
  destruct (encode _) as [e|encoded]; [discriminate| ].
  intros [= <-]. reflexivity.
Qed.

End ExpectedIdentifier.

(** X24 at the sample review with a [unixReviewTime]. *)
Lemma tests_expect_the_derived_id_witness :
  fst (Preprocess.generate_review_id Samples.repr_other
         (<["unixReviewTime" := VInt 1393632002]> Samples.profane_review)
         (Samples.start (Samples.world_with ∅)))
  = inr (VStr "B001_u1_f059937e").
Proof.
  apply tests_expect_the_derived_id; [reflexivity| ]. vm_compute. reflexivity.
Defined.

Lemma item_attribute_item_at (w : world) (name k a : string) (it : dict) :
  item_at w name k = Some it -> item_attribute w name k a = it !! a.
Proof.
  unfold item_at, item_attribute. destruct (tables w !! name) as [t| ]; [ |discriminate].
  intros ->. reflexivity.
Qed.

Lemma record_satisfies_item_at (w : world) (name k : string) (P : dict -> Prop) :
  record_satisfies w name k P <-> exists it, item_at w name k = Some it /\ P it.
Proof.
  unfold record_satisfies, item_at. split.
  - intros (t & it & -> & Hit & HP). eauto.
  - intros (it & H & HP). destruct (tables w !! name) as [t| ]; [eauto|discriminate].
Qed.

Lemma item_at_upsert (name key k : string) (sets : list (string * value)) (w : world)
    (t : table) (it : dict) :
  tables w !! name = Some t -> key_name t = key -> item_at w name k = Some it ->
  item_at (upsert name key k sets w) name k = Some (assign sets it).
Proof.
  intros Ht Hkey Hit. unfold item_at in *. rewrite Ht in Hit.
  unfold upsert. rewrite Ht, <- Hkey, String.eqb_refl.
  rewrite (tables_write_item _ _ _ _ _ Ht). simpl.
  rewrite lookup_insert_eq, Hit. reflexivity.
Qed.

Section Pipeline.

Variable is_profane : value -> exn + bool.
Variable polarity_compound : string -> exn + Q.
Variable float_of_string : string -> option Q.

Let profanity := Profanity.process_record is_profane.
Let sentiment := Sentiment.process_record polarity_compound float_of_string "reviews".

Lemma sentiment_updated (record : stream_record) (st : state) (rid label : string) :
  In (SentimentUpdated rid label) (printed st (snd (sentiment record st))) ->
  exists t,
    tables (stores st) !! "reviews" = Some t /\ key_name t = "reviewId"
    /\ stores (snd (sentiment record st))
       = upsert "reviews" "reviewId" rid (sentiment_update label) (stores st).
Proof.
  pose proof (sentiment_record_cases polarity_compound float_of_string "reviews" record st)
    as Hcases. fold sentiment in Hcases.
  destruct (sentiment record st) as [r st']. simpl.
  destruct (Hcases st' r eq_refl)
    as [(_ & [Ho|(rid' & e & Ho)])|(rid' & label' & t & Ht & Hkey & Hs & Ho)].
  - unfold printed. rewrite Ho, drop_all. intros [].
  - rewrite (printed_app _ _ _ Ho). intros [[=]|[]].
  - rewrite (printed_app _ _ _ Ho). intros [[= <- <-]|[]]. eauto.
Qed.

Lemma profanity_keeps_review (record : stream_record) (st : state) (rid : string)
    (P : dict -> Prop) :
  (forall it hp lastUpdated, P it -> P (assign (review_update hp lastUpdated) it)) ->
  (exists it, item_at (stores st) "reviews" rid = Some it /\ P it) ->
  exists it, item_at (stores (snd (profanity record st))) "reviews" rid = Some it /\ P it.
Proof.
  intros HP H. apply record_satisfies_item_at.
  apply record_satisfies_item_at in H.
  apply process_record_keeps; [intros _; exact HP|contradiction..|exact H].
Qed.

(** X25. The two stream stages complete a preprocessed review in either
    order: when the profanity stage has processed the notification of a
    review without failing the record and the sentiment stage has updated
    its sentiment, whichever ran first, the review record still has
    [processingStatus = preprocessed] and now has
    [profanityCheckStatus = completed] and
    [sentimentAnalysisStatus = processed], which is what the integration
    tests wait for, together with the verdict and the label that were
    printed. *)
Theorem stages_complete_a_review (record : stream_record) (img : image)
    (rid uid : string) (st : state) (hp : bool) (label : string) :
  eventName record = "INSERT" -> NewImage record = Some img ->
  image_S img "reviewId" = inr rid -> image_S img "userId" = inr uid ->
  item_attribute (stores st) "reviews" rid "processingStatus" = Some (VStr "preprocessed") ->
  (let st1 := snd (profanity record st) in
   let st2 := snd (sentiment record st1) in
   In (ProfanityChecked rid hp) (printed st st1) ->
   existsb is_record_error (printed st st1) = false ->
   In (SentimentUpdated rid label) (printed st1 st2) ->
   exists it, item_at (stores st2) "reviews" rid = Some it /\ review_complete hp label it)
  /\ (let st1 := snd (sentiment record st) in
      let st2 := snd (profanity record st1) in
      In (SentimentUpdated rid label) (printed st st1) ->
      In (ProfanityChecked rid hp) (printed st1 st2) ->
      existsb is_record_error (printed st1 st2) = false ->
      exists it, item_at (stores st2) "reviews" rid = Some it /\ review_complete hp label it).
Proof.
  intros Hev Himg Hrid Huid Hpre.
  assert (exists it, item_at (stores st) "reviews" rid = Some it
                     /\ it !! "processingStatus" = Some (VStr "preprocessed"))
    as Hstart.
  { unfold item_attribute in Hpre. unfold item_at.
    destruct (tables (stores st) !! "reviews") as [t| ]; [ |discriminate].
    destruct (items t !! rid) as [it| ]; [eauto|discriminate]. }
  clear Hpre. split.
  - intros st1 st2 Hchecked Hok Hupdated.
    destruct (profanity_keeps_review record st rid
                (fun it => it !! "processingStatus" = Some (VStr "preprocessed")))
      as (it1 & Hit1 & Hstatus).
    { intros it hp' lastUpdated H. rewrite lookup_assign. exact H. }
    { exact Hstart. }
    fold st1 in Hit1.
    destruct (review_marked is_profane record img rid uid st hp Hev Himg Hrid Huid
                Hchecked Hok) as [Hhp Hdone].
    fold profanity in Hhp, Hdone. fold st1 in Hhp, Hdone.
    rewrite (item_attribute_item_at _ _ _ _ _ Hit1) in Hhp.
    rewrite (item_attribute_item_at _ _ _ _ _ Hit1) in Hdone.
    destruct (sentiment_updated record st1 rid label Hupdated) as (t & Ht & Hkey & Hs).
    fold st2 in Hs.
    exists (assign (sentiment_update label) it1).
    split; [rewrite Hs; exact (item_at_upsert _ _ _ _ _ _ _ Ht Hkey Hit1)| ].
    unfold review_complete, IntegrationTests.processing_complete, get.
    rewrite !lookup_assign. simpl. rewrite Hstatus, Hdone, Hhp. auto.
  - intros st1 st2 Hupdated Hchecked Hok.
    destruct Hstart as (it0 & Hit0 & Hstatus).
    destruct (sentiment_updated record st rid label Hupdated) as (t & Ht & Hkey & Hs).
    fold st1 in Hs.
    pose proof (item_at_upsert _ _ rid (sentiment_update label) _ _ _ Ht Hkey Hit0) as Hit1.
    rewrite <- Hs in Hit1.
    destruct (profanity_keeps_review record st1 rid
                (fun it => it !! "processingStatus" = Some (VStr "preprocessed")
                           /\ it !! "sentimentAnalysisStatus" = Some (VStr "processed")
                           /\ it !! "sentiment" = Some (VStr label)))
      as (it2 & Hit2 & Hkept1 & Hkept2 & Hkept3).
    { intros it hp' lastUpdated H. rewrite !lookup_assign. exact H. }
    { eexists. split; [exact Hit1| ]. rewrite !lookup_assign. simpl. auto. }
    fold st2 in Hit2.
    destruct (review_marked is_profane record img rid uid st1 hp Hev Himg Hrid Huid
                Hchecked Hok) as [Hhp Hdone].
    fold profanity in Hhp, Hdone. fold st2 in Hhp, Hdone.
    rewrite (item_attribute_item_at _ _ _ _ _ Hit2) in Hhp.
    rewrite (item_attribute_item_at _ _ _ _ _ Hit2) in Hdone.
    exists it2. split; [exact Hit2| ].
    unfold review_complete, IntegrationTests.processing_complete, get.
    rewrite Hkept1, Hkept2, Hkept3, Hdone, Hhp. auto.
Qed.

End Pipeline.

(** X25 at review [r1], the profanity stage first. *)
Lemma stages_complete_a_review_witness :
  let w :=
    World Samples.configuration Samples.uploads
          (list_to_map
             [ ("reviews",
                Table "reviewId"
                      {[ "r1" := <["processingStatus" := VStr "preprocessed"]>
                                   Samples.pending_review ]});
               ("customers", Table "userId" ∅) ]) in
  let st1 := snd (Profanity.process_record Samples.is_profane Samples.r1_inserted
                    (Samples.start w)) in
  let st2 := snd (Sentiment.process_record Samples.polarity_compound
                    Samples.float_of_string "reviews" Samples.r1_inserted st1) in
  exists it, item_at (stores st2) "reviews" "r1" = Some it
             /\ review_complete true "negative" it.
Proof.
  intros w st1 st2.
  destruct (stages_complete_a_review Samples.is_profane Samples.polarity_compound
              Samples.float_of_string Samples.r1_inserted Samples.r1_image "r1" "u1"
              (Samples.start w) true "negative") as [H _];
    [reflexivity|reflexivity|reflexivity|reflexivity|reflexivity| ].
  apply H.
  - vm_compute. left. reflexivity.
  - vm_compute. reflexivity.
  - vm_compute. left. reflexivity.
Defined.

Section ProcessedLocation.

Variable canonicalize : string -> exn + string.
Variable to_float : value -> exn + Q.
Variable to_decimal : value -> exn + value.
Variable utcfromtimestamp_iso : value -> exn + string.
Variable strptime_iso : value -> option string.
Variable repr_other : value -> string.

Let handler :=
  Preprocess.lambda_handler canonicalize to_float to_decimal utcfromtimestamp_iso
    strptime_iso repr_other.

(** X26. The location the preprocess stage records is one the sentiment
    stage can follow: when the handler answers 200 and the processed
    bucket has a name without slash and the key of the answer has no line
    feed, [parse_s3_uri] takes the [preprocessedLocation] of the review
    record apart into that bucket and that key, and the processed object
    is there. *)
Theorem processed_location_is_readable (event : list (string * string)) (st : state)
    (rid : value) (pkey pb : string) :
  fst (handler event st) = inr (Preprocess.Response200 rid pkey) ->
  parameters (stores st) !! "/app/config/processed_bucket" = Some pb ->
  pb <> "" -> has_char "/" pb = false -> has_char newline pkey = false ->
  let st' := snd (handler event st) in
  exists rt k uri,
    item_attribute (stores st') rt k "preprocessedLocation" = Some (VStr uri)
    /\ Sentiment.parse_s3_uri uri = inr (pb, pkey)
    /\ is_Some (object_at (stores st') pb pkey).
Proof.
  intros Hok Hpb Hname Hslash Hline st'. subst st'. revert Hok.
  unfold handler. rewrite handler_run.
  pose proof (ingest_cases canonicalize to_float to_decimal utcfromtimestamp_iso
                strptime_iso repr_other event st) as Hcases.
  destruct (Preprocess.ingest _ _ _ _ _ _ event st) as [[e|response] st'];
    [discriminate| ].
  simpl. intros [= ->].
  destruct (Hcases st' _ eq_refl) as [(_ & e & [=])|Hwritten].
  destruct Hwritten as (source_bucket & key & rest & pb' & rt & review & rid' & reviewerID
                        & asin & raw_overall & overall & text & summary & timestamp
                        & _ & Hpb' & Hrt & _ & _ & _ & _ & _ & _ & _ & _ & _ & _ & Hbucket
                        & Hrest).
  assert (pb' = pb) as -> by congruence.
  cbv zeta in Hrest.
  destruct Hrest as [(_ & e & [=])|(t & k & overallRating & timestamp' & helpfulVotes
                                    & totalVotes & createdAt & Ht & Hk & Hs & [= <- ->] & _)].
  exists rt, k, ("s3://" +:+ pb +:+ "/" +:+ processed_key_of repr_other reviewerID rid).
  split; [ |split].
  - match type of Hs with
    | _ = write_item _ _ ?item _ =>
        assert (tables (stores st') !! rt
                = Some (Table (key_name t) (<[k := item]> (items t)))) as Hitem
    end.
    { rewrite Hs. apply tables_write_item.
      rewrite (proj1 (tables_write_object _ _ _ _)). exact Ht. }
    rewrite (item_attribute_insert _ _ _ _ _ _ _ Hitem). reflexivity.
  - apply parse_s3_uri_app; [exact Hname|discriminate|exact Hslash|exact Hline].
  - rewrite Hs, object_at_write_item, (object_at_write_object _ _ _ _ Hbucket). eauto.
Qed.

End ProcessedLocation.

(** X26 at the upload of the sample review. *)
Lemma processed_location_is_readable_witness :
  let run :=
    Preprocess.lambda_handler Samples.canonicalize Samples.to_float Samples.to_decimal
      Samples.utcfromtimestamp_iso Samples.strptime_iso Samples.repr_other
      Samples.r1_uploaded (Samples.start (Samples.world_with ∅)) in
  exists rt k uri,
    item_attribute (stores (snd run)) rt k "preprocessedLocation" = Some (VStr uri)
    /\ Sentiment.parse_s3_uri uri
       = inr ("processed", "preprocessed/u1/B001_u1_4df9ccbb.json")
    /\ is_Some (object_at (stores (snd run)) "processed"
                  "preprocessed/u1/B001_u1_4df9ccbb.json").
Proof.
  intros run.
  apply (processed_location_is_readable Samples.canonicalize Samples.to_float
           Samples.to_decimal Samples.utcfromtimestamp_iso Samples.strptime_iso
           Samples.repr_other Samples.r1_uploaded (Samples.start (Samples.world_with ∅))
           (VStr "B001_u1_4df9ccbb"));
    [vm_compute; reflexivity|reflexivity|discriminate|reflexivity|reflexivity].
Defined.
